(** * zEpid: time-fixed g-formula and g-estimation of structural nested models

    A shallow embedding of [zepid/causal/gformula/TimeFixed.py] and
    [zepid/causal/snm/g_estimation.py].

    - Numbers are elements of an abstract numeric type (class [Numeric]);
      a missing value (NaN) is a cell of its own, so arithmetic on cells
      propagates it.  Rounding is not modelled.
    - A pandas DataFrame is an index of row labels and an ordered list of
      named columns.  Frames that the program binds to a name or an
      attribute live in a store of objects and are reached through
      references, so that [copy] and in-place column assignment can be told
      apart.
    - Python exceptions are values of [exn]; a method is a computation in a
      state-and-error monad over the instance and the world (store,
      warnings, printed text).
    - statsmodels, patsy, numpy's linear solver and Python's [eval] are
      collaborators: they are the fields of a record, [Collaborators], that
      every method takes, functions of what they are given.  patsy is
      given the local variables of its caller besides the formula and the
      table, since it resolves names there; [propensity_score] gives the
      lines it prints besides its result. *)

From Stdlib Require Import ZArith Ring Ascii.
From stdpp Require Import base list strings pretty.

Local Open Scope string_scope.
Local Open Scope list_scope.
Local Open Scope nat_scope.

(** ** Numbers, cells and exceptions *)

Class Numeric (R : Type) := {
  r0 : R;
  r1 : R;
  radd : R → R → R;
  rsub : R → R → R;
  rmul : R → R → R;
  rdiv : R → R → R;
  ropp : R → R;
  rnat : nat → R;
  reqb : R → R → bool;
  rltb : R → R → bool
}.

Inductive exn : Set :=
| ValueError (msg : string)
| TypeError (msg : string)
| KeyError (key : string)
| IndexError
| AttributeError (msg : string)
| ZeroDivisionError
| Fault (msg : string)            (* a reference to no object: not reachable from Python *)
| LibraryError (msg : string).    (* raised inside a collaborator *)

(** Every error the two classes raise on purpose is a [ValueError]: it is
    what the specification calls a configuration error. *)
Definition is_configuration_error (e : exn) : bool :=
  match e with ValueError _ => true | _ => false end.

Inductive result (A : Type) : Type :=
| Ok (a : A)
| Err (e : exn).
Arguments Ok {A} a.
Arguments Err {A} e.

Section Frames.
Context {R : Type} `{Numeric R}.

(** A cell is a number or NaN. *)
Definition cell : Type := option R.
Definition NaN : cell := None.

Definition cell_op (f : R → R → R) (x y : cell) : cell :=
  match x, y with
  | Some a, Some b => Some (f a b)
  | _, _ => NaN
  end.

(** Binary operation of two Series carrying a default (0..n-1) index: pandas
    aligns them on the labels, so positions beyond the shorter one are NaN. *)
Fixpoint align_with (f : R → R → R) (xs ys : list cell) : list cell :=
  match xs, ys with
  | x :: xs', y :: ys' => cell_op f x y :: align_with f xs' ys'
  | [], _ => map (λ _, NaN) ys
  | _, [] => map (λ _, NaN) xs
  end.

(** Sum of a column as pandas does it ([skipna=True]): NaN cells are left out. *)
Definition sum_skipna (xs : list cell) : R :=
  foldr (λ x acc, match x with Some a => radd a acc | None => acc end) r0 xs.

(** Sum of an array as numpy does it: NaN propagates. *)
Definition np_sum (xs : list cell) : cell :=
  foldr (cell_op radd) (Some r0) xs.

(** [np.mean] of a Series dispatches to [Series.mean], which skips NaN. *)
Definition np_mean (xs : list cell) : cell :=
  let present := omap id xs in
  match present with
  | [] => NaN
  | _ => Some (rdiv (foldr radd r0 present) (rnat (length present)))
  end.

(** [np.average(a, weights=w)]: the weights must not sum to zero. *)
Definition np_average (xs ws : list cell) : result cell :=
  if negb (length xs =? length ws)%nat
  then Err (TypeError "Axis must be specified when shapes of a and weights differ.")
  else
    let scl := np_sum ws in
    match scl with
    | Some s => if reqb s r0 then Err ZeroDivisionError
                else Ok (cell_op rdiv (np_sum (zip_with (cell_op rmul) xs ws)) scl)
    | None => Ok NaN
    end.

(** ** DataFrames *)

Record DataFrame : Type := {
  index : list nat;
  columns : list (string * list cell)
}.

Definition nrows (df : DataFrame) : nat := length (index df).

Definition column_names (df : DataFrame) : list string := map fst (columns df).

Fixpoint lookup_col (c : string) (cols : list (string * list cell)) : option (list cell) :=
  match cols with
  | [] => None
  | (n, v) :: rest => if String.eqb n c then Some v else lookup_col c rest
  end.

(** [df[c]] *)
Definition get_col (c : string) (df : DataFrame) : option (list cell) :=
  lookup_col c (columns df).

Definition has_col (c : string) (df : DataFrame) : bool :=
  match get_col c df with Some _ => true | None => false end.

Fixpoint assign_col (c : string) (v : list cell) (cols : list (string * list cell))
  : list (string * list cell) :=
  match cols with
  | [] => [(c, v)]
  | (n, old) :: rest =>
      if String.eqb n c then (n, v) :: rest else (n, old) :: assign_col c v rest
  end.

(** [df[c] = v] with [v] one value per row: the column is replaced where it
    stands, or added last. *)
Definition set_col (c : string) (v : list cell) (df : DataFrame) : DataFrame :=
  {| index := index df; columns := assign_col c v (columns df) |}.

(** [df[c] = x] with a scalar [x]: broadcast over the rows. *)
Definition set_col_scalar (c : string) (x : cell) (df : DataFrame) : DataFrame :=
  set_col c (replicate (nrows df) x) df.

(** [df[c] = arr] with an array: its length has to be the number of rows. *)
Definition set_col_array (c : string) (v : list cell) (df : DataFrame) : result DataFrame :=
  if (length v =? nrows df)%nat then Ok (set_col c v df)
  else Err (ValueError "Length of values does not match length of index").

(** [df.drop(columns=[c])] *)
Definition drop_col (c : string) (df : DataFrame) : result DataFrame :=
  if has_col c df
  then Ok {| index := index df;
             columns := filter (λ p, negb (String.eqb (fst p) c)) (columns df) |}
  else Err (KeyError c).

(** [df.rename(columns={old: new})]: labels that are absent are ignored. *)
Definition rename_col (old new : string) (df : DataFrame) : DataFrame :=
  {| index := index df;
     columns := map (λ p, if String.eqb (fst p) old then (new, snd p) else p) (columns df) |}.

Fixpoint select {A : Type} (mask : list bool) (xs : list A) : list A :=
  match mask, xs with
  | b :: mask', x :: xs' => if b then x :: select mask' xs' else select mask' xs'
  | _, _ => []
  end.

Definition present_at (i : nat) (col : list cell) : bool :=
  match col !! i with
  | Some (Some _) => true
  | _ => false
  end.

Definition complete_rows (df : DataFrame) : list bool :=
  map (λ i, forallb (λ p, present_at i (snd p)) (columns df)) (seq 0 (nrows df)).

(** [df.dropna()]: the rows with no missing value in any column. *)
Definition dropna (df : DataFrame) : DataFrame :=
  let mask := complete_rows df in
  {| index := select mask (index df);
     columns := map (λ p, (fst p, select mask (snd p))) (columns df) |}.

(** [df.reset_index()]: the old labels become a column, named [index], or
    [level_0] when [index] is taken; the rows are numbered afresh. *)
Definition index_column_name (df : DataFrame) : string :=
  if has_col "index" df then "level_0" else "index".

Definition reset_index (df : DataFrame) : result DataFrame :=
  let name := index_column_name df in
  if has_col name df
  then Err (ValueError ("cannot insert " +:+ name +:+ ", already exists"))
  else Ok {| index := seq 0 (nrows df);
             columns := (name, map (λ i, Some (rnat i)) (index df)) :: columns df |}.

(** [s.value_counts().index]: the distinct values of a Series, NaN left out. *)
Fixpoint distinct_values (xs : list cell) : list R :=
  match xs with
  | [] => []
  | None :: rest => distinct_values rest
  | Some a :: rest =>
      a :: filter (λ b, negb (reqb a b)) (distinct_values rest)
  end.

(** [idx.isin([0, 1]).all()] *)
Definition isin_0_1 (a : R) : bool := reqb a r0 || reqb a r1.

(** [np.where(cond, 1, 0)] *)
Definition np_where_1_0 (cond : list bool) : list cell :=
  map (λ b : bool, if b then Some r1 else Some r0) cond.

(** [df[cs].sum(axis=1)]: the row sums over the listed columns, NaN skipped;
    a label that is absent is a [KeyError]. *)
Fixpoint row_sums (n : nat) (cs : list string) (df : DataFrame) : result (list R) :=
  match cs with
  | [] => Ok (replicate n r0)
  | c :: rest =>
      match get_col c df with
      | None => Err (KeyError c)
      | Some v =>
          match row_sums n rest df with
          | Err e => Err e
          | Ok acc =>
              Ok (zip_with (λ x a, match x with Some b => radd b a | None => a end) v acc)
          end
      end
  end.

End Frames.

Arguments DataFrame R : clear implicits.
Arguments cell R : clear implicits.

(** ** The world and the monad of methods *)

(** A reference to a DataFrame object: its position in the store. *)
Abbreviation ref := nat (only parsing).

Section Runtime.
Context {R : Type} `{Numeric R}.


Record world : Type := {
  heap : list (DataFrame R);     (* the objects, by reference *)
  warnings : list string;        (* [warnings.warn], oldest first *)
  stdout : list string           (* [print], oldest first *)
}.

(** A computation over an instance of type [I] and the world: it ends in a
    value or in an exception, and in both cases leaves a state. *)
Definition M (I A : Type) : Type := I * world → result A * (I * world).

Definition raise {I A : Type} (e : exn) : M I A := λ s, (Err e, s).

Definition lift {I A : Type} (r : result A) : M I A := λ s, (r, s).

Definition get_self {I : Type} : M I I := λ s, (Ok s.1, s).

Definition set_self {I : Type} (f : I → I) : M I unit := λ s, (Ok (), (f s.1, s.2)).

Definition warn {I : Type} (msg : string) : M I unit :=
  λ s, (Ok (), (s.1, {| heap := heap s.2;
                        warnings := warnings s.2 ++ [msg];
                        stdout := stdout s.2 |})).

Definition print {I : Type} (msg : string) : M I unit :=
  λ s, (Ok (), (s.1, {| heap := heap s.2;
                        warnings := warnings s.2;
                        stdout := stdout s.2 ++ [msg] |})).

(** Several lines written by a callee, in order. *)
Definition emit {I : Type} (lines : list string) : M I unit :=
  λ s, (Ok (), (s.1, {| heap := heap s.2;
                        warnings := warnings s.2;
                        stdout := stdout s.2 ++ lines |})).

(** A new object: its reference is the next free one. *)
Definition alloc {I : Type} (t : DataFrame R) : M I ref :=
  λ s, (Ok (length (heap s.2)),
        (s.1, {| heap := heap s.2 ++ [t];
                 warnings := warnings s.2;
                 stdout := stdout s.2 |})).

Definition load {I : Type} (l : ref) : M I (DataFrame R) :=
  λ s, match heap s.2 !! l with
       | Some t => (Ok t, s)
       | None => (Err (Fault "no such object"), s)
       end.

(** In-place update of the object behind [l]. *)
Definition store {I : Type} (l : ref) (t : DataFrame R) : M I unit :=
  λ s, match heap s.2 !! l with
       | Some _ => (Ok (), (s.1, {| heap := <[l := t]> (heap s.2);
                                    warnings := warnings s.2;
                                    stdout := stdout s.2 |}))
       | None => (Err (Fault "no such object"), s)
       end.

(** [df[c]] on a frame value, a [KeyError] when the label is absent. *)
Definition getitem {I : Type} (c : string) (t : DataFrame R) : M I (list (cell R)) :=
  match get_col c t with
  | Some v => lift (Ok v)
  | None => raise (KeyError c)
  end.

End Runtime.

Arguments world R : clear implicits.
Arguments M R I A : clear implicits.

Global Instance M_ret {R I : Type} : MRet (M R I) := λ A a s, (Ok a, s).

Global Instance M_bind {R I : Type} : MBind (M R I) :=
  λ A B f m s,
    match m s with
    | (Ok a, s') => f a s'
    | (Err e, s') => (Err e, s')
    end.

(** ** Names a formula can see *)

(** A Python object, as far as an expression in a formula can look at it. *)
#[local] Unset Elimination Schemes.
Inductive pyvalue (R : Type) : Type :=
| PyNone
| PyBool (b : bool)
| PyStr (s : string)
| PyNum (x : R)
| PySeries (xs : list (option R))
| PyFrame (tbl : DataFrame R)
| PyList (xs : list (pyvalue R))
| PyObject (attrs : list (string * pyvalue R)).
#[local] Set Elimination Schemes.
Arguments PyNone {R}.
Arguments PyBool {R} b.
Arguments PyStr {R} s.
Arguments PyNum {R} x.
Arguments PySeries {R} xs.
Arguments PyFrame {R} tbl.
Arguments PyList {R} xs.
Arguments PyObject {R} attrs.

(** The local variables of a frame, by name. *)
Definition namespace (R : Type) : Type := list (string * pyvalue R).

Fixpoint ns_lookup {R : Type} (name : string) (ns : namespace R) : option (pyvalue R) :=
  match ns with
  | [] => None
  | (k, v) :: rest => if String.eqb k name then Some v else ns_lookup name rest
  end.

(** ** The collaborators *)

Inductive family : Set := Binomial_logit | Gaussian_identity.

(** What the two classes call and do not define: statsmodels ([glm_fit],
    [gee_fit], [summary], [predict]), Python's [eval] of a treatment
    expression with the working table bound to [g] ([py_eval], the truth
    value per row), patsy ([dmatrix]), [propensity_score] of
    zepid/causal/ipw/utils.py and [np.linalg.solve].  [predict] returns a
    Series indexed like the table it is given, one prediction per row; it
    is assigned and subtracted position by position.  [patsy.dmatrix] is
    called without [eval_env]: a name of the formula that is not a column
    of the table is looked up in the frame of the caller, so [dmatrix] is
    given the local variables of that frame.  [propensity_score] prints
    the model it has fitted when it is asked to: it gives the lines it
    writes besides what it returns or raises. *)
Record Collaborators (R model : Type) : Type := {
  glm_fit : string → DataFrame R → family → result model;
  gee_fit : string → list nat → DataFrame R → family → list (cell R) → result model;
  summary : model → string;
  predict : model → DataFrame R → result (list (cell R));
  py_eval : string → DataFrame R → result (list bool);
  dmatrix : string → namespace R → DataFrame R → result (DataFrame R);
  propensity_score : DataFrame R → string → option string → bool
                     → list string * result model;
  linalg_solve : list (list (cell R)) → list (cell R) → result (list (cell R))
}.
Arguments glm_fit {R model} _ _ _ _.
Arguments gee_fit {R model} _ _ _ _ _ _.
Arguments summary {R model} _ _.
Arguments predict {R model} _ _ _.
Arguments py_eval {R model} _ _ _.
Arguments dmatrix {R model} _ _ _ _.
Arguments propensity_score {R model} _ _ _ _ _.
Arguments linalg_solve {R model} _ _ _.

(** ** [TimeFixedGFormula] (zepid/causal/gformula/TimeFixed.py) *)

Module TimeFixedGFormula.
Section Class.
Context {R : Type} `{Numeric R} {model : Type}.
Variable ext : Collaborators R model.

(** [exposure] is a column name or a list of indicator columns. *)
Inductive exposure_arg : Set :=
| Scalar (c : string)
| Multi (cs : list string).

(** [treatment] as the caller passes it: a string, a list of strings, or an
    object of another type. *)
Inductive treatment_arg : Set :=
| TStr (s : string)
| TList (l : list string)
| TOther.

Record t : Type := {
  gf : ref;
  exposure : exposure_arg;
  outcome : string;
  outcome_type : string;
  _weights : option string;
  model_fit : bool;
  (* the attribute [self.outcome_model], which hides the method once it is set *)
  outcome_model_result : option model;
  marginal_outcome : option (cell R);
  predicted_df : option ref
}.

Definition with_outcome_model_result (m : model) (self : t) : t :=
  {| gf := gf self; exposure := exposure self; outcome := outcome self;
     outcome_type := outcome_type self; _weights := _weights self;
     model_fit := model_fit self; outcome_model_result := Some m;
     marginal_outcome := marginal_outcome self; predicted_df := predicted_df self |}.

Definition with_model_fit (b : bool) (self : t) : t :=
  {| gf := gf self; exposure := exposure self; outcome := outcome self;
     outcome_type := outcome_type self; _weights := _weights self;
     model_fit := b; outcome_model_result := outcome_model_result self;
     marginal_outcome := marginal_outcome self; predicted_df := predicted_df self |}.

Definition with_marginal_outcome (x : cell R) (self : t) : t :=
  {| gf := gf self; exposure := exposure self; outcome := outcome self;
     outcome_type := outcome_type self; _weights := _weights self;
     model_fit := model_fit self; outcome_model_result := outcome_model_result self;
     marginal_outcome := Some x; predicted_df := predicted_df self |}.

Definition with_predicted_df (g : ref) (self : t) : t :=
  {| gf := gf self; exposure := exposure self; outcome := outcome self;
     outcome_type := outcome_type self; _weights := _weights self;
     model_fit := model_fit self; outcome_model_result := outcome_model_result self;
     marginal_outcome := marginal_outcome self; predicted_df := Some g |}.

(** [df.copy()], bound to a name: a new object with the same contents. *)
Definition copy {I : Type} (l : ref) : M R I ref :=
  tbl ← load l; alloc tbl.

Definition __init__ (df : ref) (exposure : exposure_arg) (outcome : string)
    (outcome_type : string) (weights : option string) : M R unit t :=
  gf ← copy df;
  if String.eqb outcome_type "binary" || String.eqb outcome_type "continuous"
  then mret {| gf := gf; exposure := exposure; outcome := outcome;
               outcome_type := outcome_type; _weights := weights;
               model_fit := false; outcome_model_result := None;
               marginal_outcome := None; predicted_df := None |}
  else raise (ValueError "Only binary or continuous outcomes are currently supported. Please specify 'binary' or 'continuous'").

Definition outcome_model (model_ : string) (print_results : bool) : M R t unit :=
  self ← get_self;
  match outcome_model_result self with
  | Some _ => raise (TypeError "object is not callable")
  | None =>
      let linkdist := if String.eqb (outcome_type self) "binary"
                      then Binomial_logit else Gaussian_identity in
      tbl ← load (gf self);
      m ← match _weights self with
          | None => lift (glm_fit ext (outcome self +:+ " ~ " +:+ model_) tbl linkdist)
          | Some w =>
              ws ← getitem w tbl;
              lift (gee_fit ext (outcome self +:+ " ~ " +:+ model_) (index tbl) tbl linkdist ws)
          end;
      _ ← set_self (with_outcome_model_result m);
      _ ← (if print_results then print (summary ext m) else mret ());
      set_self (with_model_fit true)
  end.

(** [treatment == s] *)
Definition treatment_is (s : string) (treatment : treatment_arg) : bool :=
  match treatment with
  | TStr s' => String.eqb s' s
  | _ => false
  end.

Definition is_list (treatment : treatment_arg) : bool :=
  match treatment with TList _ => true | _ => false end.

(** [len(treatment)] *)
Definition treatment_len (treatment : treatment_arg) : nat :=
  match treatment with
  | TStr s => String.length s
  | TList l => length l
  | TOther => 0
  end.

(** [treatment[i]]: an item of the list, or a character of the string. *)
Definition treatment_item (treatment : treatment_arg) (i : nat) : result string :=
  match treatment with
  | TStr s => match String.get i s with
              | Some a => Ok (String a EmptyString)
              | None => Err IndexError
              end
  | TList l => match l !! i with
               | Some p => Ok p
               | None => Err IndexError
               end
  | TOther => Err (TypeError "object is not subscriptable")
  end.

(** [g[c] = np.where(eval(expr), 1, 0)] *)
Definition assign_where (g : ref) (expr : result string) (c : result string) : M R t unit :=
  e ← lift expr;
  tbl ← load g;
  cond ← lift (py_eval ext e tbl);
  c ← lift c;
  tbl' ← lift (set_col_array c (np_where_1_0 cond) tbl);
  store g tbl'.

Definition exposure_item (es : list string) (i : nat) : result string :=
  match es !! i with
  | Some e => Ok e
  | None => Err IndexError
  end.

(** [for i in range(...): g[self.exposure[i]] = np.where(eval(treatment[i]),1,0)] *)
Fixpoint assign_indicators (g : ref) (es : list string) (treatment : treatment_arg)
    (range : list nat) : M R t unit :=
  match range with
  | [] => mret ()
  | i :: rest =>
      _ ← assign_where g (treatment_item treatment i) (exposure_item es i);
      assign_indicators g es treatment rest
  end.

(** [np.sum(np.where(g[self.exposure].sum(axis=1) > 1, 1, 0))] *)
Definition count_overlaps (es : list string) (tbl : DataFrame R) : result nat :=
  match row_sums (nrows tbl) es tbl with
  | Err e => Err e
  | Ok sums => Ok (sum_list (map (λ s, if rltb r1 s then 1 else 0) sums))
  end.

Definition overlap_warning : string :=
  "It looks like your specified treatment strategy results in some individuals receiving at least two exposures. Reconsider how the custom treatments are specified".

(** The block "Setting treatment (either multivariate or binary)". *)
Definition set_treatment (g : ref) (treatment : treatment_arg) : M R t unit :=
  self ← get_self;
  match exposure self with
  | Multi es =>
      if treatment_is "all" treatment || treatment_is "none" treatment
      then raise (ValueError "A multivariate exposure has been specified. A custom treatment must be specified by the user")
      else
        if negb (length es =? treatment_len treatment)%nat
        then raise (ValueError "The list of custom treatment conditions must be the same size as the number of treatments")
        else
          _ ← assign_indicators g es treatment (seq 0 (length es));
          tbl ← load g;
          n ← lift (count_overlaps es tbl);
          if (1 <? n)%nat then warn overlap_warning else mret ()
  | Scalar e =>
      if is_list treatment
      then raise (ValueError "A binary exposure is specified. Treatment plan should be a string object")
      else
        if treatment_is "all" treatment
        then tbl ← load g; store g (set_col_scalar e (Some r1) tbl)
        else
          if treatment_is "none" treatment
          then tbl ← load g; store g (set_col_scalar e (Some r0) tbl)
          else assign_where g (match treatment with
                               | TStr s => Ok s
                               | _ => Err (TypeError "eval() arg 1 must be a string")
                               end) (Ok e)
  end.

(** The block "Getting predictions". *)
Definition predict_outcomes (g : ref) : M R t unit :=
  self ← get_self;
  tbl ← load g;
  _ ← store g (set_col_scalar (outcome self) NaN tbl);
  m ← match outcome_model_result self with
      | Some m => mret m
      | None => raise (AttributeError "'function' object has no attribute 'predict'")
      end;
  tbl ← load g;
  preds ← lift (predict ext m tbl);
  tbl' ← lift (set_col_array (outcome self) preds tbl);
  _ ← store g tbl';
  tbl ← load g;
  yhat ← getitem (outcome self) tbl;
  mo ← match _weights self with
       | None => mret (np_mean yhat)
       | Some w =>
           stored ← load (gf self);
           ws ← getitem w stored;
           lift (np_average yhat ws)
       end;
  _ ← set_self (with_marginal_outcome mo);
  set_self (with_predicted_df g).

Definition fit (treatment : treatment_arg) : M R t unit :=
  self ← get_self;
  if negb (model_fit self)
  then raise (ValueError "Before the g-formula can be calculated, the outcome model must be specified")
  else
    match treatment with
    | TOther => raise (ValueError "Specified treatment must be a string object or a list of string objects")
    | _ =>
        g ← copy (gf self);
        _ ← set_treatment g treatment;
        predict_outcomes g
    end.

End Class.
End TimeFixedGFormula.

(** ** [GEstimationSNM] (zepid/causal/snm/g_estimation.py) *)

Module GEstimationSNM.
Section Class.
Context {R : Type} `{Numeric R} {model : Type}.
Variable ext : Collaborators R model.

Record t : Type := {
  df : ref;
  treatment : string;
  outcome : string;
  psi : option (list (cell R));
  psi_labels : option (list string);
  _weights : option string;
  _treatment_model : option string;
  _predicted_A : option (list (cell R));
  _snm_ : option string;
  _print_results : bool
}.

Definition with_psi (x : list (cell R)) (self : t) : t :=
  {| df := df self; treatment := treatment self; outcome := outcome self;
     psi := Some x; psi_labels := psi_labels self; _weights := _weights self;
     _treatment_model := _treatment_model self; _predicted_A := _predicted_A self;
     _snm_ := _snm_ self; _print_results := _print_results self |}.

Definition with_psi_labels (x : list string) (self : t) : t :=
  {| df := df self; treatment := treatment self; outcome := outcome self;
     psi := psi self; psi_labels := Some x; _weights := _weights self;
     _treatment_model := _treatment_model self; _predicted_A := _predicted_A self;
     _snm_ := _snm_ self; _print_results := _print_results self |}.

Definition with_treatment_model (m : string) (p : bool) (self : t) : t :=
  {| df := df self; treatment := treatment self; outcome := outcome self;
     psi := psi self; psi_labels := psi_labels self; _weights := _weights self;
     _treatment_model := Some m; _predicted_A := _predicted_A self;
     _snm_ := _snm_ self; _print_results := p |}.

Definition with_snm (m : string) (self : t) : t :=
  {| df := df self; treatment := treatment self; outcome := outcome self;
     psi := psi self; psi_labels := psi_labels self; _weights := _weights self;
     _treatment_model := _treatment_model self; _predicted_A := _predicted_A self;
     _snm_ := Some m; _print_results := _print_results self |}.

Definition missing_data_warning (kept total : nat) : string :=
  "There is missing data in the dataset. By default, GEstimationSNM will drop all missing data. GEstimationSNM will fit "
  +:+ pretty kept +:+ " of " +:+ pretty total +:+ " observations".

Definition __init__ (df : ref) (exposure : string) (outcome : string)
    (weights : option string) : M R unit t :=
  tbl ← load df;
  _ ← (if negb (nrows (dropna tbl) =? nrows tbl)%nat
       then warn (missing_data_warning (nrows (dropna tbl)) (nrows tbl))
       else mret ());
  (* self.df = df.copy().dropna().reset_index() *)
  tbl' ← lift (reset_index (dropna tbl));
  own ← alloc tbl';
  a ← getitem exposure tbl';
  if negb (forallb isin_0_1 (distinct_values a))
  then raise (ValueError "GEstimationSNM only supports binary exposures currently")
  else mret {| df := own; treatment := exposure; outcome := outcome;
               psi := None; psi_labels := None; _weights := weights;
               _treatment_model := None; _predicted_A := None;
               _snm_ := None; _print_results := true |}.

Definition treatment_model (model_ : string) (print_results : bool) : M R t unit :=
  set_self (with_treatment_model model_ print_results).

(** [alpha_value]: a number or a sequence of numbers. *)
Inductive alpha_arg : Type :=
| AlphaScalar (x : R)
| AlphaSeq (xs : list R).

Definition attr {A : Type} (f : A → pyvalue R) (o : option A) : pyvalue R :=
  match o with
  | Some a => f a
  | None => PyNone
  end.

(** [self] as an expression sees it; [tbl] is the table behind [self.df]. *)
Definition self_value (self : t) (tbl : DataFrame R) : pyvalue R :=
  PyObject [("df", PyFrame tbl);
            ("treatment", PyStr (treatment self));
            ("outcome", PyStr (outcome self));
            ("psi", attr PySeries (psi self));
            ("psi_labels", attr (λ l, PyList (map PyStr l)) (psi_labels self));
            ("_weights", attr PyStr (_weights self));
            ("_treatment_model", attr PyStr (_treatment_model self));
            ("_predicted_A", attr PySeries (_predicted_A self));
            ("_snm_", attr PyStr (_snm_ self));
            ("_print_results", PyBool (_print_results self))].

Definition alpha_value_of (alpha_value : alpha_arg) : pyvalue R :=
  match alpha_value with
  | AlphaScalar x => PyNum x
  | AlphaSeq xs => PyList (map PyNum xs)
  end.

(** The local variables of [fit] when it builds the design matrix of the
    structural nested model (line 151): its parameters.  The globals of
    the module are the same in every call and are left out. *)
Definition fit_locals (self : t) (tbl : DataFrame R) (solver : string)
    (starting_value : option (list R)) (alpha_value : alpha_arg) : namespace R :=
  [("self", self_value self tbl);
   ("solver", PyStr solver);
   ("starting_value", attr (λ l, PyList (map PyNum l)) starting_value);
   ("alpha_value", alpha_value_of alpha_value)].

(** The same when it builds the design matrix of the outcome (line 157):
    [psi_labels] is set, and [snm] and [yf] are bound. *)
Definition fit_locals_outcome (self : t) (tbl : DataFrame R) (solver : string)
    (starting_value : option (list R)) (alpha_value : alpha_arg)
    (snm yf : DataFrame R) : namespace R :=
  fit_locals (with_psi_labels (column_names snm) self) tbl solver starting_value alpha_value
  ++ [("snm", PyFrame snm); ("yf", PyFrame yf)].

Definition structural_nested_model (model_ : string) : M R t unit :=
  set_self (with_snm model_).

(** [a + b] where [a] is an attribute holding a string or [None]. *)
Definition concat_attr_l (a : option string) (b : string) : result string :=
  match a with
  | Some s => Ok (s +:+ b)
  | None => Err (TypeError "unsupported operand type(s) for +: 'NoneType' and 'str'")
  end.

(** [a + b] where [b] is an attribute holding a string or [None]. *)
Definition concat_attr_r (a : string) (b : option string) : result string :=
  match b with
  | Some s => Ok (a +:+ s)
  | None => Err (TypeError "can only concatenate str (not 'NoneType') to str")
  end.

(** [series * x] where [x] is a Python string: pandas cannot multiply a
    Series of floats by a [str]. *)
Definition series_mul_str (s : list (cell R)) (x : string) : result (list (cell R)) :=
  Err (TypeError "can't multiply sequence by non-int of type 'float'").

(** [m.mul(s, axis=0)]: row [i] of the frame times [s[i]], aligned on the
    row labels. *)
Definition mul_rows (m : DataFrame R) (s : list (cell R)) : DataFrame R :=
  {| index := index m ++ seq (nrows m) (length s - nrows m);
     columns := map (λ p, (fst p, align_with rmul (snd p) s)) (columns m) |}.

(** [np.dot(a.transpose(), b)]: entry (i, j) is the dot product of column
    [i] of [a] and column [j] of [b]; the row counts have to agree. *)
Definition np_dot_T (a b : DataFrame R) : result (list (list (cell R))) :=
  if (nrows a =? nrows b)%nat
  then Ok (map (λ ca, map (λ cb, np_sum (zip_with (cell_op rmul) (snd ca) (snd cb)))
                          (columns b))
               (columns a))
  else Err (ValueError "shapes not aligned").

(** [m.sum()]: the sum of every column, NaN skipped. *)
Definition column_sums (m : DataFrame R) : list (cell R) :=
  map (λ p, Some (sum_skipna (snd p))) (columns m).

Definition _closed_form_solver_ {I : Type} (treat : string) (model_ : string) (df : ref)
    (snm_matrix y_matrix : DataFrame R) (weights : option string)
    (print_results : bool) : M R I (list (cell R)) :=
  tbl ← load df;
  let called := propensity_score ext tbl model_ weights print_results in
  _ ← emit (fst called);
  fm ← lift (snd called);
  pred_treat ← lift (predict ext fm tbl);
  a ← getitem treat tbl;
  let diff := align_with rsub a pred_treat in
  diff ← match weights with
         | None => mret diff
         | Some w => lift (series_mul_str diff w)
         end;
  lhm ← lift (np_dot_T (mul_rows snm_matrix diff) snm_matrix);
  let y_matrix := mul_rows y_matrix diff in
  let rha := column_sums y_matrix in
  lift (linalg_solve ext lhm rha).

Definition _grid_search_ {A : Type} : M R t A :=
  raise (ValueError "Not implemented yet").

Definition fit (solver : string) (starting_value : option (list R))
    (alpha_value : alpha_arg) : M R t unit :=
  if String.eqb solver "closed"
  then
    self ← get_self;
    f ← lift (concat_attr_l (_snm_ self) " - 1");
    tbl ← load (df self);
    snm ← lift (dmatrix ext f (fit_locals self tbl solver starting_value alpha_value) tbl);
    _ ← set_self (with_psi_labels (column_names snm));
    (* yf = self.df.copy().drop(columns=[self.treatment]) *)
    dropped ← lift (drop_col (treatment self) tbl);
    _ ← alloc dropped;
    (* yf = yf.rename(columns={self.outcome: self.treatment}) *)
    yf ← alloc (rename_col (outcome self) (treatment self) dropped);
    f ← lift (concat_attr_l (_snm_ self) " - 1");
    ytbl ← load yf;
    y_vals ← lift (dmatrix ext f
                     (fit_locals_outcome self tbl solver starting_value alpha_value snm ytbl)
                     ytbl);
    m ← lift (concat_attr_r (treatment self +:+ " ~ ") (_treatment_model self));
    x ← _closed_form_solver_ (treatment self) m (df self) snm y_vals
          (_weights self) (_print_results self);
    set_self (with_psi x)
  else
    if String.eqb solver "search"
    then _grid_search_
    else raise (ValueError "`solver` must be specified as either 'closed' or as 'search'").

(** The design matrix of [formula] is the same whatever the names in
    [hidden] are bound to in the frame of the caller. *)
Definition formula_ignores (hidden : list string) (formula : string) : Prop :=
  ∀ (ns1 ns2 : namespace R) (tbl : DataFrame R),
    (∀ name, name ∉ hidden → ns_lookup name ns1 = ns_lookup name ns2) →
    dmatrix ext formula ns1 tbl = dmatrix ext formula ns2 tbl.

Definition summary_rule : string :=
  "======================================================================".

Definition summary_title : string :=
  "           G-estimation of Structural Nested Mean Model               ".

(** [for line in lines: print(line)] *)
Fixpoint print_lines {I : Type} (lines : list string) : M R I unit :=
  match lines with
  | [] => mret ()
  | line :: rest => _ ← print line; print_lines rest
  end.

(** [summary(decimal)].  [show decimal p] stands for the text of
    [np.round(p, decimals=decimal)]; [print(pl, x)] writes the two texts
    with a blank between them.  [zip] asks its arguments for an iterator
    from left to right, and stops at the shorter one. *)
Definition summary (show : Z → cell R → string) (decimal : Z) : M R t unit :=
  _ ← print summary_rule;
  _ ← print summary_title;
  _ ← print summary_rule;
  _ ← print summary_rule;
  self ← get_self;
  match psi self, psi_labels self with
  | None, _ => raise (TypeError "zip argument #1 must support iteration")
  | Some _, None => raise (TypeError "zip argument #2 must support iteration")
  | Some ps, Some pls =>
      _ ← print_lines (zip_with (λ p pl, pl +:+ " " +:+ show decimal p) ps pls);
      print summary_rule
  end.

End Class.
End GEstimationSNM.

(** ** A concrete instance: integers as numbers, small stand-ins for the collaborators *)

Module Demo.

#[global] Instance Z_numeric : Numeric Z := {|
  r0 := 0%Z; r1 := 1%Z;
  radd := Z.add; rsub := Z.sub; rmul := Z.mul; rdiv := Z.div; ropp := Z.opp;
  rnat := Z.of_nat; reqb := Z.eqb; rltb := Z.ltb
|}.

(** The stand-in for [eval]: the expression is a column name, true in the
    rows where that column of [g] is not zero. *)
Definition truthy (c : cell Z) : bool :=
  match c with
  | Some z => negb (z =? 0)%Z
  | None => true
  end.

Definition eval_column (expr : string) (g : DataFrame Z) : result (list bool) :=
  match get_col expr g with
  | Some v => Ok (map truthy v)
  | None => Err (LibraryError "NameError")
  end.

(** The stand-in for a fitted model: it predicts 2 * a + 3 where [a] is the
    column the model was fitted for, and NaN where [a] is missing. *)
Definition predict_linear (m : string) (tbl : DataFrame Z) : result (list (cell Z)) :=
  match get_col m tbl with
  | Some v => Ok (map (λ c : cell Z, match c with
                                     | Some z => Some (2 * z + 3)%Z
                                     | None => None
                                     end) v)
  | None => Err (LibraryError "PatsyError")
  end.

(** The model formula is [y ~ c] with a single regressor [c]. *)
Fixpoint formula_rhs (formula : string) : string :=
  match formula with
  | EmptyString => EmptyString
  | String a rest =>
      if Ascii.eqb a "~"%char
      then match rest with
           | String _ rhs => rhs
           | EmptyString => EmptyString
           end
      else formula_rhs rest
  end.

(** The numbers of a Python list of numbers. *)
Definition numbers (xs : list (pyvalue Z)) : option (list Z) :=
  mapM (λ v, match v with PyNum x => Some x | _ => None end) xs.

(** The stand-in for patsy: the formula ["c - 1"] gives the one-column
    design matrix holding column [c] of the table.  When the table has no
    column [c], the name is looked up in the frame of the caller: a list
    of numbers, one per row, is taken as the column. *)
Definition dmatrix_column (formula : string) (ns : namespace Z) (tbl : DataFrame Z)
  : result (DataFrame Z) :=
  let c := String.substring 0 (String.length formula - 4) formula in
  match get_col c tbl with
  | Some v => Ok {| index := index tbl; columns := [(c, v)] |}
  | None =>
      match ns_lookup c ns with
      | Some (PyList xs) =>
          match numbers xs with
          | Some col =>
              if (length col =? nrows tbl)%nat
              then Ok {| index := index tbl; columns := [(c, map Some col)] |}
              else Err (LibraryError "PatsyError")
          | None => Err (LibraryError "PatsyError")
          end
      | _ => Err (LibraryError "PatsyError")
      end
  end.

(** The stand-in for [propensity_score]: the lines it prints when asked
    to, and the model. *)
Definition propensity_score_lines (formula : string) (print_results : bool) : list string :=
  if print_results
  then ["----------------------------------------------------------------";
        "MODEL: " +:+ formula;
        "-----------------------------------------------------------------";
        "Generalized Linear Model Regression Results: " +:+ formula_rhs formula]
  else [].

(** The stand-in for [np.linalg.solve]: systems of one equation. *)
Definition solve_1x1 (lhm : list (list (cell Z))) (rha : list (cell Z))
  : result (list (cell Z)) :=
  match lhm, rha with
  | [[Some a]], [Some b] =>
      if (a =? 0)%Z then Err (LibraryError "Singular matrix") else Ok [Some (b / a)%Z]
  | _, _ => Err (LibraryError "unsupported shape")
  end.

Definition ext : Collaborators Z string := {|
  glm_fit := λ formula _ _, Ok (formula_rhs formula);
  gee_fit := λ formula _ _ _ _, Ok (formula_rhs formula);
  summary := λ m, "Generalized Linear Model Regression Results: " +:+ m;
  predict := predict_linear;
  py_eval := eval_column;
  dmatrix := dmatrix_column;
  propensity_score := λ _ formula _ print_results,
                        (propensity_score_lines formula print_results,
                         Ok (formula_rhs formula));
  linalg_solve := solve_1x1
|}.

Definition nums (l : list Z) : list (cell Z) := map Some l.

(** Four subjects: exposure [art], outcome [dead], covariate [male], weights [w]. *)
Definition table : DataFrame Z := {|
  index := [0; 1; 2; 3];
  columns := [("art", nums [1; 0; 1; 0]%Z);
              ("dead", nums [0; 1; 1; 0]%Z);
              ("male", nums [1; 1; 0; 0]%Z);
              ("w", nums [1; 2; 1; 2]%Z)]
|}.

(** The caller's world: its table is the object 0. *)
Definition world0 : world Z := {| heap := [table]; warnings := []; stdout := [] |}.

(** The same world once an estimator has taken its private copy (object 1). *)
Definition world1 : world Z := {| heap := [table; table]; warnings := []; stdout := [] |}.

(** A [TimeFixedGFormula] as its constructor leaves it. *)
Definition tf_new (exposure : TimeFixedGFormula.exposure_arg) (weights : option string)
  : TimeFixedGFormula.t (R := Z) (model := string) :=
  {| TimeFixedGFormula.gf := 1;
     TimeFixedGFormula.exposure := exposure;
     TimeFixedGFormula.outcome := "dead";
     TimeFixedGFormula.outcome_type := "binary";
     TimeFixedGFormula._weights := weights;
     TimeFixedGFormula.model_fit := false;
     TimeFixedGFormula.outcome_model_result := None;
     TimeFixedGFormula.marginal_outcome := None;
     TimeFixedGFormula.predicted_df := None |}.

(** The same after [outcome_model('art')]. *)
Definition tf_fitted (exposure : TimeFixedGFormula.exposure_arg) (weights : option string)
  : TimeFixedGFormula.t (R := Z) (model := string) :=
  TimeFixedGFormula.with_model_fit true
    (TimeFixedGFormula.with_outcome_model_result "art" (tf_new exposure weights)).

(** The private table of a [GEstimationSNM]: no row is dropped, and the old
    row labels have become the column [index]. *)
Definition table_reset : DataFrame Z := {|
  index := [0; 1; 2; 3];
  columns := ("index", nums [0; 1; 2; 3]%Z) :: columns table
|}.

Definition world_ge : world Z :=
  {| heap := [table; table_reset]; warnings := []; stdout := [] |}.

(** A [GEstimationSNM] as its constructor leaves it. *)
Definition ge_new (weights : option string) : GEstimationSNM.t (R := Z) :=
  {| GEstimationSNM.df := 1;
     GEstimationSNM.treatment := "art";
     GEstimationSNM.outcome := "dead";
     GEstimationSNM.psi := None;
     GEstimationSNM.psi_labels := None;
     GEstimationSNM._weights := weights;
     GEstimationSNM._treatment_model := None;
     GEstimationSNM._predicted_A := None;
     GEstimationSNM._snm_ := None;
     GEstimationSNM._print_results := true |}.

(** The same after [structural_nested_model('art')] and [treatment_model('male')]. *)
Definition ge_configured (weights : option string) : GEstimationSNM.t (R := Z) :=
  GEstimationSNM.with_treatment_model "male" true
    (GEstimationSNM.with_snm "art" (ge_new weights)).


(** The structural nested model names [alpha_value], which is no column of
    the table. *)
Definition ge_alpha : GEstimationSNM.t (R := Z) :=
  GEstimationSNM.with_treatment_model "male" true
    (GEstimationSNM.with_snm "alpha_value" (ge_new None)).

(** Everybody is treated: the exposure takes the single value 1. *)
Definition table_all_treated : DataFrame Z := {|
  index := [0; 1; 2; 3];
  columns := [("art", nums [1; 1; 1; 1]%Z);
              ("dead", nums [0; 1; 1; 0]%Z);
              ("male", nums [1; 1; 0; 0]%Z)]
|}.

(** A dose rather than an indicator: the exposure takes the value 2, and one
    row has no outcome. *)
Definition table_dose : DataFrame Z := {|
  index := [0; 1; 2; 3];
  columns := [("art", nums [1; 0; 2; 0]%Z);
              ("dead", [Some 0; None; Some 1; Some 0]%Z);
              ("male", nums [1; 1; 0; 0]%Z)]
|}.

Definition world_of (tbl : DataFrame Z) : world Z :=
  {| heap := [tbl]; warnings := []; stdout := [] |}.

(** Two drugs as disjoint indicators, and two covariates to build plans from. *)
Definition table_two_drugs : DataFrame Z := {|
  index := [0; 1; 2; 3];
  columns := [("drug_a", nums [1; 0; 0; 0]%Z);
              ("drug_b", nums [0; 1; 0; 0]%Z);
              ("dead", nums [0; 1; 1; 0]%Z);
              ("male", nums [1; 1; 0; 0]%Z);
              ("young", nums [1; 0; 0; 0]%Z);
              ("old", nums [1; 1; 1; 0]%Z)]
|}.

(** The caller's table and the estimator's copy of it. *)
Definition world_two_drugs : world Z :=
  {| heap := [table_two_drugs; table_two_drugs]; warnings := []; stdout := [] |}.

(** A [TimeFixedGFormula] on the two indicators, after
    [outcome_model('drug_a')]. *)
Definition tf_two_drugs : TimeFixedGFormula.t (R := Z) (model := string) :=
  {| TimeFixedGFormula.gf := 1;
     TimeFixedGFormula.exposure := TimeFixedGFormula.Multi ["drug_a"; "drug_b"];
     TimeFixedGFormula.outcome := "dead";
     TimeFixedGFormula.outcome_type := "binary";
     TimeFixedGFormula._weights := None;
     TimeFixedGFormula.model_fit := true;
     TimeFixedGFormula.outcome_model_result := Some "drug_a";
     TimeFixedGFormula.marginal_outcome := None;
     TimeFixedGFormula.predicted_df := None |}.

(** One subject has no recorded outcome. *)
Definition table_incomplete : DataFrame Z := {|
  index := [0; 1; 2; 3];
  columns := [("art", nums [1; 0; 1; 0]%Z);
              ("dead", [Some 0; None; Some 1; Some 0]%Z);
              ("male", nums [1; 1; 0; 0]%Z)]
|}.

(** A table saved with its row labels, twice. *)
Definition table_relabelled : DataFrame Z := {|
  index := [0; 1];
  columns := [("level_0", nums [0; 1]%Z);
              ("index", nums [4; 7]%Z);
              ("art", nums [1; 0]%Z);
              ("dead", nums [0; 1]%Z)]
|}.

End Demo.

(** ** Sessions: what a caller does with an estimator *)

Module Session.
Section Calls.
Context {R : Type} `{Numeric R} {model : Type}.
Variable ext : Collaborators R model.

(** The method calls on a [TimeFixedGFormula]. *)
Inductive tf_call : Type :=
| TFOutcomeModel (model_ : string) (print_results : bool)
| TFFit (treatment : TimeFixedGFormula.treatment_arg).

Definition tf_do (c : tf_call) : M R TimeFixedGFormula.t unit :=
  match c with
  | TFOutcomeModel model_ print_results =>
      TimeFixedGFormula.outcome_model ext model_ print_results
  | TFFit treatment => TimeFixedGFormula.fit ext treatment
  end.

(** The method calls on a [GEstimationSNM]. *)
Inductive ge_call : Type :=
| GETreatmentModel (model_ : string) (print_results : bool)
| GEStructuralNestedModel (model_ : string)
| GEFit (solver : string) (starting_value : option (list R))
        (alpha_value : GEstimationSNM.alpha_arg (R := R)).

Definition ge_do (c : ge_call) : M R GEstimationSNM.t unit :=
  match c with
  | GETreatmentModel model_ print_results =>
      GEstimationSNM.treatment_model model_ print_results
  | GEStructuralNestedModel model_ => GEstimationSNM.structural_nested_model model_
  | GEFit solver starting_value alpha_value =>
      GEstimationSNM.fit ext solver starting_value alpha_value
  end.

(** The calls one after the other; a caller that catches an exception goes
    on with the instance and the world as the failed call left them. *)
Fixpoint run_calls {I C : Type} (do : C → M R I unit) (calls : list C) (s : I * world R)
  : I * world R :=
  match calls with
  | [] => s
  | c :: rest => run_calls do rest (do c s).2
  end.

(** Construction on the caller's table [df], then the calls: the world at
    the end.  When the constructor raises there is no instance to call. *)
Definition tf_session (df : ref) (exposure : TimeFixedGFormula.exposure_arg)
    (outcome outcome_type : string) (weights : option string) (calls : list tf_call)
    (w : world R) : world R :=
  match TimeFixedGFormula.__init__ df exposure outcome outcome_type weights ((), w) with
  | (Ok self, (_, w1)) => (run_calls tf_do calls (self, w1)).2
  | (Err _, (_, w1)) => w1
  end.

Definition ge_session (df : ref) (exposure outcome : string) (weights : option string)
    (calls : list ge_call) (w : world R) : world R :=
  match GEstimationSNM.__init__ df exposure outcome weights ((), w) with
  | (Ok self, (_, w1)) => (run_calls ge_do calls (self, w1)).2
  | (Err _, (_, w1)) => w1
  end.

(** [frames n w w']: the first [n] objects of [w] are the same in [w'], and
    no object has gone. *)
Definition frames (n : nat) (w w' : world R) : Prop :=
  take n (heap w') = take n (heap w) ∧ (length (heap w) ≤ length (heap w'))%nat.

(** [respects n inv post m]: from an instance satisfying [inv] and a world
    of at least [n] objects, [m] keeps [inv], leaves the first [n] objects
    alone, and a value it returns satisfies [post]. *)
Definition respects {I A : Type} (n : nat) (inv : I → Prop) (post : A → Prop)
    (m : M R I A) : Prop :=
  ∀ (self : I) (w : world R),
    inv self → (n ≤ length (heap w))%nat →
    inv (m (self, w)).2.1
    ∧ frames n w (m (self, w)).2.2
    ∧ match (m (self, w)).1 with
      | Ok a => post a
      | Err _ => True
      end.

End Calls.
End Session.

(** ** The estimating equation of the closed form, as the specification writes it *)

Module SpecFormula.
Section Formula.
Context {R : Type} `{Numeric R}.

(** Matrices of numbers are given by their columns. *)
Definition dot (u v : list R) : R := foldr radd r0 (zip_with rmul u v).

(** [Aᵀ · B]: entry (i, j) is the dot product of column [i] of [A] and
    column [j] of [B]. *)
Definition transpose_mul (A B : list (list R)) : list (list R) :=
  map (λ a, map (λ b, dot a b) B) A.

(** [diag(d) · B]: row [k] of [B] times [d[k]]. *)
Definition diag_mul (d : list R) (B : list (list R)) : list (list R) :=
  map (λ b, zip_with rmul d b) B.

(** [lhm = snm_matrixᵀ · diag(diff) · snm_matrix] *)
Definition lhm (snm : list (list R)) (diff : list R) : list (list R) :=
  transpose_mul snm (diag_mul diff snm).

(** [rha = Σ_rows diff · y_matrix_row]: one sum per column of [y_matrix]. *)
Definition rha (y : list (list R)) (diff : list R) : list R :=
  map (λ c, dot diff c) y.

(** [diff = observed_exposure − predicted_probability] *)
Definition residual (observed predicted : list R) : list R :=
  zip_with rsub observed predicted.

(** A frame holding numbers only. *)
Definition frame_of (idx : list nat) (cols : list (string * list R)) : DataFrame R :=
  {| index := idx; columns := map (λ p, (fst p, map Some (snd p))) cols |}.

End Formula.
End SpecFormula.

(** ** What [TimeFixedGFormula.fit] computes, without the store *)

Global Instance result_ret : MRet result := λ A a, Ok a.

Global Instance result_bind : MBind result :=
  λ A B f r,
    match r with
    | Ok a => f a
    | Err e => Err e
    end.

(** The statements of [fit], read as functions of the table they work on.
    They serve to say what a call depends on; [fit] itself is the
    computation on the store above. *)
Module FitOutcome.
Section Functions.
Context {R : Type} `{Numeric R} {model : Type}.
Variable ext : Collaborators R model.

Import TimeFixedGFormula.

(** The table after [g[c] = np.where(eval(expr), 1, 0)]. *)
Definition where_column (tbl : DataFrame R) (expr c : result string)
  : result (DataFrame R) :=
  e ← expr;
  cond ← py_eval ext e tbl;
  c ← c;
  set_col_array c (np_where_1_0 cond) tbl.

(** The table after the loop over the indicators. *)
Fixpoint indicators (es : list string) (treatment : treatment_arg) (range : list nat)
    (tbl : DataFrame R) : result (DataFrame R) :=
  match range with
  | [] => Ok tbl
  | i :: rest =>
      tbl' ← where_column tbl (treatment_item treatment i) (exposure_item es i);
      indicators es treatment rest tbl'
  end.

(** The table after the treatment block, and the warnings it issues. *)
Definition treated (exposure : exposure_arg) (treatment : treatment_arg)
    (tbl : DataFrame R) : result (DataFrame R * list string) :=
  match exposure with
  | Multi es =>
      if treatment_is "all" treatment || treatment_is "none" treatment
      then Err (ValueError "A multivariate exposure has been specified. A custom treatment must be specified by the user")
      else
        if negb (length es =? treatment_len treatment)
        then Err (ValueError "The list of custom treatment conditions must be the same size as the number of treatments")
        else
          tbl' ← indicators es treatment (seq 0 (length es)) tbl;
          n ← count_overlaps es tbl';
          Ok (tbl', if 1 <? n then [overlap_warning] else [])
  | Scalar e =>
      if is_list treatment
      then Err (ValueError "A binary exposure is specified. Treatment plan should be a string object")
      else
        if treatment_is "all" treatment
        then Ok (set_col_scalar e (Some r1) tbl, [])
        else
          if treatment_is "none" treatment
          then Ok (set_col_scalar e (Some r0) tbl, [])
          else
            tbl' ← where_column tbl (match treatment with
                                     | TStr s => Ok s
                                     | _ => Err (TypeError "eval() arg 1 must be a string")
                                     end) (Ok e);
            Ok (tbl', [])
  end.

(** The marginal outcome and the table with the predictions, from the
    treated table and the stored one. *)
Definition predicted (self : t (R := R) (model := model)) (stored tbl : DataFrame R)
  : result (cell R * DataFrame R) :=
  let blank := set_col_scalar (outcome self) NaN tbl in
  m ← match outcome_model_result self with
      | Some m => Ok m
      | None => Err (AttributeError "'function' object has no attribute 'predict'")
      end;
  preds ← predict ext m blank;
  wt ← set_col_array (outcome self) preds blank;
  yhat ← match get_col (outcome self) wt with
         | Some v => Ok v
         | None => Err (KeyError (outcome self))
         end;
  mo ← match _weights self with
       | None => Ok (np_mean yhat)
       | Some w =>
           ws ← match get_col w stored with
                | Some v => Ok v
                | None => Err (KeyError w)
                end;
           np_average yhat ws
       end;
  Ok (mo, wt).

(** The marginal outcome, the working table and the warnings of
    [fit(treatment)] on an instance whose stored table is [stored]. *)
Definition fit_outcome (self : t (R := R) (model := model)) (stored : DataFrame R) (treatment : treatment_arg)
  : result (cell R * DataFrame R * list string) :=
  if negb (model_fit self)
  then Err (ValueError "Before the g-formula can be calculated, the outcome model must be specified")
  else
    match treatment with
    | TOther => Err (ValueError "Specified treatment must be a string object or a list of string objects")
    | _ =>
        tw ← treated (exposure self) treatment stored;
        mw ← predicted self stored (fst tw);
        Ok (fst mw, snd mw, snd tw)
    end.

(** Two instances with the same configuration: they may differ in where
    their table is and in the results of earlier fits. *)
Definition same_configuration (a b : t (R := R) (model := model)) : Prop :=
  exposure a = exposure b
  ∧ outcome a = outcome b
  ∧ _weights a = _weights b
  ∧ model_fit a = model_fit b
  ∧ outcome_model_result a = outcome_model_result b.

End Functions.
End FitOutcome.

(** * Properties *)

(** ** The monad *)

Section MonadFacts.
Context {R I : Type}.

Lemma bind_unfold {A B : Type} (m : M R I A) (k : A → M R I B) (s : I * world R) :
  (m ≫= k) s = match m s with
               | (Ok a, s') => k a s'
               | (Err e, s') => (Err e, s')
               end.
Proof. reflexivity. Qed.

Lemma bind_Ok {A B : Type} (m : M R I A) (k : A → M R I B) s b s' :
  (m ≫= k) s = (Ok b, s') → ∃ a s1, m s = (Ok a, s1) ∧ k a s1 = (Ok b, s').
Proof.
  rewrite bind_unfold. destruct (m s) as [[a | e] s1]; [eauto | discriminate].
Qed.

Lemma bind_Err_l {A B : Type} (m : M R I A) (k : A → M R I B) s e s1 :
  m s = (Err e, s1) → (m ≫= k) s = (Err e, s1).
Proof. intros Hm. rewrite bind_unfold, Hm. reflexivity. Qed.

Lemma bind_Ok_l {A B : Type} (m : M R I A) (k : A → M R I B) s a s1 :
  m s = (Ok a, s1) → (m ≫= k) s = k a s1.
Proof. intros Hm. rewrite bind_unfold, Hm. reflexivity. Qed.

Lemma lift_run {A : Type} (r : result A) (s : I * world R) : lift r s = (r, s).
Proof. reflexivity. Qed.

Lemma lift_Ok {A : Type} (r : result A) (s s' : I * world R) a :
  lift r s = (Ok a, s') → r = Ok a ∧ s' = s.
Proof. unfold lift. intros [= -> ->]. done. Qed.

Lemma load_Ok (l : ref) (s s' : I * world R) tbl :
  load l s = (Ok tbl, s') → heap s.2 !! l = Some tbl ∧ s' = s.
Proof.
  unfold load. destruct (heap s.2 !! l); intros [= <- <-]; done.
Qed.

Lemma load_cases (l : ref) (s : I * world R) :
  (∃ tbl, heap s.2 !! l = Some tbl ∧ load l s = (Ok tbl, s))
  ∨ (heap s.2 !! l = None ∧ load l s = (Err (Fault "no such object"), s)).
Proof.
  unfold load. destruct (heap s.2 !! l) as [tbl |]; [left; eauto | right; eauto].
Qed.

Lemma store_cases (l : ref) (tbl : DataFrame R) (s : I * world R) :
  (∃ old, heap s.2 !! l = Some old
          ∧ store l tbl s = (Ok (), (s.1, {| heap := <[l := tbl]> (heap s.2);
                                             warnings := warnings s.2;
                                             stdout := stdout s.2 |})))
  ∨ (heap s.2 !! l = None ∧ store l tbl s = (Err (Fault "no such object"), s)).
Proof.
  unfold store. destruct (heap s.2 !! l) as [old |]; [left; eauto | right; eauto].
Qed.

Lemma getitem_cases (c : string) (tbl : DataFrame R) (s : I * world R) :
  (∃ v, get_col c tbl = Some v ∧ getitem c tbl s = (Ok v, s))
  ∨ (get_col c tbl = None ∧ getitem c tbl s = (Err (KeyError c), s)).
Proof.
  unfold getitem. destruct (get_col c tbl) as [v |]; [left; eauto | right; eauto].
Qed.

End MonadFacts.

(** One step of a computation: open a bind, run a primitive, or split on
    the outcome of a step whose result is not known. *)
Ltac mstep :=
  match goal with
  | |- context [(?m ≫= ?k) ?s] => rewrite (bind_unfold m k s)
  | |- context [load ?l ?s] =>
      let tbl := fresh "tbl" in
      let Hl := fresh "Hload" in
      let Hr := fresh "Hrun" in
      destruct (load_cases l s) as [(tbl & Hl & Hr) | (Hl & Hr)];
      rewrite Hr; clear Hr; cbn [fst snd heap warnings stdout] in Hl
  | |- context [store ?l ?t ?s] =>
      let old := fresh "old" in
      let Hl := fresh "Hstore" in
      let Hr := fresh "Hrun" in
      destruct (store_cases l t s) as [(old & Hl & Hr) | (Hl & Hr)];
      rewrite Hr; clear Hr; cbn [fst snd heap warnings stdout] in Hl
  | |- context [getitem ?c ?t ?s] =>
      let v := fresh "v" in
      let Hl := fresh "Hget" in
      let Hr := fresh "Hrun" in
      destruct (getitem_cases c t s) as [(v & Hl & Hr) | (Hl & Hr)];
      rewrite Hr; clear Hr
  | |- context [lift ?r ?s] =>
      lazymatch r with
      | Ok _ => rewrite (lift_run r s)
      | Err _ => rewrite (lift_run r s)
      | _ =>
          let a := fresh "a" in
          let e := fresh "e" in
          let Hr := fresh "Hres" in
          destruct r as [a | e] eqn:Hr; rewrite lift_run
      end
  | _ => progress cbn [get_self set_self alloc raise warn print emit mret M_ret
                       fst snd heap warnings stdout]
  end.

Ltac mrun := repeat mstep.

(** ** [GEstimationSNM.fit]: the solver argument *)

Section SolverDispatch.
Context {R : Type} `{Numeric R} {model : Type}.
Variable ext : Collaborators R model.

Import GEstimationSNM.

(** C5. [fit] looks at [solver] before anything else.  [solver='search']
    reaches [_grid_search_], which raises at once with the message
    "Not implemented yet"; every value other than ['closed'] and ['search']
    raises the [ValueError] of the last branch.  Neither touches the
    instance or the world. *)
Theorem fit_solver_dispatch (solver : string) (starting_value : option (list R))
    (alpha_value : alpha_arg) (s : t * world R) :
  solver ≠ "closed" →
  fit ext solver starting_value alpha_value s =
    (Err (ValueError (if String.eqb solver "search"
                      then "Not implemented yet"
                      else "`solver` must be specified as either 'closed' or as 'search'")),
     s).
Proof.
  intros Hne. unfold fit.
  apply String.eqb_neq in Hne. rewrite Hne.
  destruct (String.eqb solver "search"); reflexivity.
Qed.

(** The parameters of [fit] are the only local variables that differ
    between two calls from the same state. *)
Lemma fit_locals_agree (self : t) (tbl : DataFrame R) (solver : string)
    (sv1 sv2 : option (list R)) (av1 av2 : alpha_arg) (name : string) :
  name ∉ ["starting_value"; "alpha_value"] →
  ns_lookup name (fit_locals self tbl solver sv1 av1)
  = ns_lookup name (fit_locals self tbl solver sv2 av2).
Proof.
  intros Hname. unfold fit_locals. cbn [ns_lookup].
  destruct (String.eqb "self" name); [reflexivity |].
  destruct (String.eqb "solver" name); [reflexivity |].
  destruct (String.eqb "starting_value" name) eqn:Hs.
  { apply String.eqb_eq in Hs. subst name. exfalso. apply Hname. left. }
  destruct (String.eqb "alpha_value" name) eqn:Ha; [| reflexivity].
  apply String.eqb_eq in Ha. subst name. exfalso. apply Hname. right. left.
Qed.

Lemma ns_lookup_app (name : string) (ns1 ns2 rest : namespace R) :
  ns_lookup name ns1 = ns_lookup name ns2 →
  ns_lookup name (ns1 ++ rest) = ns_lookup name (ns2 ++ rest).
Proof.
  assert (Happ : ∀ ns : namespace R,
            ns_lookup name (ns ++ rest)
            = match ns_lookup name ns with
              | Some v => Some v
              | None => ns_lookup name rest
              end).
  { induction ns as [| [k v] ns IH]; cbn [app ns_lookup]; [reflexivity |].
    destruct (String.eqb k name); [reflexivity | exact IH]. }
  intros Heq. rewrite !Happ, Heq. reflexivity.
Qed.

(** C10, as the code has it.  With [solver='closed'] the statements of
    [fit] never read [starting_value] or [alpha_value]; the two are local
    variables of the frame, though, in which patsy resolves the names of
    the formula of the structural nested model.  When the design matrix of
    that formula does not depend on what the two names are bound to, two
    calls from the same state that differ only in them end in the same
    result and the same state, hence in the same [psi] and [psi_labels]. *)
Theorem fit_closed_ignores_search_arguments
    (sv1 sv2 : option (list R)) (av1 av2 : alpha_arg) (s : t * world R) :
  (∀ snm_f, _snm_ s.1 = Some snm_f →
            formula_ignores ext ["starting_value"; "alpha_value"] (snm_f +:+ " - 1")) →
  fit ext "closed" sv1 av1 s = fit ext "closed" sv2 av2 s
  ∧ psi (fit ext "closed" sv1 av1 s).2.1 = psi (fit ext "closed" sv2 av2 s).2.1
  ∧ psi_labels (fit ext "closed" sv1 av1 s).2.1 = psi_labels (fit ext "closed" sv2 av2 s).2.1.
Proof.
  intros Hign.
  assert (Heq : fit ext "closed" sv1 av1 s = fit ext "closed" sv2 av2 s);
    [| rewrite Heq; repeat split; reflexivity].
  destruct s as [self w]. cbn [fst] in Hign.
  unfold fit. cbn [String.eqb Ascii.eqb Bool.eqb andb].
  rewrite !bind_unfold. cbn [get_self fst snd].
  destruct (_snm_ self) as [snm_f |] eqn:Hsnm; [| reflexivity].
  specialize (Hign snm_f eq_refl).
  cbn [concat_attr_l]. rewrite !bind_unfold, !lift_run, !bind_unfold.
  destruct (load_cases (df self) (self, w)) as [(tbl & Hdf & ->) | (_ & ->)];
    [| reflexivity].
  rewrite !bind_unfold, !lift_run.
  rewrite (Hign (fit_locals self tbl "closed" sv1 av1) (fit_locals self tbl "closed" sv2 av2))
    by (intros name Hname; apply fit_locals_agree, Hname).
  destruct (dmatrix ext (snm_f +:+ " - 1") (fit_locals self tbl "closed" sv2 av2) tbl)
    as [snm | e]; [| reflexivity].
  rewrite !bind_unfold. cbn [set_self fst snd]. rewrite !bind_unfold, !lift_run.
  destruct (drop_col (treatment self) tbl) as [dropped | e]; [| reflexivity].
  rewrite !bind_unfold. cbn [alloc fst snd heap warnings stdout].
  rewrite !bind_unfold. cbn [alloc fst snd heap warnings stdout].
  rewrite !bind_unfold, !lift_run, !bind_unfold.
  match goal with
  | |- context [load ?l ?st] =>
      destruct (load_cases l st) as [(ytbl & _ & ->) | (_ & ->)]; [| reflexivity]
  end.
  rewrite !bind_unfold, !lift_run.
  rewrite (Hign (fit_locals_outcome self tbl "closed" sv1 av1 snm ytbl)
             (fit_locals_outcome self tbl "closed" sv2 av2 snm ytbl))
    by (intros name Hname; apply ns_lookup_app, fit_locals_agree, Hname).
  reflexivity.
Qed.

End SolverDispatch.

Lemma fit_solver_dispatch_witness :
  GEstimationSNM.fit Demo.ext "search" None (GEstimationSNM.AlphaScalar 0%Z)
    (Demo.ge_configured None, Demo.world_ge)
  = (Err (ValueError "Not implemented yet"), (Demo.ge_configured None, Demo.world_ge))
  ∧ GEstimationSNM.fit Demo.ext "grid" None (GEstimationSNM.AlphaScalar 0%Z)
      (Demo.ge_configured None, Demo.world_ge)
    = (Err (ValueError "`solver` must be specified as either 'closed' or as 'search'"),
       (Demo.ge_configured None, Demo.world_ge)).
Proof.
  split.
  - apply (fit_solver_dispatch Demo.ext "search"). discriminate.
  - apply (fit_solver_dispatch Demo.ext "grid"). discriminate.
Defined.

Lemma fit_closed_ignores_search_arguments_witness :
  let s := (Demo.ge_configured None, Demo.world_ge) in
  GEstimationSNM.fit Demo.ext "closed" None (GEstimationSNM.AlphaScalar 0%Z) s
  = GEstimationSNM.fit Demo.ext "closed" (Some [7%Z])
      (GEstimationSNM.AlphaSeq [1; 0; 0; 0]%Z) s
  ∧ GEstimationSNM.psi
      (GEstimationSNM.fit Demo.ext "closed" None (GEstimationSNM.AlphaScalar 0%Z) s).2.1
    = GEstimationSNM.psi
        (GEstimationSNM.fit Demo.ext "closed" (Some [7%Z])
           (GEstimationSNM.AlphaSeq [1; 0; 0; 0]%Z) s).2.1
  ∧ GEstimationSNM.psi_labels
      (GEstimationSNM.fit Demo.ext "closed" None (GEstimationSNM.AlphaScalar 0%Z) s).2.1
    = GEstimationSNM.psi_labels
        (GEstimationSNM.fit Demo.ext "closed" (Some [7%Z])
           (GEstimationSNM.AlphaSeq [1; 0; 0; 0]%Z) s).2.1.
Proof.
  cbv zeta.
  apply (fit_closed_ignores_search_arguments Demo.ext None (Some [7%Z])
           (GEstimationSNM.AlphaScalar 0%Z) (GEstimationSNM.AlphaSeq [1; 0; 0; 0]%Z)
           (Demo.ge_configured None, Demo.world_ge)).
  intros snm_f [= <-] ns1 ns2 tbl Hagree.
  change (Demo.dmatrix_column "art - 1" ns1 tbl = Demo.dmatrix_column "art - 1" ns2 tbl).
  unfold Demo.dmatrix_column. simpl String.substring. cbv zeta.
  destruct (get_col "art" tbl); [reflexivity |].
  rewrite (Hagree "art"); [reflexivity |].
  intros Hin. apply list_elem_of_In in Hin. simpl in Hin.
  destruct Hin as [[=] | [[=] | []]].
Defined.

(** C10 as stated: the structural nested model names [alpha_value], the
    table has no such column, and patsy takes the list bound to the
    parameter of [fit].  The design matrix is that list, and [psi] follows
    it: 1 for [[1, 0, 0, 0]], -1 for [[-1, 0, 0, 0]], from the same
    instance and the same store. *)
Lemma fit_closed_reads_alpha_value :
  GEstimationSNM.psi
    (GEstimationSNM.fit Demo.ext "closed" None (GEstimationSNM.AlphaSeq [1; 0; 0; 0]%Z)
       (Demo.ge_alpha, Demo.world_ge)).2.1 = Some [Some 1%Z]
  ∧ GEstimationSNM.psi
      (GEstimationSNM.fit Demo.ext "closed" None (GEstimationSNM.AlphaSeq [-1; 0; 0; 0]%Z)
         (Demo.ge_alpha, Demo.world_ge)).2.1 = Some [Some (-1)%Z]
  ∧ GEstimationSNM.psi
      (GEstimationSNM.fit Demo.ext "closed" None (GEstimationSNM.AlphaSeq [1; 0; 0; 0]%Z)
         (Demo.ge_alpha, Demo.world_ge)).2.1
    ≠ GEstimationSNM.psi
        (GEstimationSNM.fit Demo.ext "closed" None (GEstimationSNM.AlphaSeq [-1; 0; 0; 0]%Z)
           (Demo.ge_alpha, Demo.world_ge)).2.1.
Proof.
  split; [vm_compute; reflexivity |].
  split; [vm_compute; reflexivity | vm_compute; discriminate].
Qed.

(** ** Calling [fit] too early, or with a plan that does not fit the exposure *)

Section ConfigurationErrors.
Context {R : Type} `{Numeric R} {model : Type}.
Variable ext : Collaborators R model.

Lemma copy_run {I : Type} (l : ref) (s : I * world R) (tbl : DataFrame R) :
  heap s.2 !! l = Some tbl →
  TimeFixedGFormula.copy l s
  = (Ok (length (heap s.2)),
     (s.1, {| heap := heap s.2 ++ [tbl]; warnings := warnings s.2; stdout := stdout s.2 |})).
Proof.
  intros Hl. unfold TimeFixedGFormula.copy. rewrite bind_unfold.
  unfold load. rewrite Hl. reflexivity.
Qed.

(** [fit] past its two checks: the working copy is the newest object. *)
Lemma fit_run (self : TimeFixedGFormula.t) (w : world R)
    (treatment : TimeFixedGFormula.treatment_arg) (tbl : DataFrame R) :
  TimeFixedGFormula.model_fit self = true →
  treatment ≠ TimeFixedGFormula.TOther →
  heap w !! TimeFixedGFormula.gf self = Some tbl →
  TimeFixedGFormula.fit ext treatment (self, w)
  = (_ ← TimeFixedGFormula.set_treatment ext (length (heap w)) treatment;
     TimeFixedGFormula.predict_outcomes ext (length (heap w)))
      (self, {| heap := heap w ++ [tbl]; warnings := warnings w; stdout := stdout w |}).
Proof.
  intros Hfit Hne Hgf. unfold TimeFixedGFormula.fit.
  rewrite bind_unfold. cbn [get_self fst snd]. rewrite Hfit. cbn [negb].
  destruct treatment; try congruence;
    rewrite bind_unfold, (copy_run _ _ tbl) by exact Hgf; reflexivity.
Qed.

Lemma fit_not_model_fit (self : TimeFixedGFormula.t) (w : world R)
    (treatment : TimeFixedGFormula.treatment_arg) :
  TimeFixedGFormula.model_fit self = false →
  TimeFixedGFormula.fit ext treatment (self, w)
  = (Err (ValueError "Before the g-formula can be calculated, the outcome model must be specified"),
     (self, w)).
Proof.
  intros Hfit. unfold TimeFixedGFormula.fit.
  rewrite bind_unfold. cbn [get_self fst snd]. rewrite Hfit. reflexivity.
Qed.

(** C7. With a list of exposure indicators, the plans ['all'] and ['none']
    and every list of predicates whose length is not that of the exposure
    list end [fit] in a [ValueError], the configuration error. *)
Theorem fit_multivariate_rejects (self : TimeFixedGFormula.t) (w : world R)
    (es : list string) (treatment : TimeFixedGFormula.treatment_arg) (tbl : DataFrame R) :
  TimeFixedGFormula.exposure self = TimeFixedGFormula.Multi es →
  heap w !! TimeFixedGFormula.gf self = Some tbl →
  treatment = TimeFixedGFormula.TStr "all"
  ∨ treatment = TimeFixedGFormula.TStr "none"
  ∨ (∃ ps, treatment = TimeFixedGFormula.TList ps ∧ length ps ≠ length es) →
  ∃ msg, (TimeFixedGFormula.fit ext treatment (self, w)).1 = Err (ValueError msg)
         ∧ is_configuration_error (ValueError msg) = true.
Proof.
  intros Hexp Hgf Hplan.
  destruct (TimeFixedGFormula.model_fit self) eqn:Hfit;
    [| rewrite fit_not_model_fit by exact Hfit; eexists; split; reflexivity].
  assert (Hne : treatment ≠ TimeFixedGFormula.TOther)
    by (destruct Hplan as [-> | [-> | [ps [-> _]]]]; discriminate).
  rewrite (fit_run _ _ _ tbl) by assumption.
  rewrite bind_unfold. unfold TimeFixedGFormula.set_treatment at 1.
  rewrite bind_unfold. cbn [get_self fst snd]. rewrite Hexp.
  destruct Hplan as [-> | [-> | [ps [-> Hlen]]]].
  - eexists; split; reflexivity.
  - eexists; split; reflexivity.
  - cbn [TimeFixedGFormula.treatment_is orb TimeFixedGFormula.treatment_len].
    assert (Hb : (length es =? length ps)%nat = false) by (apply Nat.eqb_neq; congruence).
    rewrite Hb. eexists; split; reflexivity.
Qed.

(** [fit(solver='closed')] without a structural nested model stops at the
    first statement, [self._snm_ + ' - 1']. *)
Lemma fit_closed_without_snm (ge : GEstimationSNM.t) (w : world R)
    (sv : option (list R)) (av : GEstimationSNM.alpha_arg) :
  GEstimationSNM._snm_ ge = None →
  GEstimationSNM.fit ext "closed" sv av (ge, w)
  = (Err (TypeError "unsupported operand type(s) for +: 'NoneType' and 'str'"), (ge, w)).
Proof.
  intros Hsnm. unfold GEstimationSNM.fit. cbn [String.eqb Ascii.eqb Bool.eqb andb].
  rewrite bind_unfold. cbn [get_self fst snd]. rewrite Hsnm. reflexivity.
Qed.

(** Without a treatment model the call never gets past building the model
    string [self.treatment + ' ~ ' + self._treatment_model]. *)
Lemma fit_closed_without_treatment_model (ge : GEstimationSNM.t) (w : world R)
    (sv : option (list R)) (av : GEstimationSNM.alpha_arg) :
  GEstimationSNM._treatment_model ge = None →
  ∃ e s', GEstimationSNM.fit ext "closed" sv av (ge, w) = (Err e, s')
          ∧ GEstimationSNM.psi s'.1 = GEstimationSNM.psi ge.
Proof.
  intros Htm. unfold GEstimationSNM.fit. cbn [String.eqb Ascii.eqb Bool.eqb andb].
  mrun; try (rewrite Htm in *; discriminate); eauto.
Qed.

(** With a structural nested model and no treatment model, the statements
    up to the model string run as usual; when they succeed, the string is
    where the call stops. *)
Lemma fit_closed_stops_at_treatment_model (ge : GEstimationSNM.t) (w : world R)
    (sv : option (list R)) (av : GEstimationSNM.alpha_arg) (snm_f : string)
    (tbl snm dropped y_vals : DataFrame R) :
  GEstimationSNM._snm_ ge = Some snm_f →
  GEstimationSNM._treatment_model ge = None →
  heap w !! GEstimationSNM.df ge = Some tbl →
  dmatrix ext (snm_f +:+ " - 1") (GEstimationSNM.fit_locals ge tbl "closed" sv av) tbl
    = Ok snm →
  drop_col (GEstimationSNM.treatment ge) tbl = Ok dropped →
  dmatrix ext (snm_f +:+ " - 1")
    (GEstimationSNM.fit_locals_outcome ge tbl "closed" sv av snm
       (rename_col (GEstimationSNM.outcome ge) (GEstimationSNM.treatment ge) dropped))
    (rename_col (GEstimationSNM.outcome ge) (GEstimationSNM.treatment ge) dropped)
    = Ok y_vals →
  GEstimationSNM.fit ext "closed" sv av (ge, w)
  = (Err (TypeError "can only concatenate str (not 'NoneType') to str"),
     (GEstimationSNM.with_psi_labels (column_names snm) ge,
      {| heap := (heap w ++ [dropped])
                 ++ [rename_col (GEstimationSNM.outcome ge) (GEstimationSNM.treatment ge)
                       dropped];
         warnings := warnings w; stdout := stdout w |})).
Proof.
  intros Hsnm Htm Hdf Hdm Hdrop Hdy.
  unfold GEstimationSNM.fit. cbn [String.eqb Ascii.eqb Bool.eqb andb].
  rewrite bind_unfold. cbn [get_self fst snd]. rewrite Hsnm.
  cbn [GEstimationSNM.concat_attr_l]. rewrite bind_unfold, lift_run, bind_unfold.
  unfold load at 1. cbn [fst snd]. rewrite Hdf.
  rewrite bind_unfold, lift_run, Hdm.
  rewrite bind_unfold. cbn [set_self fst snd]. rewrite bind_unfold, lift_run, Hdrop.
  rewrite bind_unfold. cbn [alloc fst snd heap warnings stdout].
  rewrite bind_unfold. cbn [alloc fst snd heap warnings stdout].
  rewrite bind_unfold, lift_run, bind_unfold.
  unfold load at 1. cbn [fst snd heap].
  rewrite (list_lookup_middle (heap w ++ [dropped]) [] _ _ eq_refl).
  rewrite bind_unfold, lift_run, Hdy.
  rewrite bind_unfold, lift_run, Htm. reflexivity.
Qed.

(** C4, as the code has it.  [TimeFixedGFormula.fit] checks that
    [outcome_model] has run and raises the configuration error when it has
    not.  [GEstimationSNM.fit] has no such check.  With [solver='closed']
    it fails when the structural nested model or the treatment model is
    missing, and leaves [psi] as it was.  Without a structural nested model
    the failure is the [TypeError] of adding [None] to a string, raised at
    once.  With one and without a treatment model, it is the [TypeError]
    of the model string when the statements before it succeed: the two
    design matrices and the drop of the exposure column. *)
Theorem fit_before_model_specification
    (tf : TimeFixedGFormula.t) (treatment : TimeFixedGFormula.treatment_arg) (w : world R)
    (ge : GEstimationSNM.t) (sv : option (list R)) (av : GEstimationSNM.alpha_arg)
    (w' : world R) :
  TimeFixedGFormula.model_fit tf = false →
  GEstimationSNM._snm_ ge = None ∨ GEstimationSNM._treatment_model ge = None →
  (∃ msg, TimeFixedGFormula.fit ext treatment (tf, w) = (Err (ValueError msg), (tf, w)))
  ∧ (∃ e, (GEstimationSNM.fit ext "closed" sv av (ge, w')).1 = Err e)
  ∧ GEstimationSNM.psi (GEstimationSNM.fit ext "closed" sv av (ge, w')).2.1
    = GEstimationSNM.psi ge
  ∧ (GEstimationSNM._snm_ ge = None →
     ∃ msg, GEstimationSNM.fit ext "closed" sv av (ge, w') = (Err (TypeError msg), (ge, w')))
  ∧ (∀ snm_f tbl snm dropped y_vals,
       GEstimationSNM._snm_ ge = Some snm_f →
       heap w' !! GEstimationSNM.df ge = Some tbl →
       dmatrix ext (snm_f +:+ " - 1") (GEstimationSNM.fit_locals ge tbl "closed" sv av) tbl
         = Ok snm →
       drop_col (GEstimationSNM.treatment ge) tbl = Ok dropped →
       dmatrix ext (snm_f +:+ " - 1")
         (GEstimationSNM.fit_locals_outcome ge tbl "closed" sv av snm
            (rename_col (GEstimationSNM.outcome ge) (GEstimationSNM.treatment ge) dropped))
         (rename_col (GEstimationSNM.outcome ge) (GEstimationSNM.treatment ge) dropped)
         = Ok y_vals →
       ∃ msg w'',
         GEstimationSNM.fit ext "closed" sv av (ge, w')
         = (Err (TypeError msg),
            (GEstimationSNM.with_psi_labels (column_names snm) ge, w''))).
Proof.
  intros Hfit Hcfg. split; [| split; [| split; [| split]]].
  - eexists. apply fit_not_model_fit. exact Hfit.
  - destruct Hcfg as [Hsnm | Htm].
    + rewrite fit_closed_without_snm by exact Hsnm. eexists; reflexivity.
    + destruct (fit_closed_without_treatment_model ge w' sv av Htm) as (e & s' & -> & _).
      eexists; reflexivity.
  - destruct Hcfg as [Hsnm | Htm].
    + rewrite fit_closed_without_snm by exact Hsnm. reflexivity.
    + destruct (fit_closed_without_treatment_model ge w' sv av Htm) as (e & s' & -> & Hpsi).
      exact Hpsi.
  - intros Hsnm. eexists. apply fit_closed_without_snm. exact Hsnm.
  - intros snm_f tbl snm dropped y_vals Hsnm Hdf Hdm Hdrop Hdy.
    destruct Hcfg as [Hnone | Htm]; [congruence |].
    rewrite (fit_closed_stops_at_treatment_model ge w' sv av snm_f tbl snm dropped y_vals)
      by assumption.
    eauto.
Qed.

End ConfigurationErrors.

Lemma fit_multivariate_rejects_witness :
  ∃ msg,
    (TimeFixedGFormula.fit Demo.ext (TimeFixedGFormula.TList ["male"])
       (Demo.tf_fitted (TimeFixedGFormula.Multi ["art"; "male"]) None, Demo.world1)).1
    = Err (ValueError msg)
    ∧ is_configuration_error (ValueError msg) = true.
Proof.
  apply (fit_multivariate_rejects Demo.ext
           (Demo.tf_fitted (TimeFixedGFormula.Multi ["art"; "male"]) None) Demo.world1
           ["art"; "male"] (TimeFixedGFormula.TList ["male"]) Demo.table).
  - reflexivity.
  - reflexivity.
  - right. right. exists ["male"]. split; [reflexivity | simpl; lia].
Defined.

Lemma fit_before_model_specification_witness :
  (∃ msg, TimeFixedGFormula.fit Demo.ext (TimeFixedGFormula.TStr "all")
            (Demo.tf_new (TimeFixedGFormula.Scalar "art") None, Demo.world1)
          = (Err (ValueError msg), (Demo.tf_new (TimeFixedGFormula.Scalar "art") None, Demo.world1)))
  ∧ (∃ e, (GEstimationSNM.fit Demo.ext "closed" None (GEstimationSNM.AlphaScalar 0%Z)
             (Demo.ge_new None, Demo.world_ge)).1 = Err e)
  ∧ (∃ msg, GEstimationSNM.fit Demo.ext "closed" None (GEstimationSNM.AlphaScalar 0%Z)
              (Demo.ge_new None, Demo.world_ge)
            = (Err (TypeError msg), (Demo.ge_new None, Demo.world_ge)))
  ∧ (∃ msg w'',
       GEstimationSNM.fit Demo.ext "closed" None (GEstimationSNM.AlphaScalar 0%Z)
         (GEstimationSNM.with_snm "art" (Demo.ge_new None), Demo.world_ge)
       = (Err (TypeError msg),
          (GEstimationSNM.with_psi_labels ["art"]
             (GEstimationSNM.with_snm "art" (Demo.ge_new None)), w''))).
Proof.
  pose proof (fit_before_model_specification Demo.ext
                (Demo.tf_new (TimeFixedGFormula.Scalar "art") None)
                (TimeFixedGFormula.TStr "all") Demo.world1
                (Demo.ge_new None) None (GEstimationSNM.AlphaScalar 0%Z) Demo.world_ge
                eq_refl (or_introl eq_refl)) as (Htf & Hge & _ & Hsnm & _).
  pose proof (fit_before_model_specification Demo.ext
                (Demo.tf_new (TimeFixedGFormula.Scalar "art") None)
                (TimeFixedGFormula.TStr "all") Demo.world1
                (GEstimationSNM.with_snm "art" (Demo.ge_new None)) None
                (GEstimationSNM.AlphaScalar 0%Z) Demo.world_ge
                eq_refl (or_intror eq_refl)) as (_ & _ & _ & _ & Htm).
  split; [exact Htf |]. split; [exact Hge |]. split; [exact (Hsnm eq_refl) |].
  exact (Htm "art" Demo.table_reset
           {| index := [0; 1; 2; 3]; columns := [("art", Demo.nums [1; 0; 1; 0]%Z)] |}
           {| index := [0; 1; 2; 3];
              columns := [("index", Demo.nums [0; 1; 2; 3]%Z);
                          ("dead", Demo.nums [0; 1; 1; 0]%Z);
                          ("male", Demo.nums [1; 1; 0; 0]%Z);
                          ("w", Demo.nums [1; 2; 1; 2]%Z)] |}
           {| index := [0; 1; 2; 3]; columns := [("art", Demo.nums [0; 1; 1; 0]%Z)] |}
           eq_refl eq_refl eq_refl eq_refl eq_refl).
Defined.

(** C4 as stated: a [GEstimationSNM] on which no model was specified does
    fail in [fit], but not with a configuration error. *)
Lemma fit_unconfigured_snm_is_type_error :
  (GEstimationSNM.__init__ 0 "art" "dead" None ((), Demo.world0)).1 = Ok (Demo.ge_new None)
  ∧ (GEstimationSNM.__init__ (R := Z) 0 "art" "dead" None ((), Demo.world0)).2.2 = Demo.world_ge
  ∧ ∃ e, (GEstimationSNM.fit Demo.ext "closed" None (GEstimationSNM.AlphaScalar 0%Z)
            (Demo.ge_new None, Demo.world_ge)).1 = Err e
         ∧ is_configuration_error e = false.
Proof.
  split; [reflexivity | split; [reflexivity |]].
  eexists. split; reflexivity.
Qed.

(** ** [GEstimationSNM.__init__]: the exposure has to be coded 0/1 *)

Section BinaryExposure.
Context {R : Type} `{Numeric R}.
Hypothesis reqb_eq : ∀ x y : R, reqb x y = true ↔ x = y.

Lemma distinct_values_elem (x : R) (xs : list (cell R)) :
  Some x ∈ xs → x ∈ distinct_values xs.
Proof.
  induction xs as [| [a |] rest IH]; intros Hin.
  - inversion Hin.
  - cbn [distinct_values].
    destruct (reqb a x) eqn:Hax.
    + apply reqb_eq in Hax. subst a. left.
    + right. apply list_elem_of_filter. split.
      * rewrite Hax. done.
      * apply IH. apply elem_of_cons in Hin as [Heq | Hin]; [| exact Hin].
        injection Heq as Heq. subst a.
        assert (reqb x x = true) by (apply reqb_eq; reflexivity). congruence.
  - cbn [distinct_values]. apply IH.
    apply elem_of_cons in Hin as [Heq | Hin]; [discriminate | exact Hin].
Qed.

Lemma lookup_col_cons_ne (n c : string) (v : list (cell R)) cols :
  n ≠ c → lookup_col c ((n, v) :: cols) = lookup_col c cols.
Proof. intros Hne. cbn. apply String.eqb_neq in Hne. rewrite Hne. reflexivity. Qed.

(** The column that [reset_index] adds has a name that was free, so it
    hides no column of the table. *)
Lemma get_col_reset_index (c : string) (tbl tbl' : DataFrame R) (v : list (cell R)) :
  reset_index tbl = Ok tbl' → get_col c tbl = Some v → get_col c tbl' = Some v.
Proof.
  unfold reset_index. cbv zeta. intros Hreset Hc.
  destruct (has_col (index_column_name tbl) tbl) eqn:Hfree;
    [discriminate |].
  inversion Hreset; subst; clear Hreset.
  unfold get_col. cbn [columns]. rewrite lookup_col_cons_ne; [exact Hc |].
  intros Heq. rewrite Heq in Hfree. unfold has_col in Hfree.
  rewrite Hc in Hfree. discriminate.
Qed.

Lemma reset_index_error (tbl : DataFrame R) (e : exn) :
  reset_index tbl = Err e → ∃ msg, e = ValueError msg.
Proof.
  unfold reset_index. cbv zeta.
  destruct (has_col (index_column_name tbl) tbl);
    intros [= <-]; eauto.
Qed.

(** C6, as the code has it.  The constructor tests that every distinct
    value of the exposure column, once the rows with a missing value are
    dropped, is 0 or 1: a column holding any other value ends the
    construction in a [ValueError], the configuration error. *)
Theorem init_rejects_non_binary_exposure (w : world R) (df : ref) (tbl : DataFrame R)
    (exposure outcome : string) (weights : option string) (a : list (cell R)) (x : R) :
  heap w !! df = Some tbl →
  get_col exposure (dropna tbl) = Some a →
  Some x ∈ a →
  isin_0_1 x = false →
  ∃ msg, (GEstimationSNM.__init__ df exposure outcome weights ((), w)).1 = Err (ValueError msg)
         ∧ is_configuration_error (ValueError msg) = true.
Proof.
  intros Hdf Hcol Hin Hbad.
  assert (Hall : forallb isin_0_1 (distinct_values a) = false).
  { apply not_true_is_false. intros Hall.
    rewrite forallb_forall in Hall.
    specialize (Hall x). rewrite Hall in Hbad; [discriminate |].
    apply list_elem_of_In, distinct_values_elem, Hin. }
  unfold GEstimationSNM.__init__.
  rewrite bind_unfold. unfold load. cbn [fst snd]. rewrite Hdf.
  rewrite bind_unfold.
  destruct (negb (nrows (dropna tbl) =? nrows tbl)%nat); cbn [warn mret M_ret fst snd].
  all: mrun.
  all: try (apply reset_index_error in Hres as [msg ->]; eexists; split; reflexivity).
  all: rewrite (get_col_reset_index _ _ _ _ Hres Hcol) in Hget; try discriminate.
  all: injection Hget as <-; rewrite Hall; eexists; split; reflexivity.
Qed.

End BinaryExposure.

Lemma init_rejects_non_binary_exposure_witness :
  ∃ msg, (GEstimationSNM.__init__ 0 "art" "dead" None
            ((), Demo.world_of Demo.table_dose)).1 = Err (ValueError msg)
         ∧ is_configuration_error (ValueError msg) = true.
Proof.
  apply (init_rejects_non_binary_exposure (H := Demo.Z_numeric) Z.eqb_eq
           (Demo.world_of Demo.table_dose) 0 Demo.table_dose
           "art" "dead" None (Demo.nums [1; 2; 0]%Z) 2%Z).
  - reflexivity.
  - reflexivity.
  - vm_compute. right. left.
  - reflexivity.
Defined.

(** C6 as stated: a column whose distinct values are just {1} is not the
    set {0, 1}, and the construction goes through. *)
Lemma init_accepts_constant_exposure :
  get_col "art" (dropna Demo.table_all_treated) = Some (Demo.nums [1; 1; 1; 1]%Z)
  ∧ distinct_values (Demo.nums [1; 1; 1; 1]%Z) = [1%Z]
  ∧ ∃ ge s, GEstimationSNM.__init__ 0 "art" "dead" None
              ((), Demo.world_of Demo.table_all_treated) = (Ok ge, s).
Proof.
  split; [reflexivity | split; [reflexivity |]].
  eexists. eexists. reflexivity.
Qed.

(** ** [TimeFixedGFormula.fit]: overlapping indicators *)

(** C8, on an input that shows the defect.  The plans [male] and [young]
    put subject 0, and nobody else, on both drugs.  [fit] runs to its end
    and issues no warning: the test counts the rows with more than one
    indicator at 1 and warns when that count is greater than 1, so a single
    such row goes unnoticed. *)
Theorem fit_single_overlap_no_warning :
  ∃ self' w' wt,
    TimeFixedGFormula.fit Demo.ext (TimeFixedGFormula.TList ["male"; "young"])
      (Demo.tf_two_drugs, Demo.world_two_drugs) = (Ok (), (self', w'))
    ∧ warnings w' = []
    ∧ TimeFixedGFormula.predicted_df self' = Some 2
    ∧ heap w' !! 2 = Some wt
    ∧ get_col "drug_a" wt = Some (Demo.nums [1; 1; 0; 0]%Z)
    ∧ get_col "drug_b" wt = Some (Demo.nums [1; 0; 0; 0]%Z)
    ∧ TimeFixedGFormula.count_overlaps ["drug_a"; "drug_b"] wt = Ok 1.
Proof.
  do 3 eexists. repeat split; vm_compute; reflexivity.
Qed.

(** With two subjects on both drugs the warning is there, and [fit] still
    runs to its end. *)
Example fit_double_overlap_warns :
  ∃ self' w',
    TimeFixedGFormula.fit Demo.ext (TimeFixedGFormula.TList ["male"; "old"])
      (Demo.tf_two_drugs, Demo.world_two_drugs) = (Ok (), (self', w'))
    ∧ warnings w' = [TimeFixedGFormula.overlap_warning].
Proof.
  do 2 eexists. split; vm_compute; reflexivity.
Qed.

(** ** Columns of a frame, objects of the store *)

Section FrameFacts.
Context {R : Type} `{Numeric R}.

Lemma lookup_assign_eq (c : string) (v : list (cell R)) cols :
  lookup_col c (assign_col c v cols) = Some v.
Proof.
  induction cols as [| [n old] rest IH]; cbn.
  - rewrite String.eqb_refl. reflexivity.
  - destruct (String.eqb n c) eqn:Hn; cbn; rewrite Hn; [reflexivity | exact IH].
Qed.

Lemma lookup_assign_ne (c c' : string) (v : list (cell R)) cols :
  c ≠ c' → lookup_col c' (assign_col c v cols) = lookup_col c' cols.
Proof.
  intros Hne. induction cols as [| [n old] rest IH]; cbn.
  - apply String.eqb_neq in Hne. rewrite Hne. reflexivity.
  - destruct (String.eqb n c) eqn:Hn; cbn.
    + apply String.eqb_eq in Hn as ->.
      apply String.eqb_neq in Hne. rewrite Hne. reflexivity.
    + rewrite IH. reflexivity.
Qed.

Lemma get_col_set_col_eq (c : string) (v : list (cell R)) (tbl : DataFrame R) :
  get_col c (set_col c v tbl) = Some v.
Proof. apply lookup_assign_eq. Qed.

Lemma get_col_set_col_ne (c c' : string) (v : list (cell R)) (tbl : DataFrame R) :
  c ≠ c' → get_col c' (set_col c v tbl) = get_col c' tbl.
Proof. apply lookup_assign_ne. Qed.

Lemma nrows_set_col (c : string) (v : list (cell R)) (tbl : DataFrame R) :
  nrows (set_col c v tbl) = nrows tbl.
Proof. reflexivity. Qed.

Lemma set_col_array_Ok (c : string) (v : list (cell R)) (tbl tbl' : DataFrame R) :
  set_col_array c v tbl = Ok tbl' → tbl' = set_col c v tbl ∧ length v = nrows tbl.
Proof.
  unfold set_col_array. destruct (length v =? nrows tbl)%nat eqn:Hlen; [| discriminate].
  intros [= <-]. split; [reflexivity | apply Nat.eqb_eq; exact Hlen].
Qed.

Lemma lookup_insert_same {A : Type} (h : list A) (l : nat) (x y : A) :
  <[l := x]> h !! l = Some y → y = x.
Proof.
  intros Hl. apply list_lookup_insert_Some in Hl as [(_ & -> & _) | (Hne & _)];
    [reflexivity | congruence].
Qed.

Lemma lookup_alloc {A : Type} (h : list A) (x : A) : (h ++ [x])%list !! length h = Some x.
Proof. apply list_lookup_middle. reflexivity. Qed.

Lemma lookup_alloc_old {A : Type} (h : list A) (x y : A) (l : nat) :
  h !! l = Some y → (h ++ [x])%list !! l = Some y.
Proof. intros Hl. apply lookup_app_l_Some. exact Hl. Qed.

End FrameFacts.

(** ** Sums, means and casts of cells *)

Section CellArithmetic.
Context {R : Type} `{Numeric R}.

Lemma align_with_present (f : R → R → R) (xs ys : list R) :
  length xs = length ys →
  align_with f (map Some xs) (map Some ys) = map Some (zip_with f xs ys).
Proof.
  revert ys. induction xs as [| x xs IH]; intros [| y ys] Hlen; try discriminate.
  - reflexivity.
  - cbn. rewrite IH by (cbn in Hlen; lia). reflexivity.
Qed.

Lemma zip_with_cell_op_present (f : R → R → R) (xs ys : list R) :
  zip_with (cell_op f) (map Some xs) (map Some ys) = map Some (zip_with f xs ys).
Proof.
  revert ys. induction xs as [| x xs IH]; intros [| y ys]; cbn; try reflexivity.
  rewrite IH. reflexivity.
Qed.

Lemma np_sum_present (xs : list R) : np_sum (map Some xs) = Some (foldr radd r0 xs).
Proof.
  induction xs as [| x xs IH]; cbn; [reflexivity |].
  unfold np_sum in IH. rewrite IH. reflexivity.
Qed.

Lemma sum_skipna_present (xs : list R) : sum_skipna (map Some xs) = foldr radd r0 xs.
Proof.
  induction xs as [| x xs IH]; cbn; [reflexivity |].
  unfold sum_skipna in IH. rewrite IH. reflexivity.
Qed.

(** With no missing prediction, [np.mean] is the sum over the count. *)
Lemma np_mean_present (x : R) (xs : list R) :
  np_mean (map Some (x :: xs))
  = Some (rdiv (foldr radd r0 (x :: xs)) (rnat (length (x :: xs)))).
Proof.
  unfold np_mean.
  assert (Hid : ∀ l : list R, omap id (map Some l) = l).
  { induction l as [| y l IH]; cbn; [reflexivity | rewrite IH; reflexivity]. }
  rewrite Hid. reflexivity.
Qed.

(** With no missing value and weights that do not sum to zero,
    [np.average] is the weighted sum over the sum of the weights. *)
Lemma np_average_present (xs ws : list R) :
  length xs = length ws →
  reqb (foldr radd r0 ws) r0 = false →
  np_average (map Some xs) (map Some ws)
  = Ok (Some (rdiv (foldr radd r0 (zip_with rmul xs ws)) (foldr radd r0 ws))).
Proof.
  intros Hlen Hsum. unfold np_average.
  rewrite !length_map, Hlen, Nat.eqb_refl. cbn [negb].
  rewrite np_sum_present, Hsum, zip_with_cell_op_present, np_sum_present.
  reflexivity.
Qed.

(** A missing cell makes the sum of an array missing. *)
Lemma np_sum_missing (xs : list (cell R)) : None ∈ xs → np_sum xs = None.
Proof.
  induction xs as [| x xs IH]; intros Hin; [inversion Hin |].
  unfold np_sum in *. cbn [foldr].
  apply elem_of_cons in Hin as [<- | Hin]; [reflexivity |].
  rewrite IH by exact Hin. destruct x; reflexivity.
Qed.

Lemma zip_with_cell_op_missing (f : R → R → R) (xs ys : list (cell R)) :
  length xs = length ys →
  None ∈ xs ∨ None ∈ ys →
  None ∈ zip_with (cell_op f) xs ys.
Proof.
  revert ys. induction xs as [| x xs IH]; intros [| y ys] Hlen Hin; try discriminate.
  - destruct Hin as [Hin | Hin]; inversion Hin.
  - cbn [zip_with]. cbn in Hlen.
    destruct x as [a |]; [| left].
    destruct y as [b |]; [| left].
    right. apply IH; [lia |].
    destruct Hin as [Hin | Hin]; apply elem_of_cons in Hin as [[=] | Hin]; eauto.
Qed.

(** [np.mean], written out: the sum of the values that are present over
    their number, and NaN when there is none. *)
Lemma np_mean_unfold (xs : list (cell R)) :
  np_mean xs = match omap id xs with
               | [] => NaN
               | p :: ps => Some (rdiv (foldr radd r0 (p :: ps)) (rnat (length (p :: ps))))
               end.
Proof. unfold np_mean. destruct (omap id xs); reflexivity. Qed.

(** What [np.average] returned, when it returned. *)
Lemma np_average_Ok (xs ws : list (cell R)) (mo : cell R) :
  np_average xs ws = Ok mo →
  length xs = length ws
  ∧ (∀ ps wts, xs = map Some ps → ws = map Some wts →
       reqb (foldr radd r0 wts) r0 = false
       ∧ mo = Some (rdiv (foldr radd r0 (zip_with rmul ps wts)) (foldr radd r0 wts)))
  ∧ (None ∈ xs ∨ None ∈ ws → mo = NaN).
Proof.
  unfold np_average.
  destruct (length xs =? length ws)%nat eqn:Hlen; cbn [negb]; [| discriminate].
  apply Nat.eqb_eq in Hlen.
  destruct (np_sum ws) as [s |] eqn:Hs.
  - destruct (reqb s r0) eqn:Hzero; [discriminate |]. intros [= <-].
    split; [exact Hlen |]. split.
    + intros ps wts -> ->. rewrite np_sum_present in Hs. injection Hs as <-.
      rewrite zip_with_cell_op_present, np_sum_present. split; [exact Hzero | reflexivity].
    + intros Hin.
      assert (Hxs : None ∈ zip_with (cell_op rmul) xs ws)
        by (apply zip_with_cell_op_missing; assumption).
      rewrite (np_sum_missing _ Hxs). reflexivity.
  - intros [= <-]. split; [exact Hlen |]. split; [| reflexivity].
    intros ps wts _ ->. rewrite np_sum_present in Hs. discriminate.
Qed.

(** [np.where(cond, 1, 0)], written out. *)
Lemma np_where_1_0_unfold (cond : list bool) :
  np_where_1_0 cond = map (λ b : bool, Some (if b then r1 else r0)) cond.
Proof. unfold np_where_1_0. apply map_ext. intros []; reflexivity. Qed.

End CellArithmetic.

(** ** [TimeFixedGFormula.fit]: the treatment plan and the marginal outcome *)

Section TimeFixedFit.
Context {R : Type} `{Numeric R} {model : Type}.
Variable ext : Collaborators R model.

Import TimeFixedGFormula.

(** The treatment block on a binary exposure: the working table gets a new
    exposure column, and nothing else changes. *)
Lemma set_treatment_scalar (self : t) (w : world R) (g : ref) (e plan : string)
    (tbl : DataFrame R) (s1 : t * world R) :
  exposure self = Scalar e →
  heap w !! g = Some tbl →
  set_treatment ext g (TStr plan) (self, w) = (Ok (), s1) →
  ∃ col,
    length col = nrows tbl
    ∧ s1 = (self, {| heap := <[g := set_col e col tbl]> (heap w);
                     warnings := warnings w; stdout := stdout w |})
    ∧ (plan = "all" → col = replicate (nrows tbl) (Some r1))
    ∧ (plan = "none" → col = replicate (nrows tbl) (Some r0))
    ∧ (plan ≠ "all" → plan ≠ "none" →
       ∃ cond, py_eval ext plan tbl = Ok cond ∧ col = np_where_1_0 cond).
Proof.
  intros Hexp Hg. unfold set_treatment. rewrite bind_unfold. cbn [get_self fst snd].
  rewrite Hexp. cbn [is_list treatment_is].
  destruct (String.eqb plan "all") eqn:Hall; [| destruct (String.eqb plan "none") eqn:Hnone].
  - apply String.eqb_eq in Hall as ->.
    mrun; intros [= <-]; try congruence.
    assert (tbl0 = tbl) as -> by congruence.
    exists (replicate (nrows tbl) (Some r1)). rewrite length_replicate.
    repeat split; try reflexivity; try discriminate. congruence.
  - apply String.eqb_eq in Hnone as ->.
    mrun; intros [= <-]; try congruence.
    assert (tbl0 = tbl) as -> by congruence.
    exists (replicate (nrows tbl) (Some r0)). rewrite length_replicate.
    repeat split; try reflexivity; try discriminate. congruence.
  - apply String.eqb_neq in Hall, Hnone.
    unfold assign_where. mrun; intros [= <-]; try congruence.
    assert (tbl0 = tbl) as -> by congruence.
    apply set_col_array_Ok in Hres0 as [-> Hlen].
    exists (np_where_1_0 a). repeat split; try congruence. eauto.
Qed.

(** The prediction block: the outcome column is blanked, the fitted model
    predicts on that table, the predictions become the outcome column, and
    their mean is stored. *)
Lemma predict_outcomes_Ok (self self' : t) (w w' : world R) (g : ref) (tbl : DataFrame R) :
  heap w !! g = Some tbl →
  g ≠ gf self →
  predict_outcomes ext g (self, w) = (Ok (), (self', w')) →
  ∃ m preds mo,
    outcome_model_result self = Some m
    ∧ predict ext m (set_col_scalar (outcome self) NaN tbl) = Ok preds
    ∧ length preds = nrows tbl
    ∧ w' = {| heap := <[g := set_col (outcome self) preds
                                 (set_col_scalar (outcome self) NaN tbl)]> (heap w);
              warnings := warnings w; stdout := stdout w |}
    ∧ self' = with_predicted_df g (with_marginal_outcome mo self)
    ∧ match _weights self with
      | None => mo = np_mean preds
      | Some c => ∃ stored ws, heap w !! gf self = Some stored
                               ∧ get_col c stored = Some ws
                               ∧ np_average preds ws = Ok mo
      end.
Proof.
  intros Hg Hne. unfold predict_outcomes.
  rewrite bind_unfold. cbn [get_self fst snd].
  rewrite bind_unfold. unfold load at 1. cbn [fst snd]. rewrite Hg.
  rewrite bind_unfold. unfold store at 1. cbn [fst snd]. rewrite Hg.
  destruct (outcome_model_result self) as [m |]; mrun; try (intros [= ]; fail).
  all: repeat match goal with
       | Hl : <[?l := _]> _ !! ?l = Some _ |- _ => apply lookup_insert_same in Hl; subst
       end.
  all: try (apply set_col_array_Ok in Hres0 as [-> Hlen]).
  all: rewrite ?get_col_set_col_eq in *.
  all: try discriminate.
  all: rewrite ?list_insert_insert_eq.
  all: destruct (_weights self) as [c |] eqn:Hw; mrun; try (intros [= ]; fail).
  all: intros [= <- <-].
  - injection Hget as <-.
    rewrite list_lookup_insert_ne in Hload by exact Hne.
    exists m, a, a0. repeat split; try reflexivity; try assumption.
    exists tbl0, v0. repeat split; assumption.
  - injection Hget as <-.
    exists m, a, (np_mean a). repeat split; try reflexivity; assumption.
Qed.

Lemma assign_where_Ok (self : t) (w : world R) (g : ref) (expr c : result string)
    (tbl : DataFrame R) (s1 : t * world R) :
  heap w !! g = Some tbl →
  assign_where ext g expr c (self, w) = (Ok (), s1) →
  ∃ tbl', s1 = (self, {| heap := <[g := tbl']> (heap w);
                         warnings := warnings w; stdout := stdout w |}).
Proof.
  intros Hg. unfold assign_where. mrun; intros [= <-]. eauto.
Qed.

Lemma assign_indicators_Ok (self : t) (g : ref) (es : list string)
    (treatment : treatment_arg) (range : list nat) :
  ∀ (w : world R) (tbl : DataFrame R) (s1 : t * world R),
    heap w !! g = Some tbl →
    assign_indicators ext g es treatment range (self, w) = (Ok (), s1) →
    ∃ tbl', s1 = (self, {| heap := <[g := tbl']> (heap w);
                           warnings := warnings w; stdout := stdout w |}).
Proof.
  induction range as [| i rest IH]; intros w tbl s1 Hg.
  - cbn. intros [= <-]. exists tbl. rewrite list_insert_id by exact Hg.
    destruct w; reflexivity.
  - cbn [assign_indicators]. intros Hrun.
    apply bind_Ok in Hrun as ([] & s0 & Hstep & Hrest).
    destruct (assign_where_Ok _ _ _ _ _ _ _ Hg Hstep) as [tbl1 ->].
    eapply IH in Hrest as [tbl2 ->].
    + cbn [heap warnings stdout]. rewrite list_insert_insert_eq. eauto.
    + cbn [heap]. apply list_lookup_insert_eq. eapply lookup_lt_Some; exact Hg.
Qed.

(** Whatever the plan, the treatment block leaves the instance alone and
    writes to the working table only; it may add a warning. *)
Lemma set_treatment_Ok (self : t) (w : world R) (g : ref) (treatment : treatment_arg)
    (tbl : DataFrame R) (s1 : t * world R) :
  heap w !! g = Some tbl →
  set_treatment ext g treatment (self, w) = (Ok (), s1) →
  ∃ tbl', s1.1 = self ∧ heap s1.2 = <[g := tbl']> (heap w).
Proof.
  intros Hg. unfold set_treatment. rewrite bind_unfold. cbn [get_self fst snd].
  destruct (exposure self) as [e | es].
  - destruct (is_list treatment); [intros [= ] |].
    destruct (treatment_is "all" treatment); [| destruct (treatment_is "none" treatment)].
    + mrun; intros [= <-]. eauto.
    + mrun; intros [= <-]. eauto.
    + intros Hrun. destruct (assign_where_Ok _ _ _ _ _ _ _ Hg Hrun) as [tbl' ->]. eauto.
  - destruct (treatment_is "all" treatment || treatment_is "none" treatment); [intros [= ] |].
    destruct (negb (length es =? treatment_len treatment)%nat); [intros [= ] |].
    intros Hrun. apply bind_Ok in Hrun as ([] & s0 & Hloop & Hrest).
    destruct (assign_indicators_Ok _ _ _ _ _ _ _ _ Hg Hloop) as [tbl' ->].
    revert Hrest. mrun; try (intros [= ]; fail).
    destruct (1 <? a)%nat; cbn [warn mret M_ret fst snd heap]; intros [= <-]; eauto.
Qed.

(** What a successful [fit] went through. *)
Lemma fit_Ok (self self' : t) (w w' : world R) (treatment : treatment_arg) :
  fit ext treatment (self, w) = (Ok (), (self', w')) →
  ∃ stored s1,
    model_fit self = true
    ∧ heap w !! gf self = Some stored
    ∧ set_treatment ext (length (heap w)) treatment
        (self, {| heap := heap w ++ [stored]; warnings := warnings w; stdout := stdout w |})
      = (Ok (), s1)
    ∧ predict_outcomes ext (length (heap w)) s1 = (Ok (), (self', w')).
Proof.
  intros Hrun.
  destruct (model_fit self) eqn:Hfit;
    [| rewrite fit_not_model_fit in Hrun by exact Hfit; discriminate].
  assert (Hne : treatment ≠ TOther).
  { intros ->. unfold fit in Hrun. rewrite bind_unfold in Hrun.
    cbn [get_self fst snd] in Hrun. rewrite Hfit in Hrun. discriminate. }
  destruct (heap w !! gf self) as [stored |] eqn:Hgf.
  - rewrite (fit_run _ _ _ _ stored) in Hrun by assumption.
    apply bind_Ok in Hrun as ([] & s1 & Hset & Hpred). eauto 10.
  - exfalso. unfold fit in Hrun. rewrite bind_unfold in Hrun.
    cbn [get_self fst snd] in Hrun. rewrite Hfit in Hrun. cbn [negb] in Hrun.
    unfold copy in Hrun.
    destruct treatment; try congruence; rewrite !bind_unfold in Hrun;
      unfold load in Hrun; cbn [fst snd] in Hrun; rewrite Hgf in Hrun; discriminate.
Qed.

(** C2. A successful [fit] on a binary exposure [e] has copied the stored
    table and replaced column [e] of the copy: by 1 in every row for ['all'],
    by 0 in every row for ['none'], and for any other string by the plan
    evaluated on the copy, one truth value per row, with 1 where it is true
    and 0 where it is false.  The predictions are made on that table
    (outcome column blanked), and the table the instance keeps still has
    this exposure column when the outcome is another column than the
    exposure. *)
Theorem fit_binary_exposure (self self' : t) (w w' : world R) (e plan : string) :
  exposure self = Scalar e →
  fit ext (TStr plan) (self, w) = (Ok (), (self', w')) →
  ∃ stored col g wt preds,
    model_fit self = true
    ∧ heap w !! gf self = Some stored
    ∧ length col = nrows stored
    ∧ (plan = "all" → col = replicate (nrows stored) (Some r1))
    ∧ (plan = "none" → col = replicate (nrows stored) (Some r0))
    ∧ (plan ≠ "all" → plan ≠ "none" →
       ∃ cond, py_eval ext plan stored = Ok cond
               ∧ length cond = nrows stored
               ∧ col = map (λ b : bool, Some (if b then r1 else r0)) cond)
    ∧ get_col e (set_col e col stored) = Some col
    ∧ predicted_df self' = Some g
    ∧ heap w' !! g = Some wt
    ∧ wt = set_col (outcome self) preds
             (set_col_scalar (outcome self) NaN (set_col e col stored))
    ∧ (e ≠ outcome self → get_col e wt = Some col).
Proof.
  intros Hexp Hrun.
  apply fit_Ok in Hrun as (stored & s1 & Hfit & Hgf & Hset & Hpred).
  eapply set_treatment_scalar in Hset as (col & Hlen & Hs1 & Hall & Hnone & Hcustom);
    [| exact Hexp | apply lookup_alloc].
  subst s1.
  assert (Hlt : length (heap w) ≠ gf self)
    by (apply lookup_lt_Some in Hgf; lia).
  eapply predict_outcomes_Ok in Hpred as (m & preds & mo & Hm & Hp & Hlp & -> & -> & Hmo);
    [| cbn [heap]; apply list_lookup_insert_eq; rewrite length_app; cbn; lia
     | cbn [gf]; exact Hlt ].
  exists stored, col, (length (heap w)),
         (set_col (outcome self) preds
            (set_col_scalar (outcome self) NaN (set_col e col stored))), preds.
  repeat split; try assumption.
  - intros Hna Hnn. destruct (Hcustom Hna Hnn) as (cond & Hev & Hcol).
    exists cond. split; [exact Hev |].
    rewrite np_where_1_0_unfold in Hcol. subst col.
    rewrite length_map in Hlen. split; [exact Hlen | reflexivity].
  - apply get_col_set_col_eq.
  - cbn [heap]. rewrite list_insert_insert_eq.
    apply list_lookup_insert_eq. rewrite length_app; cbn; lia.
  - intros Hne. unfold set_col_scalar.
    rewrite !get_col_set_col_ne by congruence. apply get_col_set_col_eq.
Qed.

(** C3. After a successful [fit], [marginal_outcome] is computed from the
    predictions of the fitted model on the modified working table.  With
    no weights column configured it is their arithmetic mean: the sum of
    the predictions over their number (a missing prediction is left out of
    both, and the mean of none is NaN).  With a weights column it is their
    average weighted by that column of the stored table: the sum of
    prediction times weight over the sum of the weights, which is not
    zero (and NaN as soon as a prediction or a weight is missing). *)
Theorem fit_marginal_outcome (self self' : t) (w w' : world R) (treatment : treatment_arg) :
  fit ext treatment (self, w) = (Ok (), (self', w')) →
  ∃ m g wt ready preds mo,
    outcome_model_result self = Some m
    ∧ predict ext m ready = Ok preds
    ∧ predicted_df self' = Some g
    ∧ heap w' !! g = Some wt
    ∧ wt = set_col (outcome self) preds ready
    ∧ get_col (outcome self) wt = Some preds
    ∧ marginal_outcome self' = Some mo
    ∧ match _weights self with
      | None =>
          (∀ p ps, preds = map Some (p :: ps) →
             mo = Some (rdiv (foldr radd r0 (p :: ps)) (rnat (length (p :: ps)))))
          ∧ mo = match omap id preds with
                 | [] => NaN
                 | p :: ps =>
                     Some (rdiv (foldr radd r0 (p :: ps)) (rnat (length (p :: ps))))
                 end
      | Some c =>
          ∃ stored ws,
            heap w !! gf self = Some stored
            ∧ get_col c stored = Some ws
            ∧ length preds = length ws
            ∧ (∀ ps wts, preds = map Some ps → ws = map Some wts →
                 reqb (foldr radd r0 wts) r0 = false
                 ∧ mo = Some (rdiv (foldr radd r0 (zip_with rmul ps wts))
                                (foldr radd r0 wts)))
            ∧ (None ∈ preds ∨ None ∈ ws → mo = NaN)
      end.
Proof.
  intros Hrun.
  apply fit_Ok in Hrun as (stored & [self1 w1] & Hfit & Hgf & Hset & Hpred).
  eapply set_treatment_Ok in Hset as (treated & Hself & Hheap); [| apply lookup_alloc].
  cbn [fst snd heap] in Hself, Hheap. subst self1.
  assert (Hlt : gf self < length (heap w)) by (eapply lookup_lt_Some; exact Hgf).
  assert (Hg : heap w1 !! length (heap w) = Some treated).
  { rewrite Hheap. apply list_lookup_insert_eq. rewrite length_app; cbn; lia. }
  eapply predict_outcomes_Ok in Hpred as (m & preds & mo & Hm & Hp & Hlp & -> & -> & Hmo);
    [| exact Hg | lia].
  exists m, (length (heap w)),
         (set_col (outcome self) preds (set_col_scalar (outcome self) NaN treated)),
         (set_col_scalar (outcome self) NaN treated), preds, mo.
  repeat split; try assumption.
  - cbn [heap]. apply list_lookup_insert_eq. eapply lookup_lt_Some; exact Hg.
  - apply get_col_set_col_eq.
  - destruct (_weights self) as [c |].
    + destruct Hmo as (stored' & ws & Hst & Hws & Havg).
      apply np_average_Ok in Havg as (Hlen & Hpresent & Hmissing).
      exists stored', ws. repeat split; try assumption.
      * rewrite Hheap in Hst.
        rewrite list_lookup_insert_ne in Hst by lia.
        rewrite lookup_app_l in Hst by exact Hlt. exact Hst.
      * apply (Hpresent ps wts); assumption.
      * apply (Hpresent ps wts); assumption.
    + rewrite np_mean_unfold in Hmo. split; [| exact Hmo].
      intros p ps ->. rewrite Hmo.
      assert (Hid : ∀ l : list R, omap id (map Some l) = l).
      { induction l as [| y l IH]; cbn; [reflexivity | rewrite IH; reflexivity]. }
      rewrite Hid. reflexivity.
Qed.

End TimeFixedFit.

Lemma fit_binary_exposure_witness :
  let tf := Demo.tf_fitted (TimeFixedGFormula.Scalar "art") None in
  let kept := λ plan : string,
    heap (TimeFixedGFormula.fit Demo.ext (TimeFixedGFormula.TStr plan) (tf, Demo.world1)).2.2
    !! 2 in
  (∃ wt, kept "all" = Some wt ∧ get_col "art" wt = Some (Demo.nums [1; 1; 1; 1]%Z))
  ∧ (∃ wt, kept "none" = Some wt ∧ get_col "art" wt = Some (Demo.nums [0; 0; 0; 0]%Z))
  ∧ (∃ wt, kept "male" = Some wt ∧ get_col "art" wt = Some (Demo.nums [1; 1; 0; 0]%Z)).
Proof.
  cbv zeta. split; [| split].
  - destruct (fit_binary_exposure Demo.ext
                (Demo.tf_fitted (TimeFixedGFormula.Scalar "art") None)
                (TimeFixedGFormula.fit Demo.ext (TimeFixedGFormula.TStr "all")
                   (Demo.tf_fitted (TimeFixedGFormula.Scalar "art") None, Demo.world1)).2.1
                Demo.world1
                (TimeFixedGFormula.fit Demo.ext (TimeFixedGFormula.TStr "all")
                   (Demo.tf_fitted (TimeFixedGFormula.Scalar "art") None, Demo.world1)).2.2
                "art" "all" eq_refl)
      as (stored & col & g & wt & preds & _ & Hgf & _ & Hall & _ & _ & _
          & Hg & Hwt & _ & Hcol);
      [vm_compute; reflexivity |].
    vm_compute in Hgf. injection Hgf as <-.
    vm_compute in Hg. injection Hg as <-.
    exists wt. split; [exact Hwt |].
    rewrite Hcol by discriminate. rewrite (Hall eq_refl). reflexivity.
  - destruct (fit_binary_exposure Demo.ext
                (Demo.tf_fitted (TimeFixedGFormula.Scalar "art") None)
                (TimeFixedGFormula.fit Demo.ext (TimeFixedGFormula.TStr "none")
                   (Demo.tf_fitted (TimeFixedGFormula.Scalar "art") None, Demo.world1)).2.1
                Demo.world1
                (TimeFixedGFormula.fit Demo.ext (TimeFixedGFormula.TStr "none")
                   (Demo.tf_fitted (TimeFixedGFormula.Scalar "art") None, Demo.world1)).2.2
                "art" "none" eq_refl)
      as (stored & col & g & wt & preds & _ & Hgf & _ & _ & Hnone & _ & _
          & Hg & Hwt & _ & Hcol);
      [vm_compute; reflexivity |].
    vm_compute in Hgf. injection Hgf as <-.
    vm_compute in Hg. injection Hg as <-.
    exists wt. split; [exact Hwt |].
    rewrite Hcol by discriminate. rewrite (Hnone eq_refl). reflexivity.
  - destruct (fit_binary_exposure Demo.ext
                (Demo.tf_fitted (TimeFixedGFormula.Scalar "art") None)
                (TimeFixedGFormula.fit Demo.ext (TimeFixedGFormula.TStr "male")
                   (Demo.tf_fitted (TimeFixedGFormula.Scalar "art") None, Demo.world1)).2.1
                Demo.world1
                (TimeFixedGFormula.fit Demo.ext (TimeFixedGFormula.TStr "male")
                   (Demo.tf_fitted (TimeFixedGFormula.Scalar "art") None, Demo.world1)).2.2
                "art" "male" eq_refl)
      as (stored & col & g & wt & preds & _ & Hgf & _ & _ & _ & Hcustom & _
          & Hg & Hwt & _ & Hcol);
      [vm_compute; reflexivity |].
    vm_compute in Hgf. injection Hgf as <-.
    vm_compute in Hg. injection Hg as <-.
    exists wt. split; [exact Hwt |].
    rewrite Hcol by discriminate.
    destruct Hcustom as (cond & Hev & _ & ->); [discriminate | discriminate |].
    vm_compute in Hev. injection Hev as <-. reflexivity.
Defined.

Lemma fit_marginal_outcome_witness :
  TimeFixedGFormula.marginal_outcome
    (TimeFixedGFormula.fit Demo.ext (TimeFixedGFormula.TStr "all")
       (Demo.tf_fitted (TimeFixedGFormula.Scalar "art") None, Demo.world1)).2.1
  = Some (Some ((5 + 5 + 5 + 5) / 4)%Z)
  ∧ TimeFixedGFormula.marginal_outcome
      (TimeFixedGFormula.fit Demo.ext (TimeFixedGFormula.TStr "art")
         (Demo.tf_fitted (TimeFixedGFormula.Scalar "art") (Some "w"), Demo.world1)).2.1
    = Some (Some ((5 * 1 + 3 * 2 + 5 * 1 + 3 * 2) / (1 + 2 + 1 + 2))%Z).
Proof.
  split.
  - destruct (fit_marginal_outcome Demo.ext
                (Demo.tf_fitted (TimeFixedGFormula.Scalar "art") None)
                (TimeFixedGFormula.fit Demo.ext (TimeFixedGFormula.TStr "all")
                   (Demo.tf_fitted (TimeFixedGFormula.Scalar "art") None, Demo.world1)).2.1
                Demo.world1
                (TimeFixedGFormula.fit Demo.ext (TimeFixedGFormula.TStr "all")
                   (Demo.tf_fitted (TimeFixedGFormula.Scalar "art") None, Demo.world1)).2.2
                (TimeFixedGFormula.TStr "all"))
      as (m & g & wt & ready & preds & mo & _ & _ & Hg & Hwt & _ & Hpreds & Hmo & Hmean & _);
      [vm_compute; reflexivity |].
    vm_compute in Hg. injection Hg as <-.
    vm_compute in Hwt. injection Hwt as <-.
    vm_compute in Hpreds. injection Hpreds as <-.
    rewrite Hmo, (Hmean 5%Z [5; 5; 5]%Z eq_refl). reflexivity.
  - destruct (fit_marginal_outcome Demo.ext
                (Demo.tf_fitted (TimeFixedGFormula.Scalar "art") (Some "w"))
                (TimeFixedGFormula.fit Demo.ext (TimeFixedGFormula.TStr "art")
                   (Demo.tf_fitted (TimeFixedGFormula.Scalar "art") (Some "w"),
                    Demo.world1)).2.1
                Demo.world1
                (TimeFixedGFormula.fit Demo.ext (TimeFixedGFormula.TStr "art")
                   (Demo.tf_fitted (TimeFixedGFormula.Scalar "art") (Some "w"),
                    Demo.world1)).2.2
                (TimeFixedGFormula.TStr "art"))
      as (m & g & wt & ready & preds & mo & _ & _ & Hg & Hwt & _ & Hpreds & Hmo
          & stored & ws & Hgf & Hws & _ & Havg & _);
      [vm_compute; reflexivity |].
    vm_compute in Hg. injection Hg as <-.
    vm_compute in Hwt. injection Hwt as <-.
    vm_compute in Hpreds. injection Hpreds as <-.
    vm_compute in Hgf. injection Hgf as <-.
    vm_compute in Hws. injection Hws as <-.
    destruct (Havg [5; 3; 5; 3]%Z [1; 2; 1; 2]%Z eq_refl eq_refl) as [_ ->].
    exact Hmo.
Defined.

(** ** The caller's table is never written to *)

Section FrameRules.
Context {R : Type}.

Import Session.

Lemma frames_refl (n : nat) (w : world R) : frames n w w.
Proof. split; [reflexivity | lia]. Qed.

Lemma frames_trans (n : nat) (w1 w2 w3 : world R) :
  frames n w1 w2 → frames n w2 w3 → frames n w1 w3.
Proof. intros [H1 L1] [H2 L2]. split; [congruence | lia]. Qed.

Lemma frames_lookup (n : nat) (w w' : world R) (l : ref) (tbl : DataFrame R) :
  frames n w w' → l < n → heap w !! l = Some tbl → heap w' !! l = Some tbl.
Proof.
  intros [Htake _] Hl Hw.
  rewrite <- (lookup_take_lt (heap w') n l) by exact Hl.
  rewrite Htake. rewrite lookup_take_lt by exact Hl. exact Hw.
Qed.

Section Rules.
Context {Self : Type} (n : nat) (inv : Self → Prop).

Lemma respects_ret {A : Type} (post : A → Prop) (a : A) :
  post a → respects (R := R) n inv post (mret a).
Proof.
  intros Hp self w Hinv Hn. unfold frames. cbn. repeat split; [exact Hinv | lia | exact Hp].
Qed.

Lemma respects_raise {A : Type} (post : A → Prop) (e : exn) :
  respects (R := R) n inv post (raise e).
Proof.
  intros self w Hinv Hn. unfold frames. cbn. repeat split; [exact Hinv | lia].
Qed.

Lemma respects_lift {A : Type} (post : A → Prop) (r : result A) :
  (∀ a, post a) → respects (R := R) n inv post (lift r).
Proof.
  intros Hp self w Hinv Hn. unfold frames. cbn. repeat split; [exact Hinv | lia |].
  destruct r; [apply Hp | exact I].
Qed.

Lemma respects_bind {A B : Type} (Q : A → Prop) (P : B → Prop)
    (m : M R Self A) (k : A → M R Self B) :
  respects n inv Q m →
  (∀ a, Q a → respects n inv P (k a)) →
  respects n inv P (m ≫= k).
Proof.
  intros Hm Hk self w Hinv Hn.
  specialize (Hm self w Hinv Hn). rewrite bind_unfold.
  destruct (m (self, w)) as [[a | e] [self1 w1]]; cbn [fst snd] in *.
  - destruct Hm as (Hinv1 & Hfr & Hq).
    assert (Hn1 : n ≤ length (heap w1)) by (destruct Hfr; lia).
    specialize (Hk a Hq self1 w1 Hinv1 Hn1).
    destruct (k a (self1, w1)) as [r [self2 w2]]; cbn [fst snd] in *.
    destruct Hk as (Hinv2 & Hfr2 & Hp).
    repeat split; [exact Hinv2 | | | exact Hp];
      destruct (frames_trans _ _ _ _ Hfr Hfr2); assumption.
  - exact Hm.
Qed.

Lemma respects_get_self (post : Self → Prop) :
  (∀ self, inv self → post self) → respects (R := R) n inv post get_self.
Proof.
  intros Hp self w Hinv Hn. unfold frames. cbn. repeat split; [exact Hinv | lia | apply Hp, Hinv].
Qed.

Lemma respects_set_self (post : unit → Prop) (f : Self → Self) :
  (∀ self, inv self → inv (f self)) → post () → respects (R := R) n inv post (set_self f).
Proof.
  intros Hf Hp self w Hinv Hn. unfold frames. cbn. repeat split; [apply Hf, Hinv | lia | exact Hp].
Qed.

Lemma respects_warn (post : unit → Prop) (msg : string) :
  post () → respects (R := R) n inv post (warn msg).
Proof.
  intros Hp self w Hinv Hn. unfold frames. cbn. repeat split; [exact Hinv | lia | exact Hp].
Qed.

Lemma respects_print (post : unit → Prop) (msg : string) :
  post () → respects (R := R) n inv post (print msg).
Proof.
  intros Hp self w Hinv Hn. unfold frames. cbn. repeat split; [exact Hinv | lia | exact Hp].
Qed.

Lemma respects_emit (post : unit → Prop) (lines : list string) :
  post () → respects (R := R) n inv post (emit lines).
Proof.
  intros Hp self w Hinv Hn. unfold frames. cbn. repeat split; [exact Hinv | lia | exact Hp].
Qed.

Lemma respects_load (post : DataFrame R → Prop) (l : ref) :
  (∀ tbl, post tbl) → respects n inv post (load l).
Proof.
  intros Hp self w Hinv Hn. unfold load, frames. cbn [fst snd].
  destruct (heap w !! l); cbn; repeat split; try exact Hinv; try lia. apply Hp.
Qed.

Lemma respects_getitem (post : list (cell R) → Prop) (c : string) (tbl : DataFrame R) :
  (∀ v, post v) → respects n inv post (getitem c tbl).
Proof.
  intros Hp. unfold getitem.
  destruct (get_col c tbl); [apply respects_lift, Hp | apply respects_raise].
Qed.

(** A new object comes after the [n] first ones. *)
Lemma respects_alloc (post : ref → Prop) (tbl : DataFrame R) :
  (∀ l, n ≤ l → post l) → respects n inv post (alloc tbl).
Proof.
  intros Hp self w Hinv Hn. unfold frames. cbn. repeat split.
  - exact Hinv.
  - rewrite take_app_le by exact Hn. reflexivity.
  - rewrite length_app. lia.
  - apply Hp, Hn.
Qed.

(** A write to an object that is not among the [n] first ones. *)
Lemma respects_store (post : unit → Prop) (l : ref) (tbl : DataFrame R) :
  n ≤ l → post () → respects n inv post (store l tbl).
Proof.
  intros Hl Hp self w Hinv Hn. unfold store, frames. cbn [fst snd].
  destruct (heap w !! l); cbn; repeat split; try exact Hinv; try lia; try exact Hp.
  - apply take_insert_ge. exact Hl.
  - rewrite length_insert. lia.
Qed.

End Rules.
End FrameRules.

(** One step of a proof that a computation respects the first objects. *)
Ltac frame_step :=
  lazymatch goal with
  | |- Session.respects ?n ?inv _ (?m ≫= _) =>
      lazymatch m with
      | get_self => eapply (respects_bind n inv inv)
      | alloc _ => eapply (respects_bind n inv (λ l, n ≤ l))
      | TimeFixedGFormula.copy _ => eapply (respects_bind n inv (λ l, n ≤ l))
      | _ => eapply (respects_bind n inv (λ _, True))
      end; [| intros ? ?]
  | |- Session.respects _ _ _ (mret _) => apply respects_ret
  | |- Session.respects _ _ _ (raise _) => apply respects_raise
  | |- Session.respects _ _ _ (lift _) => apply respects_lift; intros; exact I
  | |- Session.respects _ _ _ (load _) => apply respects_load; intros; exact I
  | |- Session.respects _ _ _ (getitem _ _) => apply respects_getitem; intros; exact I
  | |- Session.respects _ _ _ get_self =>
      apply respects_get_self; let Hs := fresh in intros ? Hs; exact Hs
  | |- Session.respects _ _ _ (set_self _) =>
      apply respects_set_self; [let Hs := fresh in intros ? Hs; exact Hs |]
  | |- Session.respects _ _ _ (warn _) => apply respects_warn
  | |- Session.respects _ _ _ (print _) => apply respects_print
  | |- Session.respects _ _ _ (emit _) => apply respects_emit
  | |- Session.respects _ _ _ (alloc _) =>
      apply respects_alloc; let Hl := fresh in intros ? Hl; first [exact Hl | exact I]
  | |- Session.respects _ _ _ (store _ _) => apply respects_store; [assumption |]
  | |- Session.respects _ _ _ (if ?b then _ else _) => destruct b
  | |- Session.respects _ _ _ (match ?x with _ => _ end) => destruct x
  | |- _ => exact I
  end.

Section EstimatorsFrame.
Context {R : Type} `{Numeric R} {model : Type}.
Variable ext : Collaborators R model.
Variable n : nat.

Import Session.

(** The invariant of a [TimeFixedGFormula]: its table is not one of the
    first [n] objects. *)
Local Abbreviation tf_inv := (λ self : TimeFixedGFormula.t, n ≤ TimeFixedGFormula.gf self).
Local Abbreviation any := (λ _, True).

Lemma respects_copy {Self : Type} (inv : Self → Prop) (l : ref) :
  respects (R := R) n inv (λ g, n ≤ g) (TimeFixedGFormula.copy l).
Proof. unfold TimeFixedGFormula.copy. repeat frame_step. Qed.

Lemma respects_assign_where (g : ref) (expr c : result string) :
  n ≤ g → respects n tf_inv any (TimeFixedGFormula.assign_where ext g expr c).
Proof. intros Hg. unfold TimeFixedGFormula.assign_where. repeat frame_step. Qed.

Lemma respects_assign_indicators (g : ref) (es : list string)
    (treatment : TimeFixedGFormula.treatment_arg) (range : list nat) :
  n ≤ g →
  respects n tf_inv any (TimeFixedGFormula.assign_indicators ext g es treatment range).
Proof.
  intros Hg. induction range as [| i rest IH]; cbn [TimeFixedGFormula.assign_indicators].
  - repeat frame_step.
  - eapply respects_bind; [apply respects_assign_where, Hg | intros _ _; exact IH].
Qed.

Lemma respects_set_treatment (g : ref) (treatment : TimeFixedGFormula.treatment_arg) :
  n ≤ g → respects n tf_inv any (TimeFixedGFormula.set_treatment ext g treatment).
Proof.
  intros Hg. unfold TimeFixedGFormula.set_treatment.
  repeat first [apply respects_assign_where; exact Hg
               | apply respects_assign_indicators; exact Hg
               | frame_step].
Qed.

Lemma respects_predict_outcomes (g : ref) :
  n ≤ g → respects n tf_inv any (TimeFixedGFormula.predict_outcomes ext g).
Proof.
  intros Hg. unfold TimeFixedGFormula.predict_outcomes. repeat frame_step.
Qed.

Lemma respects_tf_fit (treatment : TimeFixedGFormula.treatment_arg) :
  respects n tf_inv any (TimeFixedGFormula.fit ext treatment).
Proof.
  unfold TimeFixedGFormula.fit.
  repeat first [apply respects_copy
               | apply respects_set_treatment; assumption
               | apply respects_predict_outcomes; assumption
               | frame_step].
Qed.

Lemma respects_outcome_model (model_ : string) (print_results : bool) :
  respects n tf_inv any (TimeFixedGFormula.outcome_model ext model_ print_results).
Proof. unfold TimeFixedGFormula.outcome_model. repeat frame_step. Qed.

Lemma respects_tf_init (df : ref) (exposure : TimeFixedGFormula.exposure_arg)
    (outcome outcome_type : string) (weights : option string) :
  respects (R := R) n (λ _ : unit, True)
    (λ self : TimeFixedGFormula.t (R := R) (model := model), n ≤ TimeFixedGFormula.gf self)
    (TimeFixedGFormula.__init__ df exposure outcome outcome_type weights).
Proof.
  unfold TimeFixedGFormula.__init__.
  repeat first [apply respects_copy | frame_step]. assumption.
Qed.

Lemma respects_closed_form_solver {Self : Type} (inv : Self → Prop)
    (treat model_ : string) (df : ref) (snm_matrix y_matrix : DataFrame R)
    (weights : option string) (print_results : bool) :
  respects n inv any
    (GEstimationSNM._closed_form_solver_ ext treat model_ df snm_matrix y_matrix
       weights print_results).
Proof. unfold GEstimationSNM._closed_form_solver_. repeat frame_step. Qed.

Lemma respects_ge_fit (solver : string) (starting_value : option (list R))
    (alpha_value : GEstimationSNM.alpha_arg) :
  respects n (λ _ : GEstimationSNM.t, True) any
    (GEstimationSNM.fit ext solver starting_value alpha_value).
Proof.
  unfold GEstimationSNM.fit, GEstimationSNM._grid_search_.
  repeat first [apply respects_closed_form_solver | frame_step].
Qed.

Lemma respects_ge_init (df : ref) (exposure outcome : string) (weights : option string) :
  respects (R := R) n (λ _ : unit, True) (λ _ : GEstimationSNM.t (R := R), True)
    (GEstimationSNM.__init__ df exposure outcome weights).
Proof. unfold GEstimationSNM.__init__. repeat frame_step. Qed.

Lemma respects_tf_do (c : tf_call) : respects n tf_inv any (tf_do ext c).
Proof.
  destruct c; cbn [tf_do]; [apply respects_outcome_model | apply respects_tf_fit].
Qed.

Lemma respects_ge_do (c : ge_call) :
  respects n (λ _ : GEstimationSNM.t, True) any (ge_do ext c).
Proof.
  destruct c; cbn [ge_do];
    [unfold GEstimationSNM.treatment_model; repeat frame_step
    | unfold GEstimationSNM.structural_nested_model; repeat frame_step
    | apply respects_ge_fit].
Qed.

(** A sequence of calls, each of which respects the first [n] objects,
    respects them, whichever calls raise. *)
Lemma run_calls_frames {Self C : Type} (inv : Self → Prop) (do : C → M R Self unit)
    (calls : list C) :
  (∀ c, respects n inv any (do c)) →
  ∀ s : Self * world R,
    inv s.1 → n ≤ length (heap s.2) → frames n s.2 (run_calls do calls s).2.
Proof.
  intros Hdo. induction calls as [| c rest IH]; intros [self w] Hinv Hn; cbn [run_calls].
  - apply frames_refl.
  - destruct (Hdo c self w Hinv Hn) as (Hinv1 & Hfr & _).
    destruct (do c (self, w)) as [r [self1 w1]]; cbn [fst snd] in *.
    eapply frames_trans; [exact Hfr |].
    apply (IH (self1, w1)); [exact Hinv1 | unfold frames in Hfr; cbn [fst snd] in *; lia].
Qed.

End EstimatorsFrame.

Section CallerTable.
Context {R : Type} `{Numeric R} {model : Type}.
Variable ext : Collaborators R model.

Import Session.

Lemma tf_session_frames (df : ref) (exposure : TimeFixedGFormula.exposure_arg)
    (outcome outcome_type : string) (weights : option string) (calls : list tf_call)
    (w : world R) :
  frames (length (heap w)) w
    (tf_session ext df exposure outcome outcome_type weights calls w).
Proof.
  unfold tf_session.
  destruct (respects_tf_init (model := model) (length (heap w))
              df exposure outcome outcome_type weights () w I (le_n _))
    as (_ & Hfr & Hpost).
  destruct (TimeFixedGFormula.__init__ df exposure outcome outcome_type weights ((), w))
    as [[self | e] [[] w1]]; cbn [fst snd] in *; [| exact Hfr].
  eapply frames_trans; [exact Hfr |].
  apply (run_calls_frames (length (heap w)) _ (tf_do ext) calls
           (respects_tf_do ext (length (heap w))) (self, w1));
    [exact Hpost | destruct Hfr; assumption].
Qed.

Lemma ge_session_frames (df : ref) (exposure outcome : string) (weights : option string)
    (calls : list ge_call) (w : world R) :
  frames (length (heap w)) w (ge_session ext df exposure outcome weights calls w).
Proof.
  unfold ge_session.
  destruct (respects_ge_init (length (heap w)) df exposure outcome weights () w I (le_n _))
    as (_ & Hfr & _).
  destruct (GEstimationSNM.__init__ df exposure outcome weights ((), w))
    as [[self | e] [[] w1]]; cbn [fst snd] in *; [| exact Hfr].
  eapply frames_trans; [exact Hfr |].
  apply (run_calls_frames (length (heap w)) _ (ge_do ext) calls
           (respects_ge_do ext (length (heap w))) (self, w1));
    [exact I | destruct Hfr; assumption].
Qed.

(** C9. Whatever the constructor arguments and whatever calls follow
    ([outcome_model], [fit]; [treatment_model], [structural_nested_model],
    [fit]), in any order and whether or not they raise, the table the caller
    passed to the constructor holds at the end what it held at the start:
    the estimator works on copies, and writes to its working copy only. *)
Theorem caller_table_never_modified (w : world R) (df : ref) (tbl : DataFrame R)
    (tf_exposure : TimeFixedGFormula.exposure_arg) (tf_outcome outcome_type : string)
    (tf_weights : option string) (tf_calls : list tf_call)
    (ge_exposure ge_outcome : string) (ge_weights : option string)
    (ge_calls : list ge_call) :
  heap w !! df = Some tbl →
  heap (tf_session ext df tf_exposure tf_outcome outcome_type tf_weights tf_calls w) !! df
    = Some tbl
  ∧ heap (ge_session ext df ge_exposure ge_outcome ge_weights ge_calls w) !! df = Some tbl.
Proof.
  intros Hdf.
  assert (Hlt : df < length (heap w)) by (eapply lookup_lt_Some; exact Hdf).
  split.
  - eapply frames_lookup; [apply tf_session_frames | exact Hlt | exact Hdf].
  - eapply frames_lookup; [apply ge_session_frames | exact Hlt | exact Hdf].
Qed.

End CallerTable.

Lemma caller_table_never_modified_witness :
  heap (Session.tf_session Demo.ext 0 (TimeFixedGFormula.Scalar "art") "dead" "binary"
          (Some "w")
          [Session.TFFit (TimeFixedGFormula.TStr "all");
           Session.TFOutcomeModel "art" true;
           Session.TFFit (TimeFixedGFormula.TStr "male");
           Session.TFFit (TimeFixedGFormula.TStr "none")]
          Demo.world0) !! 0 = Some Demo.table
  ∧ heap (Session.ge_session Demo.ext 0 "art" "dead" None
            [Session.GEFit "closed" None (GEstimationSNM.AlphaScalar 0%Z);
             Session.GEStructuralNestedModel "art";
             Session.GETreatmentModel "male" true;
             Session.GEFit "closed" None (GEstimationSNM.AlphaScalar 0%Z)]
            Demo.world0) !! 0 = Some Demo.table.
Proof.
  apply (caller_table_never_modified Demo.ext Demo.world0 0 Demo.table).
  reflexivity.
Defined.

(** ** [GEstimationSNM.fit(solver='closed')]: the estimating equation *)

Section ClosedForm.
Context {R : Type} `{Numeric R} {model : Type}.
Variable ext : Collaborators R model.

Import GEstimationSNM.

(** The solver writes what [propensity_score] prints and changes nothing
    else, whether it returns or raises. *)
Lemma closed_form_solver_state {Self : Type} (treat model_ : string) (l : ref)
    (snm_matrix y_matrix : DataFrame R) (weights : option string) (print_results : bool)
    (s : Self * world R) :
  ∃ printed,
    (_closed_form_solver_ ext treat model_ l snm_matrix y_matrix weights print_results s).2
    = (s.1, {| heap := heap s.2; warnings := warnings s.2;
               stdout := stdout s.2 ++ printed |}).
Proof.
  destruct s as [self [objects warned printed0]].
  unfold _closed_form_solver_, series_mul_str. cbv zeta.
  destruct weights; mrun; try (eexists; reflexivity);
    exists []; rewrite app_nil_r; reflexivity.
Qed.

(** With a weights column configured, the residual is multiplied by the
    name of that column, not by the column: the solver raises before it
    builds the system. *)
Lemma closed_form_solver_with_weights {Self : Type} (treat model_ : string) (df : ref)
    (snm_matrix y_matrix : DataFrame R) (wcol : string) (print_results : bool)
    (s : Self * world R) :
  ∃ e, (_closed_form_solver_ ext treat model_ df snm_matrix y_matrix (Some wcol)
          print_results s).1 = Err e.
Proof.
  unfold _closed_form_solver_, series_mul_str. cbv zeta. mrun; eauto.
Qed.

(** Hence [fit(solver='closed')] never produces [psi] on an instance built
    with a weights column. *)
Lemma fit_closed_with_weights (self : t) (w : world R) (wcol : string)
    (sv : option (list R)) (av : alpha_arg) :
  _weights self = Some wcol →
  ∃ e s', fit ext "closed" sv av (self, w) = (Err e, s') ∧ psi s'.1 = psi self.
Proof.
  intros Hw. unfold fit. cbn [String.eqb Ascii.eqb Bool.eqb andb].
  mrun; eauto.
  all: rewrite Hw.
  all: match goal with
       | |- context [_closed_form_solver_ ext ?a ?b ?c ?d ?e (Some ?x) ?f ?s] =>
           destruct (closed_form_solver_with_weights a b c d e x f s) as [err Herr];
           destruct (closed_form_solver_state a b c d e (Some x) f s) as [printed Hst];
           destruct (_closed_form_solver_ ext a b c d e (Some x) f s) as [r s1];
           cbn [fst snd] in Herr, Hst; subst r s1
       end.
  all: eauto.
Qed.

(** Without weights: what a successful run of the solver computed. *)
Lemma closed_form_solver_unweighted {Self : Type} (treat model_ : string) (df : ref)
    (snm_matrix y_matrix : DataFrame R) (print_results : bool)
    (s s' : Self * world R) (psi_array : list (cell R)) :
  _closed_form_solver_ ext treat model_ df snm_matrix y_matrix None print_results s
    = (Ok psi_array, s') →
  ∃ tbl fm pred_treat a lhm,
    heap s.2 !! df = Some tbl
    ∧ snd (propensity_score ext tbl model_ None print_results) = Ok fm
    ∧ predict ext fm tbl = Ok pred_treat
    ∧ get_col treat tbl = Some a
    ∧ np_dot_T (mul_rows snm_matrix (align_with rsub a pred_treat)) snm_matrix = Ok lhm
    ∧ linalg_solve ext lhm (column_sums (mul_rows y_matrix (align_with rsub a pred_treat)))
      = Ok psi_array
    ∧ s' = (s.1, {| heap := heap s.2; warnings := warnings s.2;
                    stdout := stdout s.2
                              ++ fst (propensity_score ext tbl model_ None print_results) |}).
Proof.
  unfold _closed_form_solver_. cbv zeta. mrun; intros [= <- <-].
  eauto 12.
Qed.

End ClosedForm.

Section EstimatingEquation.
Context {R : Type} `{Numeric R}.
Hypothesis r_ring : ring_theory r0 r1 radd rmul rsub ropp (@eq R).

Import SpecFormula.

Lemma zip_with_rmul_assoc (u d v : list R) :
  zip_with rmul (zip_with rmul u d) v = zip_with rmul u (zip_with rmul d v).
Proof.
  revert d v. induction u as [| x u IH]; intros [| y d] [| z v]; cbn; try reflexivity.
  rewrite IH, (Rmul_assoc r_ring). reflexivity.
Qed.

Lemma zip_with_rmul_comm (u v : list R) : zip_with rmul u v = zip_with rmul v u.
Proof.
  revert v. induction u as [| x u IH]; intros [| y v]; cbn; try reflexivity.
  rewrite IH, (Rmul_comm r_ring). reflexivity.
Qed.

(** The matrix and the vector that the closed form builds from frames of
    numbers are those of the specification:
    [lhm = snmᵀ · diag(diff) · snm] and [rha = Σ_rows diff · y_row], with
    [diff = observed − predicted]. *)
Lemma estimating_equation_refines (idx idy : list nat) (snm y : list (string * list R))
    (observed predicted : list R) :
  length observed = length idx →
  length predicted = length idx →
  length idy = length idx →
  Forall (λ p, length (snd p) = length idx) snm →
  Forall (λ p, length (snd p) = length idx) y →
  let diff := align_with rsub (map Some observed) (map Some predicted) in
  GEstimationSNM.np_dot_T (GEstimationSNM.mul_rows (frame_of idx snm) diff) (frame_of idx snm)
    = Ok (map (map Some) (lhm (map snd snm) (residual observed predicted)))
  ∧ GEstimationSNM.column_sums (GEstimationSNM.mul_rows (frame_of idy y) diff)
    = map Some (rha (map snd y) (residual observed predicted)).
Proof.
  intros Hobs Hpred Hidy Hsnm Hy diff.
  assert (Hdiff : diff = map Some (residual observed predicted)).
  { apply align_with_present. congruence. }
  assert (Hlen : length (residual observed predicted) = length idx).
  { unfold residual. rewrite length_zip_with. lia. }
  rewrite Hdiff. clear Hdiff diff. split.
  - unfold GEstimationSNM.np_dot_T, GEstimationSNM.mul_rows, nrows.
    cbn [index columns frame_of]. rewrite length_app, length_seq, length_map, Hlen.
    replace (length idx + (length idx - length idx)) with (length idx) by lia.
    rewrite Nat.eqb_refl. f_equal.
    unfold lhm, transpose_mul, diag_mul. rewrite !map_map.
    apply map_ext_Forall. eapply Forall_impl; [exact Hsnm |].
    intros [ni ci] Hci. cbn [fst snd] in *. rewrite !map_map.
    apply map_ext_Forall. eapply Forall_impl; [exact Hsnm |].
    intros [nj cj] Hcj. cbn [fst snd] in *.
    rewrite align_with_present by congruence.
    rewrite zip_with_cell_op_present, np_sum_present.
    unfold dot. rewrite zip_with_rmul_assoc. reflexivity.
  - unfold GEstimationSNM.column_sums, GEstimationSNM.mul_rows, rha.
    cbn [index columns frame_of]. rewrite !map_map.
    apply map_ext_Forall. eapply Forall_impl; [exact Hy |].
    intros [nj cj] Hcj. cbn [fst snd] in *.
    rewrite align_with_present by congruence.
    rewrite sum_skipna_present. unfold dot.
    rewrite zip_with_rmul_comm. reflexivity.
Qed.

End EstimatingEquation.

(** C1, on an input that shows the defect.  The estimator is built with the
    weights column [w]; both models are specified.  [fit(solver='closed')]
    fits the treatment model, takes the residual, and then multiplies it by
    the string ['w'] itself: a [TypeError], and no [psi].  The same
    instance without weights solves the equation. *)
Theorem fit_closed_with_weights_raises :
  (GEstimationSNM.fit Demo.ext "closed" None (GEstimationSNM.AlphaScalar 0%Z)
     (Demo.ge_configured (Some "w"), Demo.world_ge)).1
  = Err (TypeError "can't multiply sequence by non-int of type 'float'")
  ∧ GEstimationSNM.psi
      (GEstimationSNM.fit Demo.ext "closed" None (GEstimationSNM.AlphaScalar 0%Z)
         (Demo.ge_configured (Some "w"), Demo.world_ge)).2.1 = None
  ∧ (GEstimationSNM.fit Demo.ext "closed" None (GEstimationSNM.AlphaScalar 0%Z)
       (Demo.ge_configured None, Demo.world_ge)).1 = Ok ()
  ∧ GEstimationSNM.psi
      (GEstimationSNM.fit Demo.ext "closed" None (GEstimationSNM.AlphaScalar 0%Z)
         (Demo.ge_configured None, Demo.world_ge)).2.1 = Some [Some 1%Z].
Proof. repeat split; vm_compute; reflexivity. Qed.

(** ** [TimeFixedGFormula.fit] is a function of the configuration and the stored table *)

Section FitComputes.
Context {R : Type} `{Numeric R} {model : Type}.
Variable ext : Collaborators R model.

Import TimeFixedGFormula FitOutcome.

(** A failing step has at most replaced the table behind [g]. *)
Local Abbreviation touched g w w' :=
  (stdout w' = stdout w ∧ warnings w' = warnings w
   ∧ (heap w' = heap w ∨ ∃ tbl', heap w' = <[g := tbl']> (heap w))).

Local Ltac failed :=
  eexists; split; [reflexivity | cbn [heap warnings stdout]; rewrite ?list_insert_insert_eq;
                                 repeat split; eauto].

Lemma load_run {Self : Type} (l : ref) (s : Self * world R) (tbl : DataFrame R) :
  heap s.2 !! l = Some tbl → load l s = (Ok tbl, s).
Proof. intros Hl. unfold load. rewrite Hl. reflexivity. Qed.

Lemma store_run {Self : Type} (l : ref) (new old : DataFrame R) (s : Self * world R) :
  heap s.2 !! l = Some old →
  store l new s = (Ok (), (s.1, {| heap := <[l := new]> (heap s.2);
                                   warnings := warnings s.2; stdout := stdout s.2 |})).
Proof. intros Hl. unfold store. rewrite Hl. reflexivity. Qed.

Lemma getitem_run {Self : Type} (c : string) (tbl : DataFrame R) (s : Self * world R)
    (v : list (cell R)) :
  get_col c tbl = Some v → getitem c tbl s = (Ok v, s).
Proof. intros Hc. unfold getitem. rewrite Hc. reflexivity. Qed.

Lemma getitem_fail {Self : Type} (c : string) (tbl : DataFrame R) (s : Self * world R) :
  get_col c tbl = None → getitem c tbl s = (Err (KeyError c), s).
Proof. intros Hc. unfold getitem. rewrite Hc. reflexivity. Qed.

Lemma assign_where_run (self : t) (w : world R) (g : ref) (expr c : result string)
    (tbl : DataFrame R) :
  heap w !! g = Some tbl →
  assign_where ext g expr c (self, w)
  = match where_column ext tbl expr c with
    | Ok tbl' => (Ok (), (self, {| heap := <[g := tbl']> (heap w);
                                   warnings := warnings w; stdout := stdout w |}))
    | Err e => (Err e, (self, w))
    end.
Proof.
  intros Hg. unfold assign_where, where_column.
  rewrite bind_unfold, lift_run.
  destruct expr as [e | err]; cbn [mbind result_bind]; [| reflexivity].
  rewrite bind_unfold, (load_run g (self, w) tbl) by exact Hg.
  rewrite bind_unfold, lift_run.
  destruct (py_eval ext e tbl) as [cond | err]; cbn [mbind result_bind]; [| reflexivity].
  rewrite bind_unfold, lift_run.
  destruct c as [c | err]; cbn [mbind result_bind]; [| reflexivity].
  rewrite bind_unfold, lift_run.
  destruct (set_col_array c (np_where_1_0 cond) tbl) as [tbl' | err]; [| reflexivity].
  apply (store_run g tbl' tbl (self, w)). exact Hg.
Qed.

Lemma assign_indicators_run (self : t) (g : ref) (es : list string)
    (treatment : treatment_arg) (range : list nat) :
  ∀ (w : world R) (tbl : DataFrame R),
    heap w !! g = Some tbl →
    match indicators ext es treatment range tbl with
    | Ok tbl' =>
        assign_indicators ext g es treatment range (self, w)
        = (Ok (), (self, {| heap := <[g := tbl']> (heap w);
                            warnings := warnings w; stdout := stdout w |}))
    | Err e =>
        ∃ w', assign_indicators ext g es treatment range (self, w) = (Err e, (self, w'))
              ∧ touched g w w'
    end.
Proof.
  induction range as [| i rest IH]; intros w tbl Hg.
  - cbn. rewrite list_insert_id by exact Hg. destruct w; reflexivity.
  - cbn [indicators assign_indicators]. rewrite bind_unfold.
    rewrite (assign_where_run _ _ _ _ _ tbl) by exact Hg.
    destruct (where_column ext tbl (treatment_item treatment i) (exposure_item es i))
      as [tbl1 | err]; cbn [mbind result_bind]; [| failed].
    specialize (IH {| heap := <[g := tbl1]> (heap w);
                      warnings := warnings w; stdout := stdout w |} tbl1).
    cbn [heap warnings stdout] in IH.
    assert (Hg1 : <[g := tbl1]> (heap w) !! g = Some tbl1)
      by (apply list_lookup_insert_eq; eapply lookup_lt_Some; exact Hg).
    specialize (IH Hg1).
    destruct (indicators ext es treatment rest tbl1) as [tbl2 | err].
    + rewrite list_insert_insert_eq in IH. exact IH.
    + destruct IH as (w' & -> & Hout & Hwarn & Hheap).
      eexists; split; [reflexivity |]. repeat split; try assumption.
      right. destruct Hheap as [-> | [tbl2 ->]]; rewrite ?list_insert_insert_eq; eauto.
Qed.

Lemma set_treatment_run (self : t) (w : world R) (g : ref) (treatment : treatment_arg)
    (tbl : DataFrame R) :
  heap w !! g = Some tbl →
  match treated ext (exposure self) treatment tbl with
  | Ok tw =>
      set_treatment ext g treatment (self, w)
      = (Ok (), (self, {| heap := <[g := fst tw]> (heap w);
                          warnings := warnings w ++ snd tw; stdout := stdout w |}))
  | Err e => ∃ w', set_treatment ext g treatment (self, w) = (Err e, (self, w'))
                   ∧ touched g w w'
  end.
Proof.
  intros Hg. unfold treated, set_treatment. rewrite bind_unfold. cbn [get_self fst snd].
  destruct (exposure self) as [e | es].
  - destruct (is_list treatment); [failed |].
    destruct (treatment_is "all" treatment); [| destruct (treatment_is "none" treatment)].
    + cbn [fst snd]. rewrite bind_unfold, (load_run g (self, w) tbl) by exact Hg.
      rewrite (store_run g _ tbl) by exact Hg. cbn [fst snd]. rewrite app_nil_r. reflexivity.
    + cbn [fst snd]. rewrite bind_unfold, (load_run g (self, w) tbl) by exact Hg.
      rewrite (store_run g _ tbl) by exact Hg. cbn [fst snd]. rewrite app_nil_r. reflexivity.
    + rewrite (assign_where_run _ _ _ _ _ tbl) by exact Hg.
      destruct (where_column ext tbl _ (Ok e)) as [tbl' | err]; cbn [mbind result_bind fst snd];
        [rewrite app_nil_r; reflexivity | failed].
  - destruct (treatment_is "all" treatment || treatment_is "none" treatment); [failed |].
    destruct (negb (length es =? treatment_len treatment)); [failed |].
    rewrite bind_unfold.
    pose proof (assign_indicators_run self g es treatment (seq 0 (length es)) w tbl Hg) as Hloop.
    destruct (indicators ext es treatment (seq 0 (length es)) tbl) as [tbl' | err];
      cbn [mbind result_bind].
    + rewrite Hloop. rewrite bind_unfold.
      rewrite (load_run g _ tbl')
        by (cbn [snd heap]; apply list_lookup_insert_eq; eapply lookup_lt_Some; exact Hg).
      rewrite bind_unfold, lift_run.
      destruct (count_overlaps es tbl') as [n | err]; cbn [mbind result_bind fst snd];
        [| failed].
      destruct (1 <? n); cbn [warn mret M_ret fst snd heap warnings stdout];
        [reflexivity | rewrite app_nil_r; reflexivity].
    + destruct Hloop as (w' & -> & Htouched). eauto.
Qed.

Lemma predict_outcomes_run (self : t) (w : world R) (g : ref) (stored tbl : DataFrame R) :
  heap w !! g = Some tbl →
  g ≠ gf self →
  heap w !! gf self = Some stored →
  match predicted ext self stored tbl with
  | Ok mw =>
      predict_outcomes ext g (self, w)
      = (Ok (), (with_predicted_df g (with_marginal_outcome (fst mw) self),
                 {| heap := <[g := snd mw]> (heap w);
                    warnings := warnings w; stdout := stdout w |}))
  | Err e => ∃ w', predict_outcomes ext g (self, w) = (Err e, (self, w'))
                   ∧ touched g w w'
  end.
Proof.
  intros Hg Hne Hgf. unfold predicted, predict_outcomes.
  assert (Hlt : g < length (heap w)) by (eapply lookup_lt_Some; exact Hg).
  rewrite bind_unfold. cbn [get_self fst snd].
  rewrite bind_unfold, (load_run g (self, w) tbl) by exact Hg.
  rewrite bind_unfold, (store_run g _ tbl) by exact Hg. cbn [fst snd].
  rewrite bind_unfold.
  destruct (outcome_model_result self) as [m |]; cbn [mbind result_bind mret M_ret raise];
    [| failed].
  rewrite bind_unfold.
  rewrite (load_run g _ (set_col_scalar (outcome self) NaN tbl))
    by (cbn [snd heap]; apply list_lookup_insert_eq; exact Hlt).
  rewrite bind_unfold, lift_run.
  destruct (predict ext m (set_col_scalar (outcome self) NaN tbl)) as [preds | err];
    cbn [mbind result_bind]; [| failed].
  rewrite bind_unfold, lift_run.
  destruct (set_col_array (outcome self) preds (set_col_scalar (outcome self) NaN tbl))
    as [wt | err] eqn:Hset; cbn [mbind result_bind]; [| failed].
  rewrite bind_unfold.
  rewrite (store_run g wt (set_col_scalar (outcome self) NaN tbl))
    by (cbn [snd heap]; apply list_lookup_insert_eq; exact Hlt).
  cbn [fst snd heap warnings stdout]. rewrite list_insert_insert_eq.
  rewrite bind_unfold.
  rewrite (load_run g _ wt) by (cbn [snd heap]; apply list_lookup_insert_eq; exact Hlt).
  rewrite bind_unfold.
  destruct (get_col (outcome self) wt) as [yhat |] eqn:Hy; cbn [mbind result_bind].
  2: { rewrite (getitem_fail _ _ _ Hy). failed. }
  rewrite (getitem_run _ _ _ _ Hy). rewrite bind_unfold.
  destruct (_weights self) as [wc |].
  - rewrite bind_unfold.
    rewrite (load_run (gf self) _ stored)
      by (cbn [snd heap]; rewrite list_lookup_insert_ne by exact Hne; exact Hgf).
    rewrite bind_unfold.
    destruct (get_col wc stored) as [ws |] eqn:Hws; cbn [mbind result_bind].
    2: { rewrite (getitem_fail _ _ _ Hws). failed. }
    rewrite (getitem_run _ _ _ _ Hws). rewrite lift_run.
    destruct (np_average yhat ws) as [mo | err]; cbn [mbind result_bind fst snd]; [| failed].
    reflexivity.
  - cbn [mbind result_bind mret M_ret fst snd]. reflexivity.
Qed.

Lemma insert_alloc {A : Type} (h : list A) (x y : A) :
  <[length h := y]> (h ++ [x]) = h ++ [y].
Proof. rewrite insert_app_r_alt by lia. rewrite Nat.sub_diag. reflexivity. Qed.

(** [fit] from a state whose stored table is [stored]: the result is that of
    [fit_outcome].  A successful call adds the working table to the store
    as a new object and sets [marginal_outcome] and [predicted_df]; a
    failing call leaves the instance as it was, and the objects that were
    there. *)
Lemma fit_computes (self : t) (w : world R) (stored : DataFrame R)
    (treatment : treatment_arg) :
  heap w !! gf self = Some stored →
  match fit_outcome ext self stored treatment with
  | Ok r =>
      fit ext treatment (self, w)
      = (Ok (), (with_predicted_df (length (heap w)) (with_marginal_outcome (fst (fst r)) self),
                 {| heap := heap w ++ [snd (fst r)];
                    warnings := warnings w ++ snd r; stdout := stdout w |}))
  | Err e => ∃ w', fit ext treatment (self, w) = (Err e, (self, w'))
                   ∧ stdout w' = stdout w
                   ∧ ∃ extra, heap w' = heap w ++ extra
  end.
Proof.
  intros Hgf. unfold fit_outcome.
  destruct (model_fit self) eqn:Hfit; cbn [negb].
  2: { rewrite fit_not_model_fit by exact Hfit.
       eexists; split; [reflexivity | split; [reflexivity | exists []; apply eq_sym, app_nil_r]]. }
  assert (Hlt : gf self < length (heap w)) by (eapply lookup_lt_Some; exact Hgf).
  assert (Hgo :
    match (tw ← treated ext (exposure self) treatment stored;
           mw ← predicted ext self stored (fst tw);
           Ok (fst mw, snd mw, snd tw)) with
    | Ok r =>
        (_ ← set_treatment ext (length (heap w)) treatment;
         predict_outcomes ext (length (heap w)))
          (self, {| heap := heap w ++ [stored]; warnings := warnings w; stdout := stdout w |})
        = (Ok (), (with_predicted_df (length (heap w))
                     (with_marginal_outcome (fst (fst r)) self),
                   {| heap := heap w ++ [snd (fst r)];
                      warnings := warnings w ++ snd r; stdout := stdout w |}))
    | Err e =>
        ∃ w', (_ ← set_treatment ext (length (heap w)) treatment;
               predict_outcomes ext (length (heap w)))
                (self, {| heap := heap w ++ [stored];
                          warnings := warnings w; stdout := stdout w |})
              = (Err e, (self, w'))
              ∧ stdout w' = stdout w
              ∧ ∃ extra, heap w' = heap w ++ extra
    end).
  { rewrite bind_unfold.
    pose proof (set_treatment_run self
                  {| heap := heap w ++ [stored]; warnings := warnings w; stdout := stdout w |}
                  (length (heap w)) treatment stored (lookup_alloc _ _)) as Hset.
    destruct (treated ext (exposure self) treatment stored) as [[tbl' warns] | err];
      cbn [mbind result_bind fst snd] in *.
    - rewrite Hset. cbv beta iota. cbn [heap warnings stdout].
      pose proof (predict_outcomes_run self
                    {| heap := <[length (heap w) := tbl']> (heap w ++ [stored]);
                       warnings := warnings w ++ warns; stdout := stdout w |}
                    (length (heap w)) stored tbl') as Hpred.
      cbn [heap warnings stdout] in Hpred.
      rewrite insert_alloc in *.
      specialize (Hpred (lookup_alloc _ _) (ltac:(lia)) (lookup_alloc_old _ _ _ _ Hgf)).
      destruct (predicted ext self stored tbl') as [[mo wt] | err];
        cbn [mbind result_bind fst snd] in *.
      + rewrite Hpred. rewrite insert_alloc. reflexivity.
      + destruct Hpred as (w' & -> & Hout & _ & Hheap).
        eexists; split; [reflexivity | split; [exact Hout |]].
        destruct Hheap as [-> | [tbl2 ->]]; rewrite ?insert_alloc; eauto.
    - destruct Hset as (w' & -> & Hout & _ & Hheap). cbn [heap stdout] in *.
      eexists; split; [reflexivity | split; [exact Hout |]].
      destruct Hheap as [-> | [tbl2 ->]]; rewrite ?insert_alloc; eauto. }
  destruct treatment.
  - rewrite (fit_run ext _ _ _ stored) by (assumption || discriminate). exact Hgo.
  - rewrite (fit_run ext _ _ _ stored) by (assumption || discriminate). exact Hgo.
  - eexists. unfold fit. rewrite bind_unfold. cbn [get_self fst snd].
    rewrite Hfit. cbn [negb raise].
    split; [reflexivity | split; [reflexivity | exists []; apply eq_sym, app_nil_r]].
Qed.

End FitComputes.

Section FitProperties.
Context {R : Type} `{Numeric R} {model : Type}.
Variable ext : Collaborators R model.

Import TimeFixedGFormula FitOutcome.


(** Without a table behind [self.gf] the call stops before it changes
    anything. *)
Lemma fit_without_table (self : t) (w : world R) (treatment : treatment_arg) :
  heap w !! gf self = None → ∃ e, fit ext treatment (self, w) = (Err e, (self, w)).
Proof.
  intros Hgf. unfold fit, copy. rewrite bind_unfold. cbn [get_self fst snd].
  destruct (negb (model_fit self)); [eauto |].
  destruct treatment; [| | eauto];
    rewrite !bind_unfold; unfold load; cbn [fst snd]; rewrite Hgf; eauto.
Qed.

(** A successful [fit], in terms of [fit_outcome]. *)
Lemma fit_Ok_outcome (self self' : t) (w w' : world R) (treatment : treatment_arg) :
  fit ext treatment (self, w) = (Ok (), (self', w')) →
  ∃ stored mo wt warns,
    heap w !! gf self = Some stored
    ∧ fit_outcome ext self stored treatment = Ok (mo, wt, warns)
    ∧ self' = with_predicted_df (length (heap w)) (with_marginal_outcome mo self)
    ∧ w' = {| heap := heap w ++ [wt]; warnings := warnings w ++ warns; stdout := stdout w |}.
Proof.
  intros Hrun.
  destruct (heap w !! gf self) as [stored |] eqn:Hgf.
  - pose proof (fit_computes ext self w stored treatment Hgf) as Hc.
    destruct (fit_outcome ext self stored treatment) as [[[mo wt] warns] | err] eqn:Hout.
    + cbn [fst snd] in Hc. rewrite Hc in Hrun. injection Hrun as <- <-.
      exists stored, mo, wt, warns. repeat split; try reflexivity. exact Hout.
    + destruct Hc as (w1 & Hc & _). rewrite Hc in Hrun. discriminate.
  - destruct (fit_without_table self w treatment Hgf) as [e He].
    rewrite He in Hrun. discriminate.
Qed.

(** X1. What [fit] leaves alone.  Whether it succeeds or fails, [fit] keeps
    the configuration of the instance, prints nothing, and changes no
    object that was in the store, the estimator's own table included; when
    it fails, the earlier [marginal_outcome] and [predicted_df] stay too. *)
Theorem fit_frame (self self' : t) (w w' : world R) (treatment : treatment_arg)
    (r : result unit) :
  fit ext treatment (self, w) = (r, (self', w')) →
  same_configuration self self'
  ∧ gf self' = gf self
  ∧ outcome_type self' = outcome_type self
  ∧ stdout w' = stdout w
  ∧ (∀ l tbl, heap w !! l = Some tbl → heap w' !! l = Some tbl)
  ∧ (∀ e, r = Err e → self' = self).
Proof.
  intros Hrun.
  assert (Hcases : (∃ mo wt warns,
                      fit ext treatment (self, w)
                      = (Ok (), (with_predicted_df (length (heap w))
                                   (with_marginal_outcome mo self),
                                 {| heap := heap w ++ [wt];
                                    warnings := warnings w ++ warns; stdout := stdout w |})))
                   ∨ (∃ e w1 extra, fit ext treatment (self, w) = (Err e, (self, w1))
                                    ∧ stdout w1 = stdout w ∧ heap w1 = heap w ++ extra)).
  { destruct (heap w !! gf self) as [stored |] eqn:Hgf.
    - pose proof (fit_computes ext self w stored treatment Hgf) as Hc.
      destruct (fit_outcome ext self stored treatment) as [[[mo wt] warns] | err].
      + left. eauto.
      + right. destruct Hc as (w1 & Hc & Hout & extra & Hheap). eauto 10.
    - right. destruct (fit_without_table self w treatment Hgf) as [e He].
      exists e, w, []. rewrite app_nil_r. eauto. }
  destruct Hcases as [(mo & wt & warns & Heq) | (e & w1 & extra & Heq & Hout & Hheap)];
    rewrite Heq in Hrun; injection Hrun as <- <- <-; cbn [heap stdout].
  - repeat split; try reflexivity.
    + intros l tbl Hl. apply lookup_app_l_Some. exact Hl.
    + intros e [=].
  - repeat split; try reflexivity; try assumption.
    intros l tbl Hl. rewrite Hheap. apply lookup_app_l_Some. exact Hl.
Qed.



(** How the pure steps shape the table. *)
Lemma where_column_Ok (tbl tbl' : DataFrame R) (expr c : result string) :
  where_column ext tbl expr c = Ok tbl' →
  ∃ e cond name,
    expr = Ok e ∧ c = Ok name ∧ py_eval ext e tbl = Ok cond
    ∧ length cond = nrows tbl ∧ tbl' = set_col name (np_where_1_0 cond) tbl.
Proof.
  unfold where_column.
  destruct expr as [e | err]; cbn [mbind result_bind]; [| discriminate].
  destruct (py_eval ext e tbl) as [cond | err] eqn:Hev; cbn [mbind result_bind];
    [| discriminate].
  destruct c as [name | err]; cbn [mbind result_bind]; [| discriminate].
  intros Hset. apply set_col_array_Ok in Hset as [-> Hlen].
  unfold np_where_1_0 in Hlen. rewrite length_map in Hlen.
  exists e, cond, name. repeat split; try reflexivity; assumption.
Qed.

(** A column is an indicator when it holds, for some condition on the rows,
    1 where it is true and 0 where it is false. *)
Lemma indicators_Ok (es : list string) (treatment : treatment_arg) (range : list nat) :
  ∀ tbl tbl' : DataFrame R,
    indicators ext es treatment range tbl = Ok tbl' →
    nrows tbl' = nrows tbl
    ∧ (∀ c cond, get_col c tbl = Some (np_where_1_0 cond) → length cond = nrows tbl →
         ∃ cond', get_col c tbl' = Some (np_where_1_0 cond') ∧ length cond' = nrows tbl)
    ∧ (∀ i c, i ∈ range → es !! i = Some c →
         ∃ cond', get_col c tbl' = Some (np_where_1_0 cond') ∧ length cond' = nrows tbl).
Proof.
  induction range as [| i rest IH]; intros tbl tbl'; cbn [indicators].
  - intros [= <-]. repeat split; [eauto |]. intros i c Hin. inversion Hin.
  - destruct (where_column ext tbl (treatment_item treatment i) (exposure_item es i))
      as [tbl1 |] eqn:Hstep; cbn [mbind result_bind]; [| discriminate].
    intros Hrest.
    apply where_column_Ok in Hstep as (e & cond & name & _ & Hname & _ & Hlen & ->).
    destruct (IH _ _ Hrest) as (Hrows & Hkeep & Hnew).
    rewrite nrows_set_col in *.
    assert (Hstepkeep : ∀ c cond0, get_col c tbl = Some (np_where_1_0 cond0) →
                          length cond0 = nrows tbl →
                          ∃ cond1, get_col c (set_col name (np_where_1_0 cond) tbl)
                                   = Some (np_where_1_0 cond1) ∧ length cond1 = nrows tbl).
    { intros c cond0 Hc Hl0. destruct (decide (name = c)) as [-> | Hne].
      - exists cond. rewrite get_col_set_col_eq. split; [reflexivity | exact Hlen].
      - exists cond0. rewrite get_col_set_col_ne by exact Hne. split; assumption. }
    split; [exact Hrows |]. split.
    + intros c cond0 Hc Hl0.
      destruct (Hstepkeep c cond0 Hc Hl0) as (cond1 & Hc1 & Hl1).
      apply (Hkeep c cond1 Hc1 Hl1).
    + intros j c Hin Hj. apply elem_of_cons in Hin as [-> | Hin].
      * unfold exposure_item in Hname. rewrite Hj in Hname. injection Hname as <-.
        apply (Hkeep c cond); [apply get_col_set_col_eq | exact Hlen].
      * apply (Hnew j c Hin Hj).
Qed.

Lemma predicted_Ok (self : t) (stored tbl wt : DataFrame R) (mo : cell R) :
  predicted ext self stored tbl = Ok (mo, wt) →
  ∃ m preds,
    outcome_model_result self = Some m
    ∧ predict ext m (set_col_scalar (outcome self) NaN tbl) = Ok preds
    ∧ length preds = nrows tbl
    ∧ wt = set_col (outcome self) preds (set_col_scalar (outcome self) NaN tbl)
    ∧ match _weights self with
      | None => mo = np_mean preds
      | Some c => ∃ ws, get_col c stored = Some ws ∧ np_average preds ws = Ok mo
      end.
Proof.
  unfold predicted. cbv zeta.
  destruct (outcome_model_result self) as [m |]; cbn [mbind result_bind]; [| discriminate].
  destruct (predict ext m _) as [preds | err] eqn:Hp; cbn [mbind result_bind];
    [| discriminate].
  destruct (set_col_array _ preds _) as [wt1 | err] eqn:Hset; cbn [mbind result_bind];
    [| discriminate].
  apply set_col_array_Ok in Hset as [-> Hlen].
  rewrite get_col_set_col_eq. cbn [mbind result_bind].
  destruct (_weights self) as [c |].
  - destruct (get_col c stored) as [ws |]; cbn [mbind result_bind]; [| discriminate].
    destruct (np_average preds ws) as [mo1 | err] eqn:Havg; cbn [mbind result_bind];
      [| discriminate].
    intros [= <- <-]. exists m, preds. repeat split; try reflexivity; try assumption. eauto.
  - cbn [mbind result_bind]. intros [= <- <-].
    exists m, preds. repeat split; try reflexivity; assumption.
Qed.

(** The row sums of the indicator columns, row by row. *)
Lemma row_sums_rows (n : nat) (tbl : DataFrame R) (es : list string)
    (cols : list (list (cell R))) :
  Forall2 (λ c col, get_col c tbl = Some col ∧ length col = n) es cols →
  row_sums n es tbl
  = Ok (map (λ r, foldr (λ col acc, match col !! r with
                                    | Some (Some x) => radd x acc
                                    | _ => acc
                                    end) r0 cols)
            (seq 0 n)).
Proof.
  induction 1 as [| c col es cols [Hc Hlen] _ IH]; cbn [row_sums foldr].
  - f_equal. apply list_eq. intros i. rewrite list_lookup_fmap.
    destruct (decide (i < n)) as [Hi | Hi].
    + rewrite lookup_replicate_2, lookup_seq_lt by exact Hi. reflexivity.
    + rewrite lookup_seq_ge by lia. apply lookup_replicate_None. lia.
  - rewrite Hc, IH. f_equal. apply list_eq. intros i.
    rewrite lookup_zip_with, !list_lookup_fmap. unfold cell in *.
    destruct (decide (i < n)) as [Hi | Hi].
    + rewrite lookup_seq_lt by exact Hi.
      destruct (lookup_lt_is_Some_2 col i) as [x Hx]; [lia |].
      cbn [fmap option_fmap option_map mbind option_bind Nat.add]. cbv beta.
      rewrite !Hx. cbn [mbind option_bind]. destruct x; reflexivity.
    + rewrite lookup_seq_ge by lia.
      destruct (col !! i); reflexivity.
Qed.

Lemma sum_list_indicator {A : Type} (p : A → bool) (l : list A) :
  sum_list (map (λ a, if p a then 1 else 0) l) = length (filter (λ a, p a = true) l).
Proof.
  induction l as [| a l IH]; [reflexivity |].
  cbn [map sum_list]. rewrite filter_cons, IH.
  destruct (decide (p a = true)) as [Hd | Hd].
  - rewrite Hd. reflexivity.
  - destruct (p a); [congruence | reflexivity].
Qed.

Lemma Forall2_columns {A B : Type} (P : A → B → Prop) (l : list A) :
  (∀ i a, l !! i = Some a → ∃ b, P a b) → ∃ bs, Forall2 P l bs.
Proof.
  induction l as [| a l IH]; intros Hall; [exists []; constructor |].
  destruct (Hall 0 a eq_refl) as [b Hb].
  destruct IH as [bs Hbs]; [intros i a' Hi; apply (Hall (S i) a' Hi) |].
  exists (b :: bs). constructor; assumption.
Qed.

(** X4. The overlap warning, as the code issues it.  A successful [fit] on
    a binary exposure adds no warning.  On a list of indicators, take the
    indicator columns of the table with the indicators set, one cell per
    row, and call a row overlapping when its indicators sum to more than
    1: [fit] adds the overlap warning exactly when more than one row is
    overlapping, and nothing else. *)
Theorem fit_warnings (self self' : t) (w w' : world R) (treatment : treatment_arg) :
  fit ext treatment (self, w) = (Ok (), (self', w')) →
  ∃ stored tbl preds,
    heap w !! gf self = Some stored
    ∧ heap w' !! length (heap w)
      = Some (set_col (outcome self) preds (set_col_scalar (outcome self) NaN tbl))
    ∧ match exposure self with
      | Scalar _ => warnings w' = warnings w
      | Multi es =>
          ∃ cols : list (list (cell R)),
            Forall2 (λ c col, get_col c tbl = Some col ∧ length col = nrows stored) es cols
            ∧ let row_sum := λ r : nat,
                  foldr (λ col acc, match col !! r with
                                    | Some (Some x) => radd x acc
                                    | _ => acc
                                    end) r0 cols in
              let overlapping :=
                  filter (λ r, rltb r1 (row_sum r) = true) (seq 0 (nrows stored)) in
              warnings w'
              = warnings w ++ (if 1 <? length overlapping then [overlap_warning] else [])
      end.
Proof.
  intros Hrun.
  apply fit_Ok_outcome in Hrun as (stored & mo & wt & warns & Hgf & Hout & -> & ->).
  unfold fit_outcome in Hout.
  destruct (negb (model_fit self)); [discriminate |].
  assert (Hgo : (tw ← treated ext (exposure self) treatment stored;
                 mw ← predicted ext self stored (fst tw);
                 Ok (fst mw, snd mw, snd tw)) = Ok (mo, wt, warns))
    by (destruct treatment; [exact Hout | exact Hout | discriminate]).
  clear Hout.
  destruct (treated ext (exposure self) treatment stored) as [[tbl ws] |] eqn:Ht;
    cbn [mbind result_bind fst snd] in Hgo; [| discriminate].
  destruct (predicted ext self stored tbl) as [[mo1 wt1] |] eqn:Hp;
    cbn [mbind result_bind fst snd] in Hgo; [| discriminate].
  injection Hgo as -> -> ->.
  apply predicted_Ok in Hp as (m & preds & _ & _ & _ & -> & _).
  exists stored, tbl, preds. cbn [heap warnings].
  split; [exact Hgf |]. split; [apply lookup_alloc |].
  unfold treated in Ht. destruct (exposure self) as [e | es].
  - destruct (is_list treatment); [discriminate |].
    destruct (treatment_is "all" treatment);
      [injection Ht as <- <-; apply app_nil_r |].
    destruct (treatment_is "none" treatment);
      [injection Ht as <- <-; apply app_nil_r |].
    destruct (where_column ext stored _ (Ok e)); cbn [mbind result_bind] in Ht;
      [injection Ht as <- <-; apply app_nil_r | discriminate].
  - destruct (treatment_is "all" treatment || treatment_is "none" treatment);
      [discriminate |].
    destruct (negb (length es =? treatment_len treatment)); [discriminate |].
    destruct (indicators ext es treatment (seq 0 (length es)) stored) as [tbl1 |] eqn:Hloop;
      cbn [mbind result_bind] in Ht; [| discriminate].
    destruct (count_overlaps es tbl1) as [n |] eqn:Hn; cbn [mbind result_bind] in Ht;
      [| discriminate].
    injection Ht as <- <-.
    apply indicators_Ok in Hloop as (Hrows & _ & Hnew).
    destruct (Forall2_columns
                (λ c col, get_col c tbl1 = Some col ∧ length col = nrows stored) es)
      as [cols Hcols].
    { intros i c Hi. destruct (Hnew i c) as (cond & Hc & Hlen); [| exact Hi |].
      - apply elem_of_seq. apply lookup_lt_Some in Hi. lia.
      - exists (np_where_1_0 cond). split; [exact Hc |].
        unfold np_where_1_0. rewrite length_map. exact Hlen. }
    exists cols. split; [exact Hcols |]. cbv zeta.
    unfold count_overlaps in Hn. rewrite Hrows in Hn.
    rewrite (row_sums_rows (nrows stored) tbl1 es cols Hcols) in Hn.
    injection Hn as <-. rewrite map_map, sum_list_indicator. reflexivity.
Qed.


(** X6. When [fit] succeeds on a binary exposure.  On a fitted instance
    with a binary exposure [e], let [col] be the exposure the plan assigns:
    1 in every row for ['all'], 0 in every row for ['none'], and for any
    other string the plan evaluated on the stored table, one truth value
    per row, cast to 1 and 0.  If the fitted model predicts one value per
    row for the stored table with [e] replaced by [col], then [fit]
    succeeds: [marginal_outcome] is the mean of these predictions (weighted
    by the weights column when one is configured and present), and the
    working table is a new object. *)
Theorem fit_binary_succeeds (self : t) (w : world R) (e plan : string)
    (col : list (cell R)) (stored : DataFrame R) (m : model) (preds : list (cell R))
    (mo : cell R) :
  (plan = "all" ∧ col = replicate (nrows stored) (Some r1))
  ∨ (plan = "none" ∧ col = replicate (nrows stored) (Some r0))
  ∨ (plan ≠ "all" ∧ plan ≠ "none"
     ∧ ∃ cond, py_eval ext plan stored = Ok cond ∧ length cond = nrows stored
               ∧ col = np_where_1_0 cond) →
  model_fit self = true →
  outcome_model_result self = Some m →
  exposure self = Scalar e →
  heap w !! gf self = Some stored →
  predict ext m (set_col_scalar (outcome self) NaN (set_col e col stored)) = Ok preds →
  length preds = nrows stored →
  match _weights self with
  | None => mo = np_mean preds
  | Some c => ∃ ws, get_col c stored = Some ws ∧ np_average preds ws = Ok mo
  end →
  fit ext (TStr plan) (self, w)
  = (Ok (), (with_predicted_df (length (heap w)) (with_marginal_outcome mo self),
             {| heap := heap w ++ [set_col (outcome self) preds
                                     (set_col_scalar (outcome self) NaN
                                        (set_col e col stored))];
                warnings := warnings w; stdout := stdout w |})).
Proof.
  intros Hplan Hfit Hm Hexp Hgf Hp Hlen Hmo.
  pose proof (fit_computes ext self w stored (TStr plan) Hgf) as Hc.
  assert (Hout : fit_outcome ext self stored (TStr plan)
                 = Ok (mo, set_col (outcome self) preds
                             (set_col_scalar (outcome self) NaN (set_col e col stored)), [])).
  { unfold fit_outcome. rewrite Hfit, Hexp. cbn [negb].
    assert (Ht : treated ext (Scalar e) (TStr plan) stored = Ok (set_col e col stored, [])).
    { destruct Hplan as [[-> ->] | [[-> ->] | (Hna & Hnn & cond & Hev & Hlc & ->)]];
        [reflexivity | reflexivity |].
      unfold treated. cbn [is_list treatment_is].
      apply String.eqb_neq in Hna, Hnn. rewrite Hna, Hnn.
      unfold where_column. cbn [mbind result_bind]. rewrite Hev. cbn [mbind result_bind].
      unfold set_col_array, np_where_1_0. rewrite length_map, Hlc, Nat.eqb_refl.
      reflexivity. }
    rewrite Ht. cbn [mbind result_bind fst snd].
    unfold predicted. cbv zeta. rewrite Hm. cbn [mbind result_bind]. rewrite Hp.
    cbn [mbind result_bind]. unfold set_col_array.
    assert (Hn : (length preds =? nrows (set_col_scalar (outcome self) NaN
                                           (set_col e col stored))) = true)
      by (apply Nat.eqb_eq; exact Hlen).
    rewrite Hn. cbn [mbind result_bind]. rewrite get_col_set_col_eq.
    cbn [mbind result_bind].
    destruct (_weights self) as [c |].
    - destruct Hmo as (ws & Hws & Havg). rewrite Hws. cbn [mbind result_bind].
      rewrite Havg. reflexivity.
    - subst mo. reflexivity. }
  rewrite Hout in Hc. cbn [fst snd] in Hc. rewrite app_nil_r in Hc. exact Hc.
Qed.

End FitProperties.

Lemma fit_frame_witness :
  let self := Demo.tf_fitted (TimeFixedGFormula.Scalar "art") (Some "w") in
  let run := TimeFixedGFormula.fit Demo.ext (TimeFixedGFormula.TStr "young") (self, Demo.world1) in
  FitOutcome.same_configuration self run.2.1
  ∧ TimeFixedGFormula.gf run.2.1 = TimeFixedGFormula.gf self
  ∧ TimeFixedGFormula.outcome_type run.2.1 = TimeFixedGFormula.outcome_type self
  ∧ stdout run.2.2 = stdout Demo.world1
  ∧ (∀ l tbl, heap Demo.world1 !! l = Some tbl → heap run.2.2 !! l = Some tbl)
  ∧ (∀ e, run.1 = Err e → run.2.1 = self).
Proof.
  cbv zeta.
  refine (fit_frame Demo.ext _ _ _ _ (TimeFixedGFormula.TStr "young") _ _).
  vm_compute. reflexivity.
Defined.



Lemma fit_warnings_witness :
  warnings (TimeFixedGFormula.fit Demo.ext (TimeFixedGFormula.TList ["male"; "old"])
              (Demo.tf_two_drugs, Demo.world_two_drugs)).2.2
  = [TimeFixedGFormula.overlap_warning]
  ∧ warnings (TimeFixedGFormula.fit Demo.ext (TimeFixedGFormula.TList ["male"; "young"])
                (Demo.tf_two_drugs, Demo.world_two_drugs)).2.2
    = [].
Proof.
  assert (Hplan : ∀ plan : list string,
            (TimeFixedGFormula.fit Demo.ext (TimeFixedGFormula.TList plan)
               (Demo.tf_two_drugs, Demo.world_two_drugs)).1 = Ok () →
            ∃ col_a col_b,
              (∃ wt, heap (TimeFixedGFormula.fit Demo.ext (TimeFixedGFormula.TList plan)
                             (Demo.tf_two_drugs, Demo.world_two_drugs)).2.2 !! 2 = Some wt
                     ∧ get_col "drug_a" wt = Some col_a
                     ∧ get_col "drug_b" wt = Some col_b)
              ∧ warnings (TimeFixedGFormula.fit Demo.ext (TimeFixedGFormula.TList plan)
                            (Demo.tf_two_drugs, Demo.world_two_drugs)).2.2
                = if 1 <? length
                           (filter (λ r, Z.ltb 1 (foldr (λ (col : list (cell Z)) acc,
                                                           match col !! r with
                                                           | Some (Some x) => (x + acc)%Z
                                                           | _ => acc
                                                           end) 0%Z [col_a; col_b]) = true)
                                   (seq 0 4))
                  then [TimeFixedGFormula.overlap_warning] else []).
  { intros plan Hok.
    destruct (fit_warnings Demo.ext Demo.tf_two_drugs
                (TimeFixedGFormula.fit Demo.ext (TimeFixedGFormula.TList plan)
                   (Demo.tf_two_drugs, Demo.world_two_drugs)).2.1
                Demo.world_two_drugs
                (TimeFixedGFormula.fit Demo.ext (TimeFixedGFormula.TList plan)
                   (Demo.tf_two_drugs, Demo.world_two_drugs)).2.2
                (TimeFixedGFormula.TList plan))
      as (stored & tbl & preds & Hgf & Hwt & cols & Hcols & Hwarn).
    { destruct (TimeFixedGFormula.fit Demo.ext (TimeFixedGFormula.TList plan)
                  (Demo.tf_two_drugs, Demo.world_two_drugs)) as [r [self' w']].
      cbn [fst snd] in *. subst r. reflexivity. }
    injection Hgf as <-.
    apply Forall2_cons_inv_l in Hcols as (col_a & cols1 & [Ha _] & Hcols & ->).
    apply Forall2_cons_inv_l in Hcols as (col_b & cols2 & [Hb _] & Hcols & ->).
    apply Forall2_nil_inv_l in Hcols as ->.
    exists col_a, col_b. split; [| exact Hwarn].
    eexists. split; [exact Hwt |]. unfold set_col_scalar.
    rewrite !get_col_set_col_ne by discriminate. split; assumption. }
  split.
  - destruct (Hplan ["male"; "old"]) as (col_a & col_b & (wt & Hwt & Ha & Hb) & ->);
      [vm_compute; reflexivity |].
    vm_compute in Hwt. injection Hwt as <-.
    vm_compute in Ha. injection Ha as <-.
    vm_compute in Hb. injection Hb as <-.
    vm_compute. reflexivity.
  - destruct (Hplan ["male"; "young"]) as (col_a & col_b & (wt & Hwt & Ha & Hb) & ->);
      [vm_compute; reflexivity |].
    vm_compute in Hwt. injection Hwt as <-.
    vm_compute in Ha. injection Ha as <-.
    vm_compute in Hb. injection Hb as <-.
    vm_compute. reflexivity.
Defined.


Lemma fit_binary_succeeds_witness :
  let self := Demo.tf_fitted (TimeFixedGFormula.Scalar "art") (Some "w") in
  TimeFixedGFormula.fit Demo.ext (TimeFixedGFormula.TStr "male") (self, Demo.world1)
  = (Ok (), (TimeFixedGFormula.with_predicted_df 2
               (TimeFixedGFormula.with_marginal_outcome (Some 4%Z) self),
             {| heap := [Demo.table; Demo.table;
                         set_col "dead" (Demo.nums [5; 5; 3; 3]%Z)
                           (set_col_scalar "dead" NaN
                              (set_col "art" (Demo.nums [1; 1; 0; 0]%Z) Demo.table))];
                warnings := []; stdout := [] |})).
Proof.
  cbv zeta.
  refine (fit_binary_succeeds Demo.ext
            (Demo.tf_fitted (TimeFixedGFormula.Scalar "art") (Some "w")) Demo.world1
            "art" "male" (Demo.nums [1; 1; 0; 0]%Z) Demo.table "art"
            (Demo.nums [5; 5; 3; 3]%Z) (Some 4%Z) _ eq_refl eq_refl eq_refl eq_refl
            eq_refl eq_refl _).
  - right. right. split; [discriminate |]. split; [discriminate |].
    exists [true; true; false; false]. repeat split.
  - exists (Demo.nums [1; 2; 1; 2]%Z). split; reflexivity.
Defined.


(** ** [TimeFixedGFormula]: construction, [outcome_model], and what [fit] refuses *)

Section TimeFixedSetup.
Context {R : Type} `{Numeric R} {model : Type}.
Variable ext : Collaborators R model.

Import TimeFixedGFormula.

(** X7. The constructor accepts the outcome types ['binary'] and
    ['continuous'] only: any other value ends it in a [ValueError] (after
    the table was copied; the caller's table is as it was). *)
Theorem init_rejects_outcome_type (df : ref) (exposure : exposure_arg)
    (outcome outcome_type : string) (weights : option string) (w : world R)
    (tbl : DataFrame R) :
  heap w !! df = Some tbl →
  outcome_type ≠ "binary" →
  outcome_type ≠ "continuous" →
  ∃ msg w',
    __init__ (model := model) df exposure outcome outcome_type weights ((), w)
    = (Err (ValueError msg), ((), w'))
    ∧ heap w' !! df = Some tbl.
Proof.
  intros Hdf Hb Hc. unfold __init__.
  rewrite bind_unfold, (copy_run df ((), w) tbl) by exact Hdf.
  apply String.eqb_neq in Hb, Hc. rewrite Hb, Hc. cbn [orb raise].
  eexists. eexists. split; [reflexivity |]. cbn [heap]. apply lookup_alloc_old. exact Hdf.
Qed.

(** X8. With a valid outcome type the constructor returns an instance that
    is not fitted and has no result yet, whose table is a new object
    holding the same data as the caller's table. *)
Theorem init_private_copy (df : ref) (exposure : exposure_arg)
    (outcome outcome_type : string) (weights : option string) (w : world R)
    (tbl : DataFrame R) :
  heap w !! df = Some tbl →
  outcome_type = "binary" ∨ outcome_type = "continuous" →
  ∃ self w',
    __init__ (model := model) df exposure outcome outcome_type weights ((), w)
    = (Ok self, ((), w'))
    ∧ gf self ≠ df
    ∧ heap w !! gf self = None
    ∧ heap w' !! gf self = Some tbl
    ∧ heap w' !! df = Some tbl
    ∧ model_fit self = false
    ∧ outcome_model_result self = None
    ∧ marginal_outcome self = None
    ∧ predicted_df self = None
    ∧ TimeFixedGFormula.exposure self = exposure
    ∧ TimeFixedGFormula.outcome self = outcome
    ∧ _weights self = weights.
Proof.
  intros Hdf Htype. unfold __init__.
  rewrite bind_unfold, (copy_run df ((), w) tbl) by exact Hdf.
  assert (Hok : String.eqb outcome_type "binary" || String.eqb outcome_type "continuous"
                = true) by (destruct Htype as [-> | ->]; reflexivity).
  rewrite Hok. cbn [mret M_ret fst snd].
  eexists. eexists. split; [reflexivity |].
  cbn [gf heap model_fit outcome_model_result marginal_outcome predicted_df
       TimeFixedGFormula.exposure TimeFixedGFormula.outcome _weights].
  assert (Hlt : df < length (heap w)) by (eapply lookup_lt_Some; exact Hdf).
  repeat split; try reflexivity.
  - lia.
  - apply lookup_ge_None. lia.
  - apply lookup_alloc.
  - apply lookup_alloc_old. exact Hdf.
Qed.

(** After a successful [outcome_model] the attribute holds a fitted model. *)
Lemma outcome_model_holds_result (self self' : t) (w w' : world R) (model_ : string)
    (print_results : bool) :
  outcome_model ext model_ print_results (self, w) = (Ok (), (self', w')) →
  ∃ m, outcome_model_result self' = Some m.
Proof.
  unfold outcome_model. rewrite bind_unfold. cbn [get_self fst snd].
  destruct (outcome_model_result self) as [m0 |]; [intros [=] |].
  destruct (_weights self), print_results; mrun; intros [= <- <-];
    cbn [outcome_model_result with_model_fit with_outcome_model_result]; eauto.
Qed.

(** X9. What a successful [outcome_model] did.  It fitted the formula
    [outcome ~ model] on the stored table: with [glm] when no weights are
    configured, with [gee] grouped by the row labels and weighted by the
    weights column otherwise; the family is the binomial one for a
    ['binary'] outcome and the Gaussian one for any other.  The instance
    holds the fitted model and is marked as fit, the summary was printed
    when asked for, and no table changed. *)
Theorem outcome_model_Ok (self self' : t) (w w' : world R) (model_ : string)
    (print_results : bool) :
  outcome_model ext model_ print_results (self, w) = (Ok (), (self', w')) →
  ∃ stored m,
    outcome_model_result self = None
    ∧ heap w !! gf self = Some stored
    ∧ match _weights self with
      | None =>
          glm_fit ext (outcome self +:+ " ~ " +:+ model_) stored
            (if String.eqb (outcome_type self) "binary"
             then Binomial_logit else Gaussian_identity) = Ok m
      | Some c =>
          ∃ ws, get_col c stored = Some ws
                ∧ gee_fit ext (outcome self +:+ " ~ " +:+ model_) (index stored) stored
                    (if String.eqb (outcome_type self) "binary"
                     then Binomial_logit else Gaussian_identity) ws = Ok m
      end
    ∧ self' = with_model_fit true (with_outcome_model_result m self)
    ∧ heap w' = heap w
    ∧ warnings w' = warnings w
    ∧ stdout w' = stdout w ++ (if print_results then [summary ext m] else []).
Proof.
  unfold outcome_model. rewrite bind_unfold. cbn [get_self fst snd].
  destruct (outcome_model_result self) as [m0 |]; [intros [=] |].
  rewrite bind_unfold.
  destruct (load_cases (gf self) (self, w)) as [(stored & Hgf & ->) | (_ & ->)];
    [| intros [=]].
  cbn [fst snd] in Hgf. rewrite bind_unfold.
  destruct (_weights self) as [c |].
  - rewrite bind_unfold.
    destruct (getitem_cases c stored (self, w)) as [(ws & Hws & ->) | (_ & ->)];
      [| intros [=]].
    rewrite lift_run.
    destruct (gee_fit ext _ (index stored) stored _ ws) as [m | err] eqn:Hm;
      [| intros [=]].
    rewrite bind_unfold. cbn [set_self fst snd]. rewrite bind_unfold.
    destruct print_results; cbn [print mret M_ret set_self fst snd heap warnings stdout];
      intros [= <- <-]; exists stored, m; cbn [heap warnings stdout];
      rewrite ?app_nil_r; repeat split; try reflexivity; try assumption; eauto.
  - rewrite lift_run.
    destruct (glm_fit ext _ stored _) as [m | err] eqn:Hm; [| intros [=]].
    rewrite bind_unfold. cbn [set_self fst snd]. rewrite bind_unfold.
    destruct print_results; cbn [print mret M_ret set_self fst snd heap warnings stdout];
      intros [= <- <-]; exists stored, m; cbn [heap warnings stdout];
      rewrite ?app_nil_r; repeat split; try reflexivity; assumption.
Qed.

(** X10. The model can be specified once.  After a successful
    [outcome_model] the attribute [self.outcome_model] holds the fitted
    model and hides the method: a second call raises a [TypeError] and
    changes nothing. *)
Theorem outcome_model_twice (self : t) (w : world R) (s1 : t * world R)
    (model1 model2 : string) (print1 print2 : bool) :
  outcome_model ext model1 print1 (self, w) = (Ok (), s1) →
  ∃ msg, outcome_model ext model2 print2 s1 = (Err (TypeError msg), s1).
Proof.
  intros Hrun. destruct s1 as [self1 w1].
  apply outcome_model_holds_result in Hrun as [m Hm].
  unfold outcome_model. rewrite bind_unfold. cbn [get_self fst snd]. rewrite Hm.
  eexists. reflexivity.
Qed.

(** X11. A weights column that the table does not have.  [outcome_model]
    raises the [KeyError] of the lookup and leaves the instance unfitted,
    so that [fit] still raises the configuration error. *)
Theorem outcome_model_missing_weights (self : t) (w : world R) (c : string)
    (stored : DataFrame R) (model_ : string) (print_results : bool)
    (treatment : treatment_arg) :
  outcome_model_result self = None →
  model_fit self = false →
  _weights self = Some c →
  heap w !! gf self = Some stored →
  get_col c stored = None →
  outcome_model ext model_ print_results (self, w) = (Err (KeyError c), (self, w))
  ∧ ∃ msg, fit ext treatment (self, w) = (Err (ValueError msg), (self, w)).
Proof.
  intros Hm Hfit Hw Hgf Hc. split.
  - unfold outcome_model. rewrite bind_unfold. cbn [get_self fst snd]. rewrite Hm.
    rewrite bind_unfold. unfold load. cbn [fst snd]. rewrite Hgf.
    rewrite bind_unfold, Hw, bind_unfold. unfold getitem. rewrite Hc. reflexivity.
  - eexists. apply fit_not_model_fit. exact Hfit.
Qed.

(** X12. The plans [fit] refuses for their type.  A [treatment] that is
    neither a string nor a list, and a list given for a binary exposure,
    end [fit] in a [ValueError]; the instance is as it was. *)
Theorem fit_rejects_treatment_type (self : t) (w : world R) (treatment : treatment_arg)
    (stored : DataFrame R) :
  heap w !! gf self = Some stored →
  treatment = TOther ∨ (∃ e l, exposure self = Scalar e ∧ treatment = TList l) →
  ∃ msg w', fit ext treatment (self, w) = (Err (ValueError msg), (self, w')).
Proof.
  intros Hgf Hcase.
  destruct (model_fit self) eqn:Hfit;
    [| rewrite fit_not_model_fit by exact Hfit; eauto].
  destruct Hcase as [-> | (e & l & Hexp & ->)].
  - unfold fit. rewrite bind_unfold. cbn [get_self fst snd]. rewrite Hfit. cbn [negb raise].
    eauto.
  - rewrite (fit_run ext _ _ _ stored) by (assumption || discriminate).
    rewrite bind_unfold. unfold set_treatment. rewrite bind_unfold. cbn [get_self fst snd].
    rewrite Hexp. cbn [is_list raise]. eauto.
Qed.

End TimeFixedSetup.

Lemma init_rejects_outcome_type_witness :
  ∃ msg w',
    TimeFixedGFormula.__init__ (model := string) 0 (TimeFixedGFormula.Scalar "art") "dead"
      "count" None ((), Demo.world0)
    = (Err (ValueError msg), ((), w'))
    ∧ heap w' !! 0 = Some Demo.table.
Proof.
  apply (init_rejects_outcome_type 0 (TimeFixedGFormula.Scalar "art") "dead" "count" None
           Demo.world0 Demo.table); [reflexivity | discriminate | discriminate].
Defined.

Lemma init_private_copy_witness :
  ∃ self w',
    TimeFixedGFormula.__init__ (model := string) 0 (TimeFixedGFormula.Scalar "art") "dead"
      "continuous" (Some "w") ((), Demo.world0)
    = (Ok self, ((), w'))
    ∧ TimeFixedGFormula.gf self ≠ 0
    ∧ heap Demo.world0 !! TimeFixedGFormula.gf self = None
    ∧ heap w' !! TimeFixedGFormula.gf self = Some Demo.table
    ∧ heap w' !! 0 = Some Demo.table
    ∧ TimeFixedGFormula.model_fit self = false
    ∧ TimeFixedGFormula.outcome_model_result self = None
    ∧ TimeFixedGFormula.marginal_outcome self = None
    ∧ TimeFixedGFormula.predicted_df self = None
    ∧ TimeFixedGFormula.exposure self = TimeFixedGFormula.Scalar "art"
    ∧ TimeFixedGFormula.outcome self = "dead"
    ∧ TimeFixedGFormula._weights self = Some "w".
Proof.
  apply (init_private_copy 0 (TimeFixedGFormula.Scalar "art") "dead" "continuous" (Some "w")
           Demo.world0 Demo.table); [reflexivity | right; reflexivity].
Defined.

Lemma outcome_model_Ok_witness :
  let self := Demo.tf_new (TimeFixedGFormula.Scalar "art") (Some "w") in
  let run := TimeFixedGFormula.outcome_model Demo.ext "art + male" true (self, Demo.world1) in
  ∃ stored m,
    TimeFixedGFormula.outcome_model_result self = None
    ∧ heap Demo.world1 !! 1 = Some stored
    ∧ (∃ ws, get_col "w" stored = Some ws
             ∧ gee_fit Demo.ext "dead ~ art + male" (index stored) stored Binomial_logit ws
               = Ok m)
    ∧ run.2.1 = TimeFixedGFormula.with_model_fit true
                  (TimeFixedGFormula.with_outcome_model_result m self)
    ∧ heap run.2.2 = heap Demo.world1
    ∧ warnings run.2.2 = warnings Demo.world1
    ∧ stdout run.2.2 = stdout Demo.world1 ++ [summary Demo.ext m].
Proof.
  cbv zeta.
  refine (outcome_model_Ok Demo.ext (Demo.tf_new (TimeFixedGFormula.Scalar "art") (Some "w"))
            _ Demo.world1 _ "art + male" true _).
  vm_compute. reflexivity.
Defined.

Lemma outcome_model_twice_witness :
  ∃ msg,
    TimeFixedGFormula.outcome_model Demo.ext "male" false
      (TimeFixedGFormula.outcome_model Demo.ext "art" true
         (Demo.tf_new (TimeFixedGFormula.Scalar "art") None, Demo.world1)).2
    = (Err (TypeError msg),
       (TimeFixedGFormula.outcome_model Demo.ext "art" true
          (Demo.tf_new (TimeFixedGFormula.Scalar "art") None, Demo.world1)).2).
Proof.
  refine (outcome_model_twice Demo.ext (Demo.tf_new (TimeFixedGFormula.Scalar "art") None)
            Demo.world1 _ "art" "male" true false _).
  vm_compute. reflexivity.
Defined.

Lemma outcome_model_missing_weights_witness :
  let self := Demo.tf_new (TimeFixedGFormula.Scalar "art") (Some "ipw") in
  TimeFixedGFormula.outcome_model Demo.ext "art" true (self, Demo.world1)
  = (Err (KeyError "ipw"), (self, Demo.world1))
  ∧ ∃ msg, TimeFixedGFormula.fit Demo.ext (TimeFixedGFormula.TStr "all") (self, Demo.world1)
           = (Err (ValueError msg), (self, Demo.world1)).
Proof.
  cbv zeta.
  apply (outcome_model_missing_weights Demo.ext
           (Demo.tf_new (TimeFixedGFormula.Scalar "art") (Some "ipw")) Demo.world1 "ipw"
           Demo.table "art" true (TimeFixedGFormula.TStr "all")); reflexivity.
Defined.

Lemma fit_rejects_treatment_type_witness :
  ∃ msg w',
    TimeFixedGFormula.fit Demo.ext (TimeFixedGFormula.TList ["male"])
      (Demo.tf_fitted (TimeFixedGFormula.Scalar "art") None, Demo.world1)
    = (Err (ValueError msg), (Demo.tf_fitted (TimeFixedGFormula.Scalar "art") None, w')).
Proof.
  apply (fit_rejects_treatment_type Demo.ext
           (Demo.tf_fitted (TimeFixedGFormula.Scalar "art") None) Demo.world1
           (TimeFixedGFormula.TList ["male"]) Demo.table); [reflexivity |].
  right. exists "art", ["male"]. split; reflexivity.
Defined.

(** ** [GEstimationSNM.__init__]: the private table *)

Section CompleteRows.
Context {R : Type} `{Numeric R}.

Lemma lookup_col_map_values (f : list (cell R) → list (cell R)) (c : string)
    (cols : list (string * list (cell R))) :
  lookup_col c (map (λ p, (fst p, f (snd p))) cols) = f <$> lookup_col c cols.
Proof.
  induction cols as [| [n v] rest IH]; cbn; [reflexivity |].
  destruct (String.eqb n c); [reflexivity | exact IH].
Qed.

Lemma get_col_dropna (c : string) (tbl : DataFrame R) :
  get_col c (dropna tbl) = select (complete_rows tbl) <$> get_col c tbl.
Proof. unfold get_col, dropna. cbn [columns]. apply lookup_col_map_values. Qed.

Lemma has_col_dropna (c : string) (tbl : DataFrame R) :
  has_col c (dropna tbl) = has_col c tbl.
Proof.
  unfold has_col. rewrite get_col_dropna. destruct (get_col c tbl); reflexivity.
Qed.

(** [reset_index] fails only when both names it could give to the column
    of the old labels are taken. *)
Lemma reset_index_free (tbl : DataFrame R) :
  has_col "index" tbl && has_col "level_0" tbl = false →
  reset_index tbl
  = Ok {| index := seq 0 (nrows tbl);
          columns := (index_column_name tbl, map (λ i, Some (rnat i)) (index tbl))
                     :: columns tbl |}.
Proof.
  unfold reset_index, index_column_name. cbv zeta.
  destruct (has_col "index" tbl) eqn:Hi; cbn [andb]; intros Hl; rewrite ?Hl, ?Hi;
    reflexivity.
Qed.

Lemma reset_index_taken (tbl : DataFrame R) :
  has_col "index" tbl = true → has_col "level_0" tbl = true →
  reset_index tbl = Err (ValueError "cannot insert level_0, already exists").
Proof.
  unfold reset_index, index_column_name. cbv zeta. intros -> ->. reflexivity.
Qed.

Lemma distinct_values_sub (x : R) (xs : list (cell R)) :
  x ∈ distinct_values xs → Some x ∈ xs.
Proof.
  induction xs as [| [a |] rest IH]; cbn [distinct_values]; intros Hin.
  - inversion Hin.
  - apply elem_of_cons in Hin as [-> | Hin]; [left |].
    right. apply IH. apply list_elem_of_filter in Hin as [_ Hin]. exact Hin.
  - right. apply IH, Hin.
Qed.

Lemma present_at_lookup (i : nat) (v : list (cell R)) :
  present_at i v = true → ∃ a, v !! i = Some (Some a).
Proof.
  unfold present_at. destruct (v !! i) as [[a |] |]; try discriminate. eauto.
Qed.

(** The cells that [dropna] keeps of a column are all present. *)
Lemma select_present (mask : list bool) :
  ∀ v : list (cell R),
    (∀ i, mask !! i = Some true → present_at i v = true) →
    Forall is_Some (select mask v).
Proof.
  induction mask as [| b mask IH]; intros v Hp; [constructor |].
  destruct v as [| c v]; [constructor |]. cbn [select].
  assert (Hrest : ∀ i, mask !! i = Some true → present_at i v = true)
    by (intros i Hi; apply (Hp (S i)); exact Hi).
  destruct b; [| apply IH, Hrest].
  constructor; [| apply IH, Hrest].
  destruct (present_at_lookup 0 (c :: v) (Hp 0 eq_refl)) as [a Ha].
  cbn in Ha. injection Ha as ->. eauto.
Qed.

(** A column that is long enough for the rows kept gives one cell per row
    kept. *)
Lemma select_length {A B : Type} (mask : list bool) :
  ∀ (v : list A) (idx : list B),
    length idx = length mask →
    (∀ i, mask !! i = Some true → i < length v) →
    length (select mask v) = length (select mask idx).
Proof.
  induction mask as [| b mask IH]; intros v idx Hlen Hv; [reflexivity |].
  destruct idx as [| i0 idx]; [discriminate |]. cbn in Hlen.
  assert (Hrest : ∀ v' : list A, (∀ i, (b :: mask) !! i = Some true → i < length v') →
                    ∀ i, mask !! i = Some true → i < length (tail v')).
  { intros v' Hv' i Hi. specialize (Hv' (S i) Hi). destruct v'; cbn in *; lia. }
  destruct v as [| c v].
  - destruct b; [specialize (Hv 0 eq_refl); cbn in Hv; lia |].
    cbn [select]. rewrite <- (IH [] idx) by (lia || apply (Hrest [] Hv)).
    destruct mask; reflexivity.
  - cbn [select]. destruct b; cbn [length]; rewrite (IH v idx) by (lia || apply (Hrest (c :: v) Hv));
      reflexivity.
Qed.

Lemma select_length_le {A : Type} (mask : list bool) :
  ∀ v : list A, length (select mask v) ≤ length v.
Proof.
  induction mask as [| b mask IH]; intros [| c v]; cbn [select length]; try lia.
  destruct b; cbn [length]; specialize (IH v); lia.
Qed.

Lemma select_all {A : Type} (mask : list bool) :
  ∀ v : list A, length v = length mask →
    (length (select mask v) = length v ↔ Forall (λ b, b = true) mask).
Proof.
  induction mask as [| b mask IH]; intros [| c v] Hlen; try discriminate.
  - split; [constructor | reflexivity].
  - cbn in Hlen. cbn [select]. destruct b; cbn [length].
    + rewrite Forall_cons. rewrite <- (IH v) by lia. split; [intros; split; [done | lia] | lia].
    + pose proof (select_length_le mask v). split; [lia |].
      intros Hall. apply Forall_cons in Hall as [Hb _]. discriminate.
Qed.

Lemma complete_rows_lookup (tbl : DataFrame R) (i : nat) :
  complete_rows tbl !! i = Some true →
  i < nrows tbl ∧ ∀ p, p ∈ columns tbl → present_at i (snd p) = true.
Proof.
  unfold complete_rows. rewrite list_lookup_fmap.
  destruct (seq 0 (nrows tbl) !! i) as [j |] eqn:Hj; [| discriminate].
  apply lookup_seq in Hj as [-> Hlt]. cbn. intros [= Hall].
  split; [exact Hlt |]. intros p Hp.
  rewrite forallb_forall in Hall. apply Hall, list_elem_of_In, Hp.
Qed.

Lemma length_complete_rows (tbl : DataFrame R) : length (complete_rows tbl) = nrows tbl.
Proof. unfold complete_rows. rewrite length_map, length_seq. reflexivity. Qed.

(** [dropna] gives a table with no missing cell, every column as long as
    the index. *)
Lemma dropna_complete (tbl : DataFrame R) :
  Forall (λ p, length (snd p) = nrows (dropna tbl) ∧ Forall is_Some (snd p))
         (columns (dropna tbl)).
Proof.
  unfold dropna at 2. cbn [columns]. apply Forall_fmap, Forall_forall.
  intros [n v] Hp. cbn [fst snd]. split.
  - unfold nrows, dropna. cbn [index]. apply select_length.
    + symmetry. apply length_complete_rows.
    + intros i Hi. apply complete_rows_lookup in Hi as [_ Hall].
      destruct (present_at_lookup i v (Hall _ Hp)) as [a Ha].
      eapply lookup_lt_Some, Ha.
  - apply select_present. intros i Hi.
    apply complete_rows_lookup in Hi as [_ Hall]. apply (Hall _ Hp).
Qed.

(** No row is dropped exactly when every row is complete. *)
Lemma nrows_dropna (tbl : DataFrame R) :
  nrows (dropna tbl) = nrows tbl ↔ Forall (λ b, b = true) (complete_rows tbl).
Proof.
  unfold nrows at 1, dropna. cbn [index]. apply select_all.
  symmetry. apply length_complete_rows.
Qed.

Lemma nrows_dropna_le (tbl : DataFrame R) : nrows (dropna tbl) ≤ nrows tbl.
Proof. unfold nrows at 1, dropna. cbn [index]. apply select_length_le. Qed.

End CompleteRows.

Section SNMConstruction.
Context {R : Type} `{Numeric R}.

Import GEstimationSNM.

(** What the constructor does before it looks at the exposure. *)
Lemma init_run (df : ref) (exposure outcome : string) (weights : option string)
    (w : world R) (tbl : DataFrame R) :
  heap w !! df = Some tbl →
  let w1 := {| heap := heap w;
               warnings := warnings w
                           ++ (if (nrows (dropna tbl) =? nrows tbl)%nat then []
                               else [missing_data_warning (nrows (dropna tbl)) (nrows tbl)]);
               stdout := stdout w |} in
  __init__ df exposure outcome weights ((), w)
  = match reset_index (dropna tbl) with
    | Err e => (Err e, ((), w1))
    | Ok own =>
        let w2 := {| heap := heap w ++ [own]; warnings := warnings w1; stdout := stdout w |} in
        match get_col exposure own with
        | None => (Err (KeyError exposure), ((), w2))
        | Some a =>
            if forallb isin_0_1 (distinct_values a)
            then (Ok {| df := length (heap w); treatment := exposure; outcome := outcome;
                        psi := None; psi_labels := None; _weights := weights;
                        _treatment_model := None; _predicted_A := None;
                        _snm_ := None; _print_results := true |}, ((), w2))
            else (Err (ValueError "GEstimationSNM only supports binary exposures currently"),
                  ((), w2))
        end
    end.
Proof.
  intros Hdf. cbv zeta. unfold __init__. destruct w as [objects warned printed].
  cbn [heap warnings stdout] in *.
  rewrite bind_unfold. unfold load. cbn [fst snd heap]. rewrite Hdf. rewrite bind_unfold.
  destruct (nrows (dropna tbl) =? nrows tbl)%nat; cbn [negb warn mret M_ret fst snd];
    rewrite ?app_nil_r.
  all: rewrite bind_unfold, lift_run.
  all: destruct (reset_index (dropna tbl)) as [own | e]; [| reflexivity].
  all: rewrite bind_unfold; cbn [alloc fst snd heap warnings stdout].
  all: rewrite bind_unfold; unfold getitem.
  all: destruct (get_col exposure own) as [a |]; [| reflexivity].
  all: rewrite lift_run.
  all: destruct (forallb isin_0_1 (distinct_values a)); reflexivity.
Qed.

(** X13. The constructor accepts a 0/1 exposure.  When the table does not
    have both a column [index] and a column [level_0], and every value of
    the exposure column in the rows without a missing value is 0 or 1, the
    construction succeeds: the instance has no [psi] and no model yet, and
    its table is a new object, the caller's table without the incomplete
    rows and with the rows numbered afresh. *)
Theorem init_accepts_binary_exposure (df : ref) (exposure outcome : string)
    (weights : option string) (w : world R) (tbl : DataFrame R) (a : list (cell R)) :
  heap w !! df = Some tbl →
  has_col "index" tbl && has_col "level_0" tbl = false →
  get_col exposure (dropna tbl) = Some a →
  (∀ x, Some x ∈ a → isin_0_1 x = true) →
  ∃ self w' own,
    __init__ df exposure outcome weights ((), w) = (Ok self, ((), w'))
    ∧ reset_index (dropna tbl) = Ok own
    ∧ GEstimationSNM.df self = length (heap w)
    ∧ heap w' = heap w ++ [own]
    ∧ get_col exposure own = Some a
    ∧ treatment self = exposure
    ∧ GEstimationSNM.outcome self = outcome
    ∧ _weights self = weights
    ∧ psi self = None
    ∧ psi_labels self = None
    ∧ _treatment_model self = None
    ∧ _snm_ self = None.
Proof.
  intros Hdf Hfree Hcol Hvals.
  rewrite (init_run df exposure outcome weights w tbl Hdf). cbv zeta.
  pose proof (reset_index_free (dropna tbl)) as Hreset.
  rewrite !has_col_dropna in Hreset. specialize (Hreset Hfree).
  rewrite Hreset.
  rewrite (get_col_reset_index exposure _ _ a Hreset Hcol).
  assert (Hall : forallb isin_0_1 (distinct_values a) = true).
  { apply forallb_forall. intros x Hx.
    apply Hvals, distinct_values_sub, list_elem_of_In, Hx. }
  rewrite Hall. eexists. eexists. eexists.
  split; [reflexivity |]. split; [reflexivity |].
  cbn [GEstimationSNM.df heap treatment GEstimationSNM.outcome _weights psi psi_labels
       _treatment_model _snm_].
  repeat split; try reflexivity.
  exact (get_col_reset_index exposure _ _ a Hreset Hcol).
Qed.

(** X14. A table that has both a column [index] and a column [level_0]
    cannot be used: [reset_index] finds no name for the column of the old
    row labels, and the constructor ends in its [ValueError]; no table is
    kept. *)
Theorem init_rejects_index_clash (df : ref) (exposure outcome : string)
    (weights : option string) (w : world R) (tbl : DataFrame R) :
  heap w !! df = Some tbl →
  has_col "index" tbl = true →
  has_col "level_0" tbl = true →
  ∃ msg w',
    __init__ df exposure outcome weights ((), w) = (Err (ValueError msg), ((), w'))
    ∧ heap w' = heap w.
Proof.
  intros Hdf Hi Hl.
  rewrite (init_run df exposure outcome weights w tbl Hdf). cbv zeta.
  rewrite reset_index_taken by (rewrite has_col_dropna; assumption).
  eexists. eexists. split; reflexivity.
Qed.

(** X15. The missing-data warning.  Whether the constructor succeeds or
    not, it prints nothing and issues at most one warning: none when every
    row of the caller's table is complete, and otherwise the warning that
    names the number of complete rows, fewer than the rows of the table. *)
Theorem init_missing_data_warning (df : ref) (exposure outcome : string)
    (weights : option string) (w w' : world R) (tbl : DataFrame R)
    (r : result (t (R := R))) :
  heap w !! df = Some tbl →
  __init__ df exposure outcome weights ((), w) = (r, ((), w')) →
  stdout w' = stdout w
  ∧ (Forall (λ b, b = true) (complete_rows tbl) → warnings w' = warnings w)
  ∧ (¬ Forall (λ b, b = true) (complete_rows tbl) →
     warnings w' = warnings w ++ [missing_data_warning (nrows (dropna tbl)) (nrows tbl)]
     ∧ nrows (dropna tbl) < nrows tbl).
Proof.
  intros Hdf. rewrite (init_run df exposure outcome weights w tbl Hdf). cbv zeta.
  pose proof (nrows_dropna tbl) as Hiff. pose proof (nrows_dropna_le tbl) as Hle.
  intros Hrun.
  assert (Hw : stdout w' = stdout w
               ∧ warnings w' = warnings w
                               ++ (if (nrows (dropna tbl) =? nrows tbl)%nat then []
                                   else [missing_data_warning (nrows (dropna tbl))
                                           (nrows tbl)])).
  { destruct (reset_index (dropna tbl)) as [own | e]; [| injection Hrun as _ <-; done].
    destruct (get_col exposure own) as [a |]; [| injection Hrun as _ <-; done].
    destruct (forallb isin_0_1 (distinct_values a)); injection Hrun as _ <-; done. }
  destruct Hw as [Hout Hwarn]. split; [exact Hout |].
  destruct (nrows (dropna tbl) =? nrows tbl)%nat eqn:Hn.
  - apply Nat.eqb_eq in Hn. rewrite app_nil_r in Hwarn. split; [intros _; exact Hwarn |].
    intros Hnot. exfalso. apply Hnot, Hiff, Hn.
  - apply Nat.eqb_neq in Hn. split.
    + intros Hall. exfalso. apply Hn, Hiff, Hall.
    + intros _. split; [exact Hwarn | lia].
Qed.

Section Decided.
Hypothesis reqb_eq : ∀ x y : R, reqb x y = true ↔ x = y.

(** X16. The table of an instance.  After a successful construction the
    instance holds a table of its own in which the rows are numbered from
    0, every column has one cell per row and no cell is missing, and every
    value of the exposure column is 0 or 1. *)
Theorem init_table_complete (df : ref) (exposure outcome : string)
    (weights : option string) (w w' : world R) (tbl : DataFrame R) (self : t (R := R)) :
  heap w !! df = Some tbl →
  __init__ df exposure outcome weights ((), w) = (Ok self, ((), w')) →
  ∃ own a,
    heap w' !! GEstimationSNM.df self = Some own
    ∧ heap w !! GEstimationSNM.df self = None
    ∧ index own = seq 0 (nrows own)
    ∧ nrows own ≤ nrows tbl
    ∧ Forall (λ p, length (snd p) = nrows own ∧ Forall is_Some (snd p)) (columns own)
    ∧ get_col (treatment self) own = Some a
    ∧ Forall (λ c, ∃ x, c = Some x ∧ (x = r0 ∨ x = r1)) a.
Proof.
  intros Hdf. rewrite (init_run df exposure outcome weights w tbl Hdf). cbv zeta.
  destruct (reset_index (dropna tbl)) as [own | e] eqn:Hreset; [| discriminate].
  destruct (get_col exposure own) as [a |] eqn:Ha; [| discriminate].
  destruct (forallb isin_0_1 (distinct_values a)) eqn:Hall; [| discriminate].
  intros [= <- <-]. cbn [GEstimationSNM.df treatment heap].
  assert (Hown : nrows own = nrows (dropna tbl)
                 ∧ index own = seq 0 (nrows own)
                 ∧ columns own
                   = (index_column_name (dropna tbl),
                      map (λ i, Some (rnat i)) (index (dropna tbl))) :: columns (dropna tbl)).
  { unfold reset_index in Hreset. cbv zeta in Hreset.
    destruct (has_col (index_column_name (dropna tbl)) (dropna tbl)); [discriminate |].
    injection Hreset as <-. unfold nrows. cbn [index columns].
    rewrite length_seq. repeat split. }
  destruct Hown as (Hrows & Hindex & Hcols).
  assert (Hcomplete : Forall (λ p, length (snd p) = nrows own ∧ Forall is_Some (snd p))
                             (columns own)).
  { rewrite Hcols, Hrows. constructor; [| apply dropna_complete].
    cbn [snd]. split; [rewrite length_map; reflexivity |].
    apply Forall_fmap, Forall_forall. intros i _. cbn. eauto. }
  exists own, a. split; [apply lookup_alloc |].
  split; [apply lookup_ge_None; lia |].
  split; [exact Hindex |].
  split; [rewrite Hrows; apply nrows_dropna_le |].
  split; [exact Hcomplete |]. split; [exact Ha |].
  assert (Hin : ∃ n, (n, a) ∈ columns own).
  { clear -Ha. unfold get_col in Ha. induction (columns own) as [| [n v] rest IH];
      cbn in Ha; [discriminate |].
    destruct (String.eqb n exposure).
    - injection Ha as ->. exists n. left.
    - destruct (IH Ha) as [n' Hn']. exists n'. right. exact Hn'. }
  destruct Hin as [n Hin].
  rewrite Forall_forall in Hcomplete. destruct (Hcomplete _ Hin) as [_ Hsome].
  cbn [snd] in Hsome. rewrite Forall_forall in Hsome. apply Forall_forall.
  intros c Hc. destruct (Hsome c Hc) as [x ->]. exists x. split; [reflexivity |].
  rewrite forallb_forall in Hall.
  specialize (Hall x (proj1 (list_elem_of_In _ _) (distinct_values_elem reqb_eq x a Hc))).
  unfold isin_0_1 in Hall. apply orb_true_iff in Hall as [Hx | Hx];
    apply reqb_eq in Hx; eauto.
Qed.

End Decided.

End SNMConstruction.

Lemma init_accepts_binary_exposure_witness :
  ∃ self w' own,
    GEstimationSNM.__init__ 0 "art" "dead" (Some "w") ((), Demo.world_of Demo.table_incomplete)
    = (Ok self, ((), w'))
    ∧ reset_index (dropna Demo.table_incomplete) = Ok own
    ∧ GEstimationSNM.df self = 1
    ∧ heap w' = [Demo.table_incomplete; own]
    ∧ get_col "art" own = Some (Demo.nums [1; 1; 0]%Z)
    ∧ GEstimationSNM.treatment self = "art"
    ∧ GEstimationSNM.outcome self = "dead"
    ∧ GEstimationSNM._weights self = Some "w"
    ∧ GEstimationSNM.psi self = None
    ∧ GEstimationSNM.psi_labels self = None
    ∧ GEstimationSNM._treatment_model self = None
    ∧ GEstimationSNM._snm_ self = None.
Proof.
  apply (init_accepts_binary_exposure (H := Demo.Z_numeric) 0 "art" "dead" (Some "w")
           (Demo.world_of Demo.table_incomplete) Demo.table_incomplete
           (Demo.nums [1; 1; 0]%Z)); try reflexivity.
  intros x Hx. apply list_elem_of_In in Hx. simpl in Hx.
  destruct Hx as [[= <-] | [[= <-] | [[= <-] | []]]]; reflexivity.
Defined.

Lemma init_rejects_index_clash_witness :
  ∃ msg w',
    GEstimationSNM.__init__ 0 "art" "dead" None ((), Demo.world_of Demo.table_relabelled)
    = (Err (ValueError msg), ((), w'))
    ∧ heap w' = [Demo.table_relabelled].
Proof.
  apply (init_rejects_index_clash (H := Demo.Z_numeric) 0 "art" "dead" None
           (Demo.world_of Demo.table_relabelled) Demo.table_relabelled); reflexivity.
Defined.

Lemma init_missing_data_warning_witness :
  let run := GEstimationSNM.__init__ 0 "art" "dead" None
               ((), Demo.world_of Demo.table_incomplete) in
  stdout run.2.2 = []
  ∧ (Forall (λ b, b = true) (complete_rows Demo.table_incomplete) → warnings run.2.2 = [])
  ∧ (¬ Forall (λ b, b = true) (complete_rows Demo.table_incomplete) →
     warnings run.2.2
     = [] ++ [GEstimationSNM.missing_data_warning (nrows (dropna Demo.table_incomplete))
                (nrows Demo.table_incomplete)]
     ∧ nrows (dropna Demo.table_incomplete) < nrows Demo.table_incomplete).
Proof.
  cbv zeta.
  refine (init_missing_data_warning (H := Demo.Z_numeric) 0 "art" "dead" None
            (Demo.world_of Demo.table_incomplete) _ Demo.table_incomplete _ eq_refl _).
  vm_compute. reflexivity.
Defined.

Lemma init_table_complete_witness :
  let run := GEstimationSNM.__init__ 0 "art" "dead" None
               ((), Demo.world_of Demo.table_incomplete) in
  ∃ own a,
    heap run.2.2 !! 1 = Some own
    ∧ heap (Demo.world_of Demo.table_incomplete) !! 1 = None
    ∧ index own = seq 0 (nrows own)
    ∧ nrows own ≤ nrows Demo.table_incomplete
    ∧ Forall (λ p, length (snd p) = nrows own ∧ Forall is_Some (snd p)) (columns own)
    ∧ get_col "art" own = Some a
    ∧ Forall (λ c, ∃ x, c = Some x ∧ (x = 0%Z ∨ x = 1%Z)) a.
Proof.
  cbv zeta.
  refine (init_table_complete (H := Demo.Z_numeric) Z.eqb_eq 0 "art" "dead" None
            (Demo.world_of Demo.table_incomplete) _ Demo.table_incomplete
            (Demo.ge_new None) eq_refl _).
  vm_compute. reflexivity.
Defined.

(** ** [GEstimationSNM.fit(solver='closed')], [summary] *)

Section ClosedFit.
Context {R : Type} `{Numeric R} {model : Type}.
Variable ext : Collaborators R model.

Import GEstimationSNM.

Lemma lookup_alloc_second {A : Type} (h : list A) (x y : A) :
  ((h ++ [x]) ++ [y])%list !! length (h ++ [x])%list = Some y.
Proof. apply lookup_alloc. Qed.

(** The steps of a successful closed-form fit. *)
Lemma fit_closed_steps (self self' : t) (w w' : world R) (sv : option (list R))
    (av : alpha_arg) :
  fit ext "closed" sv av (self, w) = (Ok (), (self', w')) →
  ∃ snm_f tm tbl snm dropped y_vals fm pred a lhm x,
    _snm_ self = Some snm_f
    ∧ _treatment_model self = Some tm
    ∧ _weights self = None
    ∧ heap w !! df self = Some tbl
    ∧ dmatrix ext (snm_f +:+ " - 1") (fit_locals self tbl "closed" sv av) tbl = Ok snm
    ∧ drop_col (treatment self) tbl = Ok dropped
    ∧ dmatrix ext (snm_f +:+ " - 1")
        (fit_locals_outcome self tbl "closed" sv av snm
           (rename_col (outcome self) (treatment self) dropped))
        (rename_col (outcome self) (treatment self) dropped)
      = Ok y_vals
    ∧ snd (propensity_score ext tbl ((treatment self +:+ " ~ ") +:+ tm) None
             (_print_results self))
      = Ok fm
    ∧ predict ext fm tbl = Ok pred
    ∧ get_col (treatment self) tbl = Some a
    ∧ np_dot_T (mul_rows snm (align_with rsub a pred)) snm = Ok lhm
    ∧ linalg_solve ext lhm (column_sums (mul_rows y_vals (align_with rsub a pred))) = Ok x
    ∧ self' = with_psi x (with_psi_labels (column_names snm) self)
    ∧ w' = {| heap := (heap w ++ [dropped])
                      ++ [rename_col (outcome self) (treatment self) dropped];
              warnings := warnings w;
              stdout := stdout w
                        ++ fst (propensity_score ext tbl
                                  ((treatment self +:+ " ~ ") +:+ tm) None
                                  (_print_results self)) |}.
Proof.
  unfold fit. cbn [String.eqb Ascii.eqb Bool.eqb andb].
  rewrite bind_unfold. cbn [get_self fst snd].
  destruct (_snm_ self) as [snm_f |] eqn:Hsnm; [| intros [=]].
  cbn [concat_attr_l]. rewrite bind_unfold, lift_run.
  rewrite bind_unfold.
  destruct (load_cases (df self) (self, w)) as [(tbl & Hdf & ->) | (_ & ->)];
    [| intros [=]].
  cbn [fst snd] in Hdf. rewrite bind_unfold, lift_run.
  destruct (dmatrix ext (snm_f +:+ " - 1") (fit_locals self tbl "closed" sv av) tbl)
    as [snm | e] eqn:Hdm; [| intros [=]].
  rewrite bind_unfold. cbn [set_self fst snd]. rewrite bind_unfold, lift_run.
  destruct (drop_col (treatment self) tbl) as [dropped | e] eqn:Hdrop; [| intros [=]].
  rewrite bind_unfold. cbn [alloc fst snd heap warnings stdout].
  rewrite bind_unfold. cbn [alloc fst snd heap warnings stdout].
  rewrite bind_unfold, lift_run, bind_unfold.
  unfold load at 1. cbn [fst snd heap]. rewrite lookup_alloc_second.
  rewrite bind_unfold, lift_run.
  destruct (dmatrix ext (snm_f +:+ " - 1")
              (fit_locals_outcome self tbl "closed" sv av snm
                 (rename_col (outcome self) (treatment self) dropped))
              (rename_col (outcome self) (treatment self) dropped))
    as [y_vals | e] eqn:Hdy; [| intros [=]].
  rewrite bind_unfold, lift_run.
  destruct (_treatment_model self) as [tm |] eqn:Htm; cbn [concat_attr_r];
    [| intros [=]].
  rewrite bind_unfold.
  destruct (_weights self) as [wcol |] eqn:Hw.
  - match goal with
    | |- context [_closed_form_solver_ ext ?a ?b ?c ?d ?e (Some ?x) ?f ?s] =>
        destruct (closed_form_solver_with_weights ext a b c d e x f s) as [err Herr];
        destruct (_closed_form_solver_ ext a b c d e (Some x) f s) as [r s1];
        cbn [fst] in Herr; subst r
    end.
    intros [=].
  - match goal with
    | |- context [_closed_form_solver_ ext ?a ?b ?c ?d ?e None ?f ?s] =>
        destruct (_closed_form_solver_ ext a b c d e None f s) as [[x | err] s1] eqn:Hsolve
    end; [| intros [=]].
    apply closed_form_solver_unweighted in Hsolve
      as (tbl1 & fm & pred & a & lhm & Hdf1 & Hps & Hpred & Ha & Hlhm & Hx & ->).
    cbn [fst snd heap warnings stdout] in *.
    rewrite lookup_app_l in Hdf1 by (rewrite length_app; cbn;
                                     apply lookup_lt_Some in Hdf; lia).
    rewrite lookup_app_l in Hdf1 by (apply lookup_lt_Some in Hdf; lia).
    rewrite Hdf in Hdf1. injection Hdf1 as <-.
    cbn [set_self fst snd]. intros [= <- <-].
    exists snm_f, tm, tbl, snm, dropped, y_vals, fm, pred, a, lhm, x.
    repeat split; assumption || reflexivity.
Qed.

(** A failed fit: the instance is as it was, except that the closed form
    may already have replaced [psi_labels]. *)
Lemma fit_failure (self self' : t) (w w' : world R) (solver : string)
    (sv : option (list R)) (av : alpha_arg) (e : exn) :
  fit ext solver sv av (self, w) = (Err e, (self', w')) →
  (self' = self
   ∨ ∃ snm_f tbl snm,
       solver = "closed" ∧ _snm_ self = Some snm_f ∧ heap w !! df self = Some tbl
       ∧ dmatrix ext (snm_f +:+ " - 1") (fit_locals self tbl solver sv av) tbl = Ok snm
       ∧ self' = with_psi_labels (column_names snm) self)
  ∧ warnings w' = warnings w
  ∧ (∃ printed, stdout w' = stdout w ++ printed)
  ∧ ∃ extra, heap w' = heap w ++ extra.
Proof.
  match goal with
  | |- _ → ?C =>
      assert (Hsame : ∀ r : result unit, (r, (self, w)) = (Err e, (self', w')) → C)
  end.
  { intros r [= _ <- <-]. repeat split; [left; reflexivity | |];
      exists []; rewrite app_nil_r; reflexivity. }
  unfold fit, _grid_search_.
  destruct (String.eqb solver "closed") eqn:Hsolver;
    [| destruct (String.eqb solver "search"); apply Hsame].
  apply String.eqb_eq in Hsolver.
  rewrite bind_unfold. cbn [get_self fst snd].
  destruct (_snm_ self) as [snm_f |] eqn:Hsnm; [| apply Hsame].
  cbn [concat_attr_l]. rewrite bind_unfold, lift_run.
  rewrite bind_unfold.
  destruct (load_cases (df self) (self, w)) as [(tbl & Hdf & ->) | (_ & ->)];
    [| apply Hsame].
  cbn [fst snd] in Hdf. rewrite bind_unfold, lift_run.
  destruct (dmatrix ext (snm_f +:+ " - 1") (fit_locals self tbl solver sv av) tbl)
    as [snm | err] eqn:Hdm; [| apply Hsame].
  rewrite bind_unfold. cbn [set_self fst snd]. rewrite bind_unfold, lift_run.
  match goal with
  | |- _ → ?C =>
      assert (Hlabels : ∀ (r : result unit) extra printed,
                (r, (with_psi_labels (column_names snm) self,
                     {| heap := heap w ++ extra; warnings := warnings w;
                        stdout := stdout w ++ printed |}))
                = (Err e, (self', w')) → C)
  end.
  { intros r extra printed [= _ <- <-]. cbn [heap warnings stdout].
    repeat split; [right; eauto 10 | eauto | eauto]. }
  destruct (drop_col (treatment self) tbl) as [dropped | err] eqn:Hdrop.
  2:{ intros [= _ <- <-]. repeat split; [right; eauto 10 | |];
        exists []; rewrite app_nil_r; reflexivity. }
  rewrite bind_unfold. cbn [alloc fst snd heap warnings stdout].
  rewrite bind_unfold. cbn [alloc fst snd heap warnings stdout].
  rewrite bind_unfold, lift_run, bind_unfold.
  unfold load at 1. cbn [fst snd heap]. rewrite lookup_alloc_second.
  rewrite <- app_assoc. cbn [app].
  rewrite bind_unfold, lift_run.
  assert (Hnone : ∀ r : result unit,
            (r, (with_psi_labels (column_names snm) self,
                 {| heap := heap w ++ [dropped;
                                       rename_col (outcome self) (treatment self) dropped];
                    warnings := warnings w; stdout := stdout w |}))
            = (Err e, (self', w')) →
            (r, (with_psi_labels (column_names snm) self,
                 {| heap := heap w ++ [dropped;
                                       rename_col (outcome self) (treatment self) dropped];
                    warnings := warnings w; stdout := stdout w ++ [] |}))
            = (Err e, (self', w')))
    by (intros r; rewrite app_nil_r; exact id).
  match goal with
  | |- context [dmatrix ext ?f ?ns ?yf] =>
      destruct (dmatrix ext f ns yf) as [y_vals | err] eqn:Hdy;
        [| intros Hrun; exact (Hlabels _ _ _ (Hnone _ Hrun))]
  end.
  rewrite bind_unfold, lift_run.
  destruct (_treatment_model self) as [tm |] eqn:Htm; cbn [concat_attr_r];
    [| intros Hrun; exact (Hlabels _ _ _ (Hnone _ Hrun))].
  rewrite bind_unfold.
  match goal with
  | |- context [_closed_form_solver_ ext ?a ?b ?c ?d ?f ?x ?g ?s] =>
      destruct (closed_form_solver_state ext a b c d f x g s) as [printed Hstate];
      destruct (_closed_form_solver_ ext a b c d f x g s) as [[x1 | err] s1]
  end; cbn [fst snd heap warnings stdout] in Hstate; subst s1.
  - cbn [set_self fst snd]. intros [=].
  - intros Hrun. exact (Hlabels _ _ _ Hrun).
Qed.

Lemma np_dot_T_shape (a b : DataFrame R) (lhm : list (list (cell R))) :
  np_dot_T a b = Ok lhm →
  length lhm = length (columns a)
  ∧ Forall (λ row, length row = length (columns b)) lhm.
Proof.
  unfold np_dot_T. destruct (nrows a =? nrows b)%nat; [| discriminate].
  intros [= <-]. rewrite length_map. split; [reflexivity |].
  apply Forall_fmap, Forall_forall. intros ca _. cbn. apply length_map.
Qed.

(** X17. What a successful closed-form fit solved.  Both models had been
    specified and no weights column was configured.  With [D] the number
    of columns of the design matrix of the structural nested model,
    [psi_labels] are the [D] column names, the matrix handed to
    [np.linalg.solve] has [D] rows of [D] entries, the right-hand side has
    one entry per column of the design matrix built from the outcome, and
    [psi] is the solution returned.  The configuration of the instance and
    the objects that were in the store are as before. *)
Theorem fit_closed_solves_square_system (self self' : t) (w w' : world R)
    (sv : option (list R)) (av : alpha_arg) :
  fit ext "closed" sv av (self, w) = (Ok (), (self', w')) →
  ∃ snm_f tm tbl snm dropped y_vals lhm rha x,
    _snm_ self = Some snm_f
    ∧ _treatment_model self = Some tm
    ∧ _weights self = None
    ∧ heap w !! df self = Some tbl
    ∧ dmatrix ext (snm_f +:+ " - 1") (fit_locals self tbl "closed" sv av) tbl = Ok snm
    ∧ drop_col (treatment self) tbl = Ok dropped
    ∧ dmatrix ext (snm_f +:+ " - 1")
        (fit_locals_outcome self tbl "closed" sv av snm
           (rename_col (outcome self) (treatment self) dropped))
        (rename_col (outcome self) (treatment self) dropped)
      = Ok y_vals
    ∧ psi_labels self' = Some (column_names snm)
    ∧ length lhm = length (column_names snm)
    ∧ Forall (λ row, length row = length (column_names snm)) lhm
    ∧ length rha = length (column_names y_vals)
    ∧ linalg_solve ext lhm rha = Ok x
    ∧ psi self' = Some x
    ∧ df self' = df self
    ∧ treatment self' = treatment self
    ∧ outcome self' = outcome self
    ∧ _weights self' = _weights self
    ∧ _snm_ self' = _snm_ self
    ∧ _treatment_model self' = _treatment_model self
    ∧ _print_results self' = _print_results self
    ∧ warnings w' = warnings w
    ∧ (∀ l t0, heap w !! l = Some t0 → heap w' !! l = Some t0).
Proof.
  intros Hrun.
  apply fit_closed_steps in Hrun
    as (snm_f & tm & tbl & snm & dropped & y_vals & fm & pred & a & lhm & x
        & Hsnm & Htm & Hw & Hdf & Hdm & Hdrop & Hdy & Hps & Hpred & Ha & Hlhm & Hx
        & -> & ->).
  apply np_dot_T_shape in Hlhm as [Hrows Hcols].
  exists snm_f, tm, tbl, snm, dropped, y_vals, lhm,
         (column_sums (mul_rows y_vals (align_with rsub a pred))), x.
  cbn [psi psi_labels df treatment outcome _weights _snm_ _treatment_model _print_results
       with_psi with_psi_labels heap warnings].
  unfold column_names. rewrite !length_map in *. cbn [mul_rows columns] in Hrows.
  rewrite length_map in Hrows.
  repeat split; try assumption; try reflexivity.
  - unfold column_sums, mul_rows. cbn [columns]. rewrite !length_map. reflexivity.
  - intros l t0 Hl. apply lookup_app_l_Some, lookup_app_l_Some, Hl.
Qed.

(** X18. A failed [fit] leaves no [psi] behind.  Whatever the solver and
    the error, [psi] and the configuration of the instance are as before
    the call, no warning is issued and no object of the store is changed.
    [psi_labels] is the one attribute a failed call may have replaced: the
    closed form assigns it before it solves. *)
Theorem fit_failure_keeps_psi (self self' : t) (w w' : world R) (solver : string)
    (sv : option (list R)) (av : alpha_arg) (e : exn) :
  fit ext solver sv av (self, w) = (Err e, (self', w')) →
  psi self' = psi self
  ∧ df self' = df self
  ∧ treatment self' = treatment self
  ∧ outcome self' = outcome self
  ∧ _weights self' = _weights self
  ∧ _snm_ self' = _snm_ self
  ∧ _treatment_model self' = _treatment_model self
  ∧ _print_results self' = _print_results self
  ∧ (psi_labels self' = psi_labels self
     ∨ ∃ snm_f tbl snm,
         solver = "closed" ∧ _snm_ self = Some snm_f ∧ heap w !! df self = Some tbl
         ∧ dmatrix ext (snm_f +:+ " - 1") (fit_locals self tbl solver sv av) tbl = Ok snm
         ∧ psi_labels self' = Some (column_names snm))
  ∧ warnings w' = warnings w
  ∧ (∀ l t0, heap w !! l = Some t0 → heap w' !! l = Some t0).
Proof.
  intros Hrun.
  apply fit_failure in Hrun as (Hself & Hwarn & _ & extra & Hheap).
  assert (Hobjects : ∀ l t0, heap w !! l = Some t0 → heap w' !! l = Some t0)
    by (intros l t0 Hl; rewrite Hheap; apply lookup_app_l_Some, Hl).
  destruct Hself as [-> | (snm_f & tbl & snm & Hs & Hsnm & Hdf & Hdm & ->)].
  - repeat split; try assumption. left. reflexivity.
  - cbn [psi psi_labels df treatment outcome _weights _snm_ _treatment_model
         _print_results with_psi_labels].
    repeat split; try assumption. right. eauto 10.
Qed.

(** X19. Weights and the closed form.  On an instance built with a weights
    column, let everything else be in order: both models specified, the
    design matrices built, the treatment model fitted and its predictions
    made.  [fit(solver='closed')] then raises a [TypeError] (the residual
    times the name of the column), with [psi_labels] already replaced and
    [psi] as it was. *)
Theorem fit_closed_weights_type_error (self : t) (w : world R) (wcol snm_f tm : string)
    (tbl snm dropped y_vals : DataFrame R) (fm : model) (pred a : list (cell R))
    (sv : option (list R)) (av : alpha_arg) :
  _weights self = Some wcol →
  _snm_ self = Some snm_f →
  _treatment_model self = Some tm →
  heap w !! df self = Some tbl →
  dmatrix ext (snm_f +:+ " - 1") (fit_locals self tbl "closed" sv av) tbl = Ok snm →
  drop_col (treatment self) tbl = Ok dropped →
  dmatrix ext (snm_f +:+ " - 1")
    (fit_locals_outcome self tbl "closed" sv av snm
       (rename_col (outcome self) (treatment self) dropped))
    (rename_col (outcome self) (treatment self) dropped)
    = Ok y_vals →
  snd (propensity_score ext tbl ((treatment self +:+ " ~ ") +:+ tm) (Some wcol)
         (_print_results self)) = Ok fm →
  predict ext fm tbl = Ok pred →
  get_col (treatment self) tbl = Some a →
  ∃ msg w',
    fit ext "closed" sv av (self, w)
    = (Err (TypeError msg), (with_psi_labels (column_names snm) self, w'))
    ∧ psi (with_psi_labels (column_names snm) self) = psi self.
Proof.
  intros Hw Hsnm Htm Hdf Hdm Hdrop Hdy Hps Hpred Ha.
  assert (Hlt : df self < length (heap w)) by (eapply lookup_lt_Some; exact Hdf).
  unfold fit. cbn [String.eqb Ascii.eqb Bool.eqb andb].
  rewrite bind_unfold. cbn [get_self fst snd]. rewrite Hsnm.
  cbn [concat_attr_l]. rewrite bind_unfold, lift_run, bind_unfold.
  unfold load at 1. cbn [fst snd]. rewrite Hdf.
  rewrite bind_unfold, lift_run, Hdm.
  rewrite bind_unfold. cbn [set_self fst snd]. rewrite bind_unfold, lift_run, Hdrop.
  rewrite bind_unfold. cbn [alloc fst snd heap warnings stdout].
  rewrite bind_unfold. cbn [alloc fst snd heap warnings stdout].
  rewrite bind_unfold, lift_run, bind_unfold.
  unfold load at 1. cbn [fst snd heap]. rewrite lookup_alloc_second.
  rewrite bind_unfold, lift_run, Hdy.
  rewrite bind_unfold, lift_run, Htm. cbn [concat_attr_r].
  rewrite bind_unfold, Hw.
  unfold _closed_form_solver_. cbv zeta.
  rewrite bind_unfold. unfold load at 1. cbn [fst snd heap].
  rewrite !lookup_app_l by (rewrite ?length_app; cbn; lia). rewrite Hdf.
  rewrite bind_unfold. cbn [emit fst snd heap warnings stdout].
  rewrite bind_unfold, lift_run, Hps.
  rewrite bind_unfold, lift_run, Hpred.
  rewrite bind_unfold. unfold getitem. rewrite Ha, lift_run.
  rewrite bind_unfold, lift_run. unfold series_mul_str.
  eexists. eexists. split; reflexivity.
Qed.

End ClosedFit.

Section Summary.
Context {R : Type} `{Numeric R} {model : Type}.
Variable ext : Collaborators R model.

Import GEstimationSNM.

Lemma print_lines_run {Self : Type} (lines : list string) :
  ∀ (self : Self) (w : world R),
    print_lines lines (self, w)
    = (Ok (), (self, {| heap := heap w; warnings := warnings w;
                        stdout := stdout w ++ lines |})).
Proof.
  induction lines as [| line rest IH]; intros self [objects warned printed];
    cbn [print_lines heap warnings stdout].
  - rewrite app_nil_r. reflexivity.
  - rewrite bind_unfold. cbn [print fst snd heap warnings stdout].
    rewrite IH. cbn [heap warnings stdout]. rewrite <- app_assoc. reflexivity.
Qed.

Lemma summary_header (show : Z → cell R → string) (decimal : Z) (self : t) (w : world R) :
  summary show decimal (self, w)
  = let w1 := {| heap := heap w; warnings := warnings w;
                 stdout := stdout w ++ [summary_rule; summary_title; summary_rule;
                                        summary_rule] |} in
    match psi self, psi_labels self with
    | None, _ => (Err (TypeError "zip argument #1 must support iteration"), (self, w1))
    | Some _, None => (Err (TypeError "zip argument #2 must support iteration"), (self, w1))
    | Some ps, Some pls =>
        (Ok (), (self, {| heap := heap w; warnings := warnings w;
                          stdout := stdout w1
                                    ++ zip_with (λ p pl, pl +:+ " " +:+ show decimal p) ps pls
                                    ++ [summary_rule] |}))
    end.
Proof.
  unfold summary. cbv zeta.
  repeat (rewrite bind_unfold; cbn [print get_self fst snd heap warnings stdout]).
  rewrite <- !app_assoc. cbn [app].
  destruct (psi self) as [ps |]; [| reflexivity].
  destruct (psi_labels self) as [pls |]; [| reflexivity].
  rewrite bind_unfold, print_lines_run. unfold print. cbn [fst snd heap warnings stdout].
  rewrite <- !app_assoc. reflexivity.
Qed.

(** X20. [summary] after a fit.  After a successful closed-form fit,
    [summary] succeeds: it prints the four header lines, one line per
    pair of a label and its estimate (the label, a blank, the rounded
    value), and the closing rule; it changes neither the instance nor the
    store. *)
Theorem summary_after_fit (self self' : t) (w w' : world R) (sv : option (list R))
    (av : alpha_arg) (show : Z → cell R → string) (decimal : Z) :
  fit ext "closed" sv av (self, w) = (Ok (), (self', w')) →
  ∃ ps labels,
    psi self' = Some ps
    ∧ psi_labels self' = Some labels
    ∧ summary show decimal (self', w')
      = (Ok (), (self', {| heap := heap w'; warnings := warnings w';
                           stdout := stdout w'
                                     ++ [summary_rule; summary_title; summary_rule;
                                         summary_rule]
                                     ++ zip_with (λ p pl, pl +:+ " " +:+ show decimal p)
                                          ps labels
                                     ++ [summary_rule] |})).
Proof.
  intros Hrun.
  apply fit_closed_steps in Hrun
    as (snm_f & tm & tbl & snm & dropped & y_vals & fm & pred & a & lhm & x
        & _ & _ & _ & _ & _ & _ & _ & _ & _ & _ & _ & _ & -> & ->).
  exists x, (column_names snm).
  split; [reflexivity |]. split; [reflexivity |].
  rewrite summary_header. cbv zeta.
  cbn [psi psi_labels with_psi with_psi_labels heap warnings stdout].
  rewrite <- !app_assoc. reflexivity.
Qed.

(** X21. [summary] without a fit.  On an instance that has no [psi], as
    the constructor leaves it, a failed [fit] leaves it without one, and
    [summary] after it prints the four header lines and then raises a
    [TypeError]: there is nothing to iterate over. *)
Theorem summary_after_failed_fit (self : t) (w : world R) (solver : string)
    (sv : option (list R)) (av : alpha_arg) (e : exn) (s' : t * world R)
    (show : Z → cell R → string) (decimal : Z) :
  psi self = None →
  fit ext solver sv av (self, w) = (Err e, s') →
  ∃ msg,
    summary show decimal s'
    = (Err (TypeError msg),
       (s'.1, {| heap := heap s'.2; warnings := warnings s'.2;
                 stdout := stdout s'.2 ++ [summary_rule; summary_title; summary_rule;
                                           summary_rule] |})).
Proof.
  intros Hpsi Hrun. destruct s' as [self' w'].
  apply fit_failure in Hrun as (Hself & _).
  assert (Hpsi' : psi self' = None).
  { destruct Hself as [-> | (snm_f & tbl & snm & _ & _ & _ & _ & ->)]; exact Hpsi. }
  rewrite summary_header. cbv zeta. rewrite Hpsi'. cbn [fst snd]. eauto.
Qed.

End Summary.

Section OutcomeTable.
Context {R : Type} `{Numeric R} {model : Type}.
Variable ext : Collaborators R model.

Import GEstimationSNM.

Lemma lookup_col_dropped (c t0 : string) (cols : list (string * list (cell R))) :
  lookup_col c (filter (λ p, negb (String.eqb (fst p) t0)) cols)
  = if String.eqb t0 c then None else lookup_col c cols.
Proof.
  induction cols as [| [n v] rest IH]; cbn [lookup_col].
  - rewrite filter_nil. destruct (String.eqb t0 c); reflexivity.
  - rewrite filter_cons. cbn [fst].
    destruct (String.eqb n t0) eqn:Hnt; cbn [negb].
    + apply String.eqb_eq in Hnt as ->.
      destruct (decide (Is_true false)) as [[] | _]. rewrite IH.
      destruct (String.eqb t0 c); reflexivity.
    + destruct (decide (Is_true true)) as [_ | Hn]; [| exfalso; apply Hn; exact I].
      cbn [lookup_col]. rewrite IH.
      destruct (String.eqb n c) eqn:Hnc; [| reflexivity].
      apply String.eqb_eq in Hnc as ->. rewrite String.eqb_sym, Hnt. reflexivity.
Qed.

Lemma lookup_col_renamed (c o t0 : string) (cols : list (string * list (cell R))) :
  lookup_col t0 cols = None →
  o ≠ t0 →
  lookup_col c (map (λ p, if String.eqb (fst p) o then (t0, snd p) else p) cols)
  = if String.eqb c t0 then lookup_col o cols
    else if String.eqb c o then None else lookup_col c cols.
Proof.
  intros Hfree Hne. induction cols as [| [n v] rest IH]; cbn [map lookup_col fst snd].
  - destruct (String.eqb c t0), (String.eqb c o); reflexivity.
  - cbn [lookup_col] in Hfree.
    destruct (String.eqb n t0) eqn:Hnt; [discriminate |].
    specialize (IH Hfree).
    destruct (String.eqb n o) eqn:Hno; cbn [lookup_col].
    + apply String.eqb_eq in Hno as ->.
      rewrite (String.eqb_sym t0 c).
      destruct (String.eqb c t0) eqn:Hct; [reflexivity |].
      rewrite IH, (String.eqb_sym o c).
      destruct (String.eqb c o); reflexivity.
    + rewrite IH.
      destruct (String.eqb n c) eqn:Hnc.
      * apply String.eqb_eq in Hnc as ->. rewrite Hnt, Hno. reflexivity.
      * reflexivity.
Qed.

(** X22. The table the outcome design matrix is built from.  A successful
    closed-form fit built it as a new object from the instance's table:
    the same rows, the exposure column gone and the outcome column under
    the exposure's name, every other column as it was.  The instance's own
    table still holds the exposure and the outcome. *)
Theorem fit_closed_outcome_table (self self' : t) (w w' : world R) (sv : option (list R))
    (av : alpha_arg) :
  treatment self ≠ outcome self →
  fit ext "closed" sv av (self, w) = (Ok (), (self', w')) →
  ∃ tbl yf snm_f snm y_vals,
    heap w !! df self = Some tbl
    ∧ heap w' !! df self = Some tbl
    ∧ heap w' !! S (length (heap w)) = Some yf
    ∧ _snm_ self = Some snm_f
    ∧ dmatrix ext (snm_f +:+ " - 1") (fit_locals_outcome self tbl "closed" sv av snm yf) yf
      = Ok y_vals
    ∧ index yf = index tbl
    ∧ get_col (treatment self) yf = get_col (outcome self) tbl
    ∧ get_col (outcome self) yf = None
    ∧ (∀ c, c ≠ treatment self → c ≠ outcome self → get_col c yf = get_col c tbl).
Proof.
  intros Hne Hrun.
  apply fit_closed_steps in Hrun
    as (snm_f & tm & tbl & snm & dropped & y_vals & fm & pred & a & lhm & x
        & Hsnm & _ & _ & Hdf & _ & Hdrop & Hdy & _ & _ & _ & _ & _ & -> & ->).
  exists tbl, (rename_col (outcome self) (treatment self) dropped), snm_f, snm, y_vals.
  cbn [heap].
  assert (Hdropped : index dropped = index tbl
                     ∧ ∀ c, get_col c dropped
                            = if String.eqb (treatment self) c then None else get_col c tbl).
  { unfold drop_col in Hdrop. destruct (has_col (treatment self) tbl); [| discriminate].
    injection Hdrop as <-. split; [reflexivity |].
    intros c. apply lookup_col_dropped. }
  destruct Hdropped as [Hidx Hcols].
  assert (Hyf : ∀ c, get_col c (rename_col (outcome self) (treatment self) dropped)
                     = if String.eqb c (treatment self) then get_col (outcome self) dropped
                       else if String.eqb c (outcome self) then None
                            else get_col c dropped).
  { intros c. apply lookup_col_renamed; [| congruence].
    pose proof (Hcols (treatment self)) as Ht. rewrite String.eqb_refl in Ht. exact Ht. }
  assert (Hto : String.eqb (treatment self) (outcome self) = false)
    by (apply String.eqb_neq; exact Hne).
  assert (Hot : String.eqb (outcome self) (treatment self) = false)
    by (rewrite String.eqb_sym; exact Hto).
  repeat split; try assumption.
  - apply lookup_app_l_Some, lookup_app_l_Some, Hdf.
  - rewrite <- app_assoc. cbn [app]. rewrite lookup_app_r by lia.
    replace (S (length (heap w)) - length (heap w)) with 1 by lia. reflexivity.
  - rewrite Hyf, String.eqb_refl, Hcols, Hto. reflexivity.
  - rewrite Hyf, Hot, String.eqb_refl. reflexivity.
  - intros c Hct Hco.
    assert (H1 : String.eqb c (treatment self) = false) by (apply String.eqb_neq; exact Hct).
    assert (H2 : String.eqb c (outcome self) = false) by (apply String.eqb_neq; exact Hco).
    rewrite Hyf, H1, H2, Hcols, String.eqb_sym, H1. reflexivity.
Qed.

End OutcomeTable.

Section ClosedFitEquation.
Context {R : Type} `{Numeric R} {model : Type}.
Variable ext : Collaborators R model.
Hypothesis r_ring : ring_theory r0 r1 radd rmul rsub ropp (@eq R).

Import GEstimationSNM SpecFormula.

(** X23. [psi] solves the estimating equation.  Let a closed-form fit
    succeed where the two design matrices, the exposure column and the
    predictions of the treatment model hold numbers only, one per row, and
    let [diff] be the exposure minus its prediction, row by row.  Then
    [psi] is what [np.linalg.solve] returns for the matrix whose entry
    (i, j) is the sum over the rows of [snm_i * diff * snm_j], and the
    vector whose entry j is the sum over the rows of [diff * y_j]. *)
Theorem fit_closed_estimating_equation (self self' : t) (w w' : world R)
    (sv : option (list R)) (av : alpha_arg) (tbl dropped : DataFrame R) (snm_f tm : string)
    (fm : model) (idx idy : list nat) (snm_cols y_cols : list (string * list R))
    (observed predicted : list R) :
  fit ext "closed" sv av (self, w) = (Ok (), (self', w')) →
  heap w !! df self = Some tbl →
  _snm_ self = Some snm_f →
  _treatment_model self = Some tm →
  dmatrix ext (snm_f +:+ " - 1") (fit_locals self tbl "closed" sv av) tbl
    = Ok (frame_of idx snm_cols) →
  drop_col (treatment self) tbl = Ok dropped →
  dmatrix ext (snm_f +:+ " - 1")
    (fit_locals_outcome self tbl "closed" sv av (frame_of idx snm_cols)
       (rename_col (outcome self) (treatment self) dropped))
    (rename_col (outcome self) (treatment self) dropped)
    = Ok (frame_of idy y_cols) →
  snd (propensity_score ext tbl ((treatment self +:+ " ~ ") +:+ tm) None
         (_print_results self))
    = Ok fm →
  predict ext fm tbl = Ok (map Some predicted) →
  get_col (treatment self) tbl = Some (map Some observed) →
  length observed = length idx →
  length predicted = length idx →
  length idy = length idx →
  Forall (λ p, length (snd p) = length idx) snm_cols →
  Forall (λ p, length (snd p) = length idx) y_cols →
  ∃ x,
    psi self' = Some x
    ∧ psi_labels self' = Some (map fst snm_cols)
    ∧ linalg_solve ext
        (map (map Some) (lhm (map snd snm_cols) (residual observed predicted)))
        (map Some (rha (map snd y_cols) (residual observed predicted)))
      = Ok x.
Proof.
  intros Hrun Hdf Hsnm Htm Hdm Hdrop Hdy Hps Hpred Ha Hlo Hlp Hly Hsc Hyc.
  apply fit_closed_steps in Hrun
    as (snm_f' & tm' & tbl' & snm & dropped' & y_vals & fm' & pred & a & lhm' & x
        & Hsnm' & Htm' & _ & Hdf' & Hdm' & Hdrop' & Hdy' & Hps' & Hpred' & Ha' & Hlhm & Hx
        & -> & _).
  rewrite Hsnm in Hsnm'. injection Hsnm' as <-.
  rewrite Htm in Htm'. injection Htm' as <-.
  rewrite Hdf in Hdf'. injection Hdf' as <-.
  rewrite Hdm in Hdm'. injection Hdm' as <-.
  rewrite Hdrop in Hdrop'. injection Hdrop' as <-.
  rewrite Hdy in Hdy'. injection Hdy' as <-.
  rewrite Hps in Hps'. injection Hps' as <-.
  rewrite Hpred in Hpred'. injection Hpred' as <-.
  rewrite Ha in Ha'. injection Ha' as <-.
  destruct (estimating_equation_refines r_ring idx idy snm_cols y_cols observed predicted
              Hlo Hlp Hly Hsc Hyc) as [Hl Hr].
  cbv zeta in Hl, Hr. rewrite Hl in Hlhm. injection Hlhm as <-. rewrite Hr in Hx.
  exists x. cbn [psi psi_labels with_psi with_psi_labels].
  split; [reflexivity |]. split; [| exact Hx].
  unfold column_names, frame_of. cbn [columns]. rewrite map_map. reflexivity.
Qed.

End ClosedFitEquation.

Lemma fit_closed_solves_square_system_witness :
  let self := Demo.ge_configured None in
  let run := GEstimationSNM.fit Demo.ext "closed" None (GEstimationSNM.AlphaScalar 0%Z)
               (self, Demo.world_ge) in
  ∃ snm_f tm tbl snm dropped y_vals lhm rha x,
    GEstimationSNM._snm_ self = Some snm_f
    ∧ GEstimationSNM._treatment_model self = Some tm
    ∧ GEstimationSNM._weights self = None
    ∧ heap Demo.world_ge !! 1 = Some tbl
    ∧ dmatrix Demo.ext (snm_f +:+ " - 1")
        (GEstimationSNM.fit_locals self tbl "closed" None (GEstimationSNM.AlphaScalar 0%Z))
        tbl
      = Ok snm
    ∧ drop_col "art" tbl = Ok dropped
    ∧ dmatrix Demo.ext (snm_f +:+ " - 1")
        (GEstimationSNM.fit_locals_outcome self tbl "closed" None
           (GEstimationSNM.AlphaScalar 0%Z) snm (rename_col "dead" "art" dropped))
        (rename_col "dead" "art" dropped)
      = Ok y_vals
    ∧ GEstimationSNM.psi_labels run.2.1 = Some (column_names snm)
    ∧ length lhm = length (column_names snm)
    ∧ Forall (λ row, length row = length (column_names snm)) lhm
    ∧ length rha = length (column_names y_vals)
    ∧ linalg_solve Demo.ext lhm rha = Ok x
    ∧ GEstimationSNM.psi run.2.1 = Some x
    ∧ GEstimationSNM.df run.2.1 = 1
    ∧ GEstimationSNM.treatment run.2.1 = "art"
    ∧ GEstimationSNM.outcome run.2.1 = "dead"
    ∧ GEstimationSNM._weights run.2.1 = None
    ∧ GEstimationSNM._snm_ run.2.1 = Some "art"
    ∧ GEstimationSNM._treatment_model run.2.1 = Some "male"
    ∧ GEstimationSNM._print_results run.2.1 = true
    ∧ warnings run.2.2 = []
    ∧ (∀ l t0, heap Demo.world_ge !! l = Some t0 → heap run.2.2 !! l = Some t0).
Proof.
  cbv zeta.
  refine (fit_closed_solves_square_system Demo.ext (Demo.ge_configured None) _
            Demo.world_ge _ None (GEstimationSNM.AlphaScalar 0%Z) _).
  vm_compute. reflexivity.
Defined.

Lemma fit_failure_keeps_psi_witness :
  let self := Demo.ge_configured (Some "w") in
  let run := GEstimationSNM.fit Demo.ext "closed" None (GEstimationSNM.AlphaScalar 0%Z)
               (self, Demo.world_ge) in
  GEstimationSNM.psi run.2.1 = GEstimationSNM.psi self
  ∧ GEstimationSNM.df run.2.1 = GEstimationSNM.df self
  ∧ GEstimationSNM.treatment run.2.1 = GEstimationSNM.treatment self
  ∧ GEstimationSNM.outcome run.2.1 = GEstimationSNM.outcome self
  ∧ GEstimationSNM._weights run.2.1 = GEstimationSNM._weights self
  ∧ GEstimationSNM._snm_ run.2.1 = GEstimationSNM._snm_ self
  ∧ GEstimationSNM._treatment_model run.2.1 = GEstimationSNM._treatment_model self
  ∧ GEstimationSNM._print_results run.2.1 = GEstimationSNM._print_results self
  ∧ (GEstimationSNM.psi_labels run.2.1 = GEstimationSNM.psi_labels self
     ∨ ∃ snm_f tbl snm,
         "closed" = "closed" ∧ GEstimationSNM._snm_ self = Some snm_f
         ∧ heap Demo.world_ge !! GEstimationSNM.df self = Some tbl
         ∧ dmatrix Demo.ext (snm_f +:+ " - 1")
             (GEstimationSNM.fit_locals self tbl "closed" None
                (GEstimationSNM.AlphaScalar 0%Z))
             tbl
           = Ok snm
         ∧ GEstimationSNM.psi_labels run.2.1 = Some (column_names snm))
  ∧ warnings run.2.2 = warnings Demo.world_ge
  ∧ (∀ l t0, heap Demo.world_ge !! l = Some t0 → heap run.2.2 !! l = Some t0).
Proof.
  cbv zeta.
  refine (fit_failure_keeps_psi Demo.ext (Demo.ge_configured (Some "w")) _
            Demo.world_ge _ "closed" None (GEstimationSNM.AlphaScalar 0%Z)
            (TypeError "can't multiply sequence by non-int of type 'float'") _).
  vm_compute. reflexivity.
Defined.

Lemma fit_closed_weights_type_error_witness :
  let self := Demo.ge_configured (Some "w") in
  ∃ msg w',
    GEstimationSNM.fit Demo.ext "closed" None (GEstimationSNM.AlphaScalar 0%Z)
      (self, Demo.world_ge)
    = (Err (TypeError msg), (GEstimationSNM.with_psi_labels ["art"] self, w'))
    ∧ GEstimationSNM.psi (GEstimationSNM.with_psi_labels ["art"] self)
      = GEstimationSNM.psi self.
Proof.
  cbv zeta.
  refine (fit_closed_weights_type_error Demo.ext (Demo.ge_configured (Some "w"))
            Demo.world_ge "w" "art" "male" Demo.table_reset
            {| index := [0; 1; 2; 3]; columns := [("art", Demo.nums [1; 0; 1; 0]%Z)] |}
            {| index := [0; 1; 2; 3];
               columns := [("index", Demo.nums [0; 1; 2; 3]%Z);
                           ("dead", Demo.nums [0; 1; 1; 0]%Z);
                           ("male", Demo.nums [1; 1; 0; 0]%Z);
                           ("w", Demo.nums [1; 2; 1; 2]%Z)] |}
            {| index := [0; 1; 2; 3]; columns := [("art", Demo.nums [0; 1; 1; 0]%Z)] |}
            "male" (Demo.nums [5; 5; 3; 3]%Z) (Demo.nums [1; 0; 1; 0]%Z)
            None (GEstimationSNM.AlphaScalar 0%Z)
            eq_refl eq_refl eq_refl eq_refl eq_refl eq_refl eq_refl eq_refl eq_refl eq_refl).
Defined.

Lemma summary_after_fit_witness :
  let run := GEstimationSNM.fit Demo.ext "closed" None (GEstimationSNM.AlphaScalar 0%Z)
               (Demo.ge_configured None, Demo.world_ge) in
  let show := λ (_ : Z) (c : cell Z), match c with Some z => pretty z | None => "nan" end in
  ∃ ps labels,
    GEstimationSNM.psi run.2.1 = Some ps
    ∧ GEstimationSNM.psi_labels run.2.1 = Some labels
    ∧ GEstimationSNM.summary show 3%Z (run.2.1, run.2.2)
      = (Ok (), (run.2.1,
                 {| heap := heap run.2.2; warnings := warnings run.2.2;
                    stdout := stdout run.2.2
                              ++ [GEstimationSNM.summary_rule; GEstimationSNM.summary_title;
                                  GEstimationSNM.summary_rule; GEstimationSNM.summary_rule]
                              ++ zip_with (λ p pl, pl +:+ " " +:+ show 3%Z p) ps labels
                              ++ [GEstimationSNM.summary_rule] |})).
Proof.
  cbv zeta.
  refine (summary_after_fit Demo.ext (Demo.ge_configured None) _ Demo.world_ge _ None
            (GEstimationSNM.AlphaScalar 0%Z) _ 3%Z _).
  vm_compute. reflexivity.
Defined.

Lemma summary_after_failed_fit_witness :
  let run := GEstimationSNM.fit Demo.ext "search" None (GEstimationSNM.AlphaScalar 0%Z)
               (Demo.ge_configured None, Demo.world_ge) in
  let show := λ (_ : Z) (c : cell Z), match c with Some z => pretty z | None => "nan" end in
  ∃ msg,
    GEstimationSNM.summary show 3%Z run.2
    = (Err (TypeError msg),
       (run.2.1, {| heap := heap run.2.2; warnings := warnings run.2.2;
                    stdout := stdout run.2.2
                              ++ [GEstimationSNM.summary_rule; GEstimationSNM.summary_title;
                                  GEstimationSNM.summary_rule;
                                  GEstimationSNM.summary_rule] |})).
Proof.
  cbv zeta.
  refine (summary_after_failed_fit Demo.ext (Demo.ge_configured None) Demo.world_ge "search"
            None (GEstimationSNM.AlphaScalar 0%Z) (ValueError "Not implemented yet") _ _ 3%Z
            eq_refl _).
  vm_compute. reflexivity.
Defined.

Lemma fit_closed_outcome_table_witness :
  let self := Demo.ge_configured None in
  let run := GEstimationSNM.fit Demo.ext "closed" None (GEstimationSNM.AlphaScalar 0%Z)
               (self, Demo.world_ge) in
  ∃ tbl yf snm_f snm y_vals,
    heap Demo.world_ge !! 1 = Some tbl
    ∧ heap run.2.2 !! 1 = Some tbl
    ∧ heap run.2.2 !! 3 = Some yf
    ∧ GEstimationSNM._snm_ self = Some snm_f
    ∧ dmatrix Demo.ext (snm_f +:+ " - 1")
        (GEstimationSNM.fit_locals_outcome self tbl "closed" None
           (GEstimationSNM.AlphaScalar 0%Z) snm yf)
        yf
      = Ok y_vals
    ∧ index yf = index tbl
    ∧ get_col "art" yf = get_col "dead" tbl
    ∧ get_col "dead" yf = None
    ∧ (∀ c, c ≠ "art" → c ≠ "dead" → get_col c yf = get_col c tbl).
Proof.
  cbv zeta.
  refine (fit_closed_outcome_table Demo.ext (Demo.ge_configured None) _ Demo.world_ge _ None
            (GEstimationSNM.AlphaScalar 0%Z) _ _).
  - discriminate.
  - vm_compute. reflexivity.
Defined.

Lemma fit_closed_estimating_equation_witness :
  let run := GEstimationSNM.fit Demo.ext "closed" None (GEstimationSNM.AlphaScalar 0%Z)
               (Demo.ge_configured None, Demo.world_ge) in
  ∃ x,
    GEstimationSNM.psi run.2.1 = Some x
    ∧ GEstimationSNM.psi_labels run.2.1 = Some (map fst [("art", [1; 0; 1; 0]%Z)])
    ∧ linalg_solve Demo.ext
        (map (map Some)
           (SpecFormula.lhm (map snd [("art", [1; 0; 1; 0]%Z)])
              (SpecFormula.residual [1; 0; 1; 0]%Z [5; 5; 3; 3]%Z)))
        (map Some
           (SpecFormula.rha (map snd [("art", [0; 1; 1; 0]%Z)])
              (SpecFormula.residual [1; 0; 1; 0]%Z [5; 5; 3; 3]%Z)))
      = Ok x.
Proof.
  cbv zeta.
  refine (fit_closed_estimating_equation (H := Demo.Z_numeric) Demo.ext
            InitialRing.Zth (Demo.ge_configured None) _
            Demo.world_ge _ None (GEstimationSNM.AlphaScalar 0%Z) Demo.table_reset
            {| index := [0; 1; 2; 3];
               columns := [("index", Demo.nums [0; 1; 2; 3]%Z);
                           ("dead", Demo.nums [0; 1; 1; 0]%Z);
                           ("male", Demo.nums [1; 1; 0; 0]%Z);
                           ("w", Demo.nums [1; 2; 1; 2]%Z)] |}
            "art" "male" "male" [0; 1; 2; 3] [0; 1; 2; 3]
            [("art", [1; 0; 1; 0]%Z)] [("art", [0; 1; 1; 0]%Z)]
            [1; 0; 1; 0]%Z [5; 5; 3; 3]%Z _ eq_refl eq_refl eq_refl eq_refl eq_refl eq_refl
            eq_refl eq_refl eq_refl eq_refl eq_refl eq_refl _ _).
  - vm_compute. reflexivity.
  - repeat constructor.
  - repeat constructor.
Defined.


Section ClosedFitSucceeds.
Context {R : Type} `{Numeric R} {model : Type}.
Variable ext : Collaborators R model.

Import GEstimationSNM.

(** X24. When the closed form succeeds.  On an instance without weights
    whose two models are specified, if patsy builds the two design
    matrices, the treatment model is fitted and predicts, [np.dot]
    accepts the shapes, and [np.linalg.solve] solves the system, then
    [fit(solver='closed')] succeeds: [psi] is the solution, [psi_labels]
    the column names of the design matrix, the store has two new objects,
    the tables made on the way to the outcome design matrix, no warning is
    issued, and the output is what [propensity_score] printed. *)
Theorem fit_closed_succeeds (self : t) (w : world R) (snm_f tm : string)
    (tbl snm dropped y_vals : DataFrame R) (fm : model) (pred a : list (cell R))
    (lhm : list (list (cell R))) (x : list (cell R))
    (sv : option (list R)) (av : alpha_arg) :
  _weights self = None →
  _snm_ self = Some snm_f →
  _treatment_model self = Some tm →
  heap w !! df self = Some tbl →
  dmatrix ext (snm_f +:+ " - 1") (fit_locals self tbl "closed" sv av) tbl = Ok snm →
  drop_col (treatment self) tbl = Ok dropped →
  dmatrix ext (snm_f +:+ " - 1")
    (fit_locals_outcome self tbl "closed" sv av snm
       (rename_col (outcome self) (treatment self) dropped))
    (rename_col (outcome self) (treatment self) dropped)
    = Ok y_vals →
  snd (propensity_score ext tbl ((treatment self +:+ " ~ ") +:+ tm) None
         (_print_results self))
    = Ok fm →
  predict ext fm tbl = Ok pred →
  get_col (treatment self) tbl = Some a →
  np_dot_T (mul_rows snm (align_with rsub a pred)) snm = Ok lhm →
  linalg_solve ext lhm (column_sums (mul_rows y_vals (align_with rsub a pred))) = Ok x →
  fit ext "closed" sv av (self, w)
  = (Ok (), (with_psi x (with_psi_labels (column_names snm) self),
             {| heap := heap w ++ [dropped;
                                   rename_col (outcome self) (treatment self) dropped];
                warnings := warnings w;
                stdout := stdout w
                          ++ fst (propensity_score ext tbl
                                    ((treatment self +:+ " ~ ") +:+ tm) None
                                    (_print_results self)) |})).
Proof.
  intros Hw Hsnm Htm Hdf Hdm Hdrop Hdy Hps Hpred Ha Hlhm Hx.
  assert (Hlt : df self < length (heap w)) by (eapply lookup_lt_Some; exact Hdf).
  unfold fit. cbn [String.eqb Ascii.eqb Bool.eqb andb].
  rewrite bind_unfold. cbn [get_self fst snd]. rewrite Hsnm.
  cbn [concat_attr_l]. rewrite bind_unfold, lift_run, bind_unfold.
  unfold load at 1. cbn [fst snd]. rewrite Hdf.
  rewrite bind_unfold, lift_run, Hdm.
  rewrite bind_unfold. cbn [set_self fst snd]. rewrite bind_unfold, lift_run, Hdrop.
  rewrite bind_unfold. cbn [alloc fst snd heap warnings stdout].
  rewrite bind_unfold. cbn [alloc fst snd heap warnings stdout].
  rewrite bind_unfold, lift_run, bind_unfold.
  unfold load at 1. cbn [fst snd heap]. rewrite lookup_alloc_second.
  rewrite bind_unfold, lift_run, Hdy.
  rewrite bind_unfold, lift_run, Htm. cbn [concat_attr_r].
  rewrite bind_unfold, Hw.
  unfold _closed_form_solver_. cbv zeta.
  rewrite bind_unfold. unfold load at 1. cbn [fst snd heap].
  rewrite !lookup_app_l by (rewrite ?length_app; cbn; lia). rewrite Hdf.
  rewrite bind_unfold. cbn [emit fst snd heap warnings stdout].
  rewrite bind_unfold, lift_run, Hps.
  rewrite bind_unfold, lift_run, Hpred.
  rewrite bind_unfold. unfold getitem. rewrite Ha, lift_run.
  rewrite bind_unfold. cbn [mret M_ret].
  rewrite bind_unfold, lift_run, Hlhm, lift_run, Hx.
  cbn [set_self fst snd]. rewrite <- app_assoc. reflexivity.
Qed.

End ClosedFitSucceeds.

Lemma fit_closed_succeeds_witness :
  GEstimationSNM.fit Demo.ext "closed" (Some [7%Z]) (GEstimationSNM.AlphaSeq [1; 2]%Z)
    (Demo.ge_configured None, Demo.world_ge)
  = (Ok (), (GEstimationSNM.with_psi [Some 1%Z]
               (GEstimationSNM.with_psi_labels ["art"] (Demo.ge_configured None)),
             {| heap := [Demo.table; Demo.table_reset;
                         {| index := [0; 1; 2; 3];
                            columns := [("index", Demo.nums [0; 1; 2; 3]%Z);
                                        ("dead", Demo.nums [0; 1; 1; 0]%Z);
                                        ("male", Demo.nums [1; 1; 0; 0]%Z);
                                        ("w", Demo.nums [1; 2; 1; 2]%Z)] |};
                         {| index := [0; 1; 2; 3];
                            columns := [("index", Demo.nums [0; 1; 2; 3]%Z);
                                        ("art", Demo.nums [0; 1; 1; 0]%Z);
                                        ("male", Demo.nums [1; 1; 0; 0]%Z);
                                        ("w", Demo.nums [1; 2; 1; 2]%Z)] |}];
                warnings := [];
                stdout := ["----------------------------------------------------------------";
                           "MODEL: art ~ male";
                           "-----------------------------------------------------------------";
                           "Generalized Linear Model Regression Results: male"] |})).
Proof.
  refine (fit_closed_succeeds Demo.ext (Demo.ge_configured None) Demo.world_ge
            "art" "male" Demo.table_reset
            {| index := [0; 1; 2; 3]; columns := [("art", Demo.nums [1; 0; 1; 0]%Z)] |}
            {| index := [0; 1; 2; 3];
               columns := [("index", Demo.nums [0; 1; 2; 3]%Z);
                           ("dead", Demo.nums [0; 1; 1; 0]%Z);
                           ("male", Demo.nums [1; 1; 0; 0]%Z);
                           ("w", Demo.nums [1; 2; 1; 2]%Z)] |}
            {| index := [0; 1; 2; 3]; columns := [("art", Demo.nums [0; 1; 1; 0]%Z)] |}
            "male" (Demo.nums [5; 5; 3; 3]%Z) (Demo.nums [1; 0; 1; 0]%Z)
            [[Some (-6)%Z]] [Some 1%Z]
            (Some [7%Z]) (GEstimationSNM.AlphaSeq [1; 2]%Z)
            eq_refl eq_refl eq_refl eq_refl eq_refl eq_refl eq_refl eq_refl eq_refl eq_refl
            eq_refl eq_refl).
Defined.
